(** * PeraPera: asset resolution, decryption, extraction and merge pipeline

    A shallow embedding of [asset_loader.py] and [extractor.py] and the
    properties of the pipeline stated in the specification.

    Conventions of the embedding.
    - Python [bytes] are lists of integers ([list Z], each in [0, 256)).
    - Python [str] is [string]; a character is a code point below 256.
    - A Python [dict] whose iteration order matters is an association list
      in insertion order; a [set] of ids is a [gset Z].
    - A call that raises is a result [None] (or an explicit exception value
      where the handler matters); state is threaded explicitly. *)

From Stdlib Require Import ZArith QArith String Ascii List Sorted Lia.
From stdpp Require Import base option list gmap strings.

#[local] Set Warnings "-clear-no-such-hyp".

Local Open Scope Z_scope.
Local Open Scope nat_scope.
Local Open Scope list_scope.

(** ** Key derivation and the bundle stream cipher ([asset_loader.py]) *)

Module KeyDerivation.

(** [derive_db_decryption_key]: [None] is the [ValueError] for a base key
    shorter than 13 bytes. *)
Definition derive_db_decryption_key (key base_key : list Z)
    : option (list Z) :=
  if length base_key <? 13 then None
  else
    Some (imap (λ i b, Z.lxor b (default 0%Z (base_key !! (i mod 13)))) key).

(** [bundle_key_int.to_bytes(8, byteorder="little", signed=True)]: [None] is
    the [OverflowError] outside the signed 64-bit range. *)
Definition to_bytes8 (bundle_key_int : Z) : option (list Z) :=
  if ((-(2 ^ 63) <=? bundle_key_int) && (bundle_key_int <? 2 ^ 63))%Z
  then
    Some ((λ j, Z.land (Z.shiftr bundle_key_int (8 * Z.of_nat j)) 255)
            <$> seq 0 8)
  else None.

(** [create_asset_final_key] over the base key [ASSET_BASE_KEY]: the byte at
    [(i << 3) + j] is [base_key[i] ^ bundle_key_bytes[j]]. *)
Definition create_asset_final_key (base_key : list Z) (bundle_key_int : Z)
    : option (list Z) :=
  bundle_key_bytes ← to_bytes8 bundle_key_int;
  Some (b ← base_key; (λ k, Z.lxor b k) <$> bundle_key_bytes).

Definition ASSET_BASE_KEY : list Z :=
  [0x53; 0x2b; 0x46; 0x31; 0xe4; 0xa7; 0xb9; 0x47; 0x3e; 0x7c; 0xfb]%Z.

(** One iteration of the loop body
    [decrypted_data[i] ^= final_key[i % key_len]].
    [i % key_len] raises [ZeroDivisionError] when [key_len = 0]. *)
Definition xor_step (final_key : list Z) (key_len : nat)
    (decrypted_data : list Z) (i : nat) : option (list Z) :=
  if decide (key_len = 0) then None
  else
    k ← final_key !! (i mod key_len);
    b ← decrypted_data !! i;
    Some (<[i := Z.lxor b k]> decrypted_data).

(** [for i in range(256, len(decrypted_data))]. *)
Definition xor_loop (final_key : list Z) (key_len : nat)
    (decrypted_data : list Z) (indices : list nat) : option (list Z) :=
  foldl (λ acc i, dd ← acc; xor_step final_key key_len dd i)
        (Some decrypted_data) indices.

Definition decrypt_asset_data (data final_key : list Z) : option (list Z) :=
  let decrypted_data := data in
  let key_len := length final_key in
  xor_loop final_key key_len decrypted_data
           (seq 256 (length decrypted_data - 256)).

(** Closed form of the loop's effect on offsets [from .. upto). *)
Definition xored (final_key : list Z) (from upto : nat) (data : list Z)
    : list Z :=
  imap (λ i b,
          if decide (from ≤ i < upto)
          then Z.lxor b (default 0%Z (final_key !! (i mod length final_key)))
          else b) data.

End KeyDerivation.

(** ** Python built-ins used by the pipeline *)

Module Py.

(** [str.isspace] on one character (code points below 256). *)
Definition isspace (c : ascii) : bool :=
  let n := nat_of_ascii c in
  ((9 <=? n) && (n <=? 13)) || ((28 <=? n) && (n <=? 32))
  || (n =? 133) || (n =? 160).

Fixpoint lstrip (s : string) : string :=
  match s with
  | EmptyString => EmptyString
  | String c s' => if isspace c then lstrip s' else s
  end.

Fixpoint rstrip (s : string) : string :=
  match s with
  | EmptyString => EmptyString
  | String c s' =>
      match rstrip s' with
      | EmptyString => if isspace c then EmptyString else String c EmptyString
      | r => String c r
      end
  end.

(** [s.strip()] *)
Definition strip (s : string) : string := rstrip (lstrip s).

(** Truth value of a [str]: non-empty. *)
Definition truthy (s : string) : bool :=
  match s with EmptyString => false | _ => true end.

(** [k in d] on an optional field. *)
Definition has {A} (field : option A) : bool :=
  match field with Some _ => true | None => false end.

(** [d.get(k, dflt)] on an optional field. *)
Definition get {A} (field : option A) (dflt : A) : A := default dflt field.

(** [str.isdigit] on one character: the ASCII digits and the superscript
    digits U+00B2, U+00B3, U+00B9. *)
Definition isdigit_char (c : ascii) : bool :=
  let n := nat_of_ascii c in
  ((48 <=? n) && (n <=? 57)) || (n =? 178) || (n =? 179) || (n =? 185).

Fixpoint all_chars (p : ascii → bool) (s : string) : bool :=
  match s with
  | EmptyString => true
  | String c s' => p c && all_chars p s'
  end.

Definition isdigit (s : string) : bool := truthy s && all_chars isdigit_char s.

(** [int(s)] for a string accepted by [isdigit]: [None] is [ValueError]
    (a superscript digit). *)
Fixpoint int_acc (acc : Z) (s : string) : option Z :=
  match s with
  | EmptyString => Some acc
  | String c s' =>
      let n := nat_of_ascii c in
      if (48 <=? n) && (n <=? 57)
      then int_acc (10 * acc + Z.of_nat (n - 48))%Z s'
      else None
  end.

Definition int (s : string) : option Z :=
  if truthy s then int_acc 0%Z s else None.

(** Line boundaries of [str.splitlines] (code points below 256), [\r\n]
    apart. *)
Definition is_linebreak (c : ascii) : bool :=
  let n := nat_of_ascii c in
  ((10 <=? n) && (n <=? 13)) || ((28 <=? n) && (n <=? 30)) || (n =? 133).

Fixpoint splitlines_from (line : string) (s : string) : list string :=
  match s with
  | EmptyString => if truthy line then [line] else []
  | String c s' =>
      if is_linebreak c then
        match s' with
        | String c' s'' =>
            if (nat_of_ascii c =? 13) && (nat_of_ascii c' =? 10)
            then line :: splitlines_from EmptyString s''
            else line :: splitlines_from EmptyString s'
        | EmptyString => [line]
        end
      else splitlines_from (line +:+ String c EmptyString) s'
  end.

(** [s.splitlines()] *)
Definition splitlines (s : string) : list string :=
  splitlines_from EmptyString s.

(** [x > y] on the exact value of two ratios. *)
Definition Qgt_bool (x y : Q) : bool := negb (Qle_bool x y).

(** [max(l, key=key, default=None)]: the first element whose key is not
    exceeded by a later one. *)
Definition max_by {A} (key : A → Q) (l : list A) : option A :=
  match l with
  | [] => None
  | x :: l' =>
      Some (foldl (λ best y, if Qgt_bool (key y) (key best) then y else best)
                  x l')
  end.

(** An insertion-ordered [dict]: [d[k] = v] replaces the value of an
    existing key in place and appends a new key at the end. *)
Fixpoint dict_set {K V} `{EqDecision K} (k : K) (v : V) (d : list (K * V))
    : list (K * V) :=
  match d with
  | [] => [(k, v)]
  | (k', v') :: d' =>
      if decide (k = k') then (k, v) :: d' else (k', v') :: dict_set k v d'
  end.

Fixpoint dict_get {K V} `{EqDecision K} (k : K) (d : list (K * V))
    : option V :=
  match d with
  | [] => None
  | (k', v') :: d' => if decide (k = k') then Some v' else dict_get k d'
  end.

Definition dict_keys {K V} (d : list (K * V)) : list K := d.*1.

(** [{key(x): value(x) for x in l}] *)
Definition dict_of {A K V} `{EqDecision K} (key : A → K) (value : A → V)
    (l : list A) : list (K * V) :=
  foldl (λ d x, dict_set (key x) (value x) d) [] l.

(** [enumerate(l)] *)
Definition enumerate {A} (start : nat) (l : list A) : list (nat * A) :=
  imap (λ i x, (start + i, x)) l.

End Py.

(** ** The persisted document ([text_blocks] of the workspace JSON)

    A block is a JSON object; each field is [None] when the key is absent.
    [block_index] and [voiceIdx] can also hold JSON [null], which is the
    inner [None]. *)

Module Choice.
Record t := mk {
  jpText : option string;
  enText : option string;
  nextBlock : option Z;
  differenceFlag : option Z
}.

Definition set_enText (v : string) (c : t) : t :=
  {| jpText := jpText c; enText := Some v; nextBlock := nextBlock c;
     differenceFlag := differenceFlag c |}.
End Choice.

Module ColoredText.
Record t := mk { jpText : option string; enText : option string }.
End ColoredText.

Module Block.
Record t := mk {
  block_index : option (option Z);
  path_id : option Z;
  jpName : option string;
  enName : option string;
  jpText : option string;
  enText : option string;
  voiceIdx : option (option Z);
  cueSheet : option string;
  choices : option (list Choice.t);
  coloredText : option (list ColoredText.t);
  nextBlock : option Z;
  differenceFlag : option Z;
  time : option string;
  motion_index : option Z;
  text_index : option Z;
  motion_name : option string;
  object_name : option string
}.

(** [{}] *)
Definition empty : t :=
  mk None None None None None None None None None None None None None None
     None None None.

(** [block["enText"] = v] *)
Definition set_enText (v : string) (b : t) : t :=
  mk (block_index b) (path_id b) (jpName b) (enName b) (jpText b) (Some v)
     (voiceIdx b) (cueSheet b) (choices b) (coloredText b) (nextBlock b)
     (differenceFlag b) (time b) (motion_index b) (text_index b)
     (motion_name b) (object_name b).

(** [block["enName"] = v] *)
Definition set_enName (v : string) (b : t) : t :=
  mk (block_index b) (path_id b) (jpName b) (Some v) (jpText b) (enText b)
     (voiceIdx b) (cueSheet b) (choices b) (coloredText b) (nextBlock b)
     (differenceFlag b) (time b) (motion_index b) (text_index b)
     (motion_name b) (object_name b).

(** The choice objects of the block are replaced by [cs]. *)
Definition set_choices (cs : list Choice.t) (b : t) : t :=
  mk (block_index b) (path_id b) (jpName b) (enName b) (jpText b) (enText b)
     (voiceIdx b) (cueSheet b) (Some cs) (coloredText b) (nextBlock b)
     (differenceFlag b) (time b) (motion_index b) (text_index b)
     (motion_name b) (object_name b).

(** Truth value of the block as a [dict]: it has at least one key. *)
Definition truthy (b : t) : bool :=
  Py.has (block_index b) || Py.has (path_id b) || Py.has (jpName b)
  || Py.has (enName b) || Py.has (jpText b) || Py.has (enText b)
  || Py.has (voiceIdx b) || Py.has (cueSheet b) || Py.has (choices b)
  || Py.has (coloredText b) || Py.has (nextBlock b)
  || Py.has (differenceFlag b) || Py.has (time b)
  || Py.has (motion_index b) || Py.has (text_index b)
  || Py.has (motion_name b) || Py.has (object_name b).
End Block.

Module Doc.
Record t := mk {
  asset_name : option string;
  type : option string;
  group_name : option string;
  title : option string;
  bundle_hashes : option (string * string);
  text_blocks : option (list Block.t)
}.

Definition set_text_blocks (bs : option (list Block.t)) (d : t) : t :=
  mk (asset_name d) (type d) (group_name d) (title d) (bundle_hashes d) bs.
End Doc.

(** ** The decoded scene graph (typetrees read from a bundle)

    Each record is the typed view of one kind of typetree dictionary; a
    field is [None] when the key is missing.  A list entry that is not a
    dictionary is [None]. *)

Module ChoiceData.
Record t := mk {
  Text : option string;
  NextBlock : option Z;
  DifferenceFlag : option Z
}.
End ChoiceData.

Module ColorTextInfo.
Record t := mk { Text : option string }.
End ColorTextInfo.

Module TextClip.
Record t := mk {
  Name : option string;
  CueId : option Z;
  DifferenceFlag : option Z;
  Text : option string;
  VoiceSheetId : option string;
  NextBlock : option Z;
  ChoiceDataList : option (list (option ChoiceData.t));
  ColorTextInfoList : option (list (option ColorTextInfo.t))
}.

(** A dictionary with none of the text-clip keys. *)
Definition empty : t := mk None None None None None None None None.
End TextClip.

Module ClipInfo.
Record t := mk { m_PathID : option Z }.
End ClipInfo.

Module TextTrack.
(** [ClipList] is [None] when missing or not a list. *)
Record t := mk { ClipList : option (list ClipInfo.t) }.
End TextTrack.

Module TimelineBlock.
(** [TextTrack] is [None] when missing or not a dictionary. *)
Record t := mk { TextTrack : option TextTrack.t }.
End TimelineBlock.

Module Timeline.
Record t := mk {
  Title : option string;
  BlockList : list (option TimelineBlock.t)
}.
End Timeline.

Module RaceItem.
Record t := mk { key : option Z; text : option string }.
End RaceItem.

Module PreviewItem.
Record t := mk { Name : option string; Text : option string }.
End PreviewItem.

Module TextParam.
Record t := mk { _text : option string; _objectName : option string }.
End TextParam.

Module ItemParam.
Record t := mk { _childMotionID : option Z }.
End ItemParam.

Module MotionParam.
Record t := mk {
  _id : option Z;
  _name : option string;
  _textParamList : option (list (option TextParam.t));
  _objectParamList : option (list ItemParam.t);
  _planeParamList : option (list ItemParam.t)
}.
End MotionParam.

Module MainMono.
(** [_motionParameterList] is the list reached through
    [_motionParameterGroup]. *)
Record t := mk {
  _motionParameterList : option (list MotionParam.t);
  _rootMotionID : option Z
}.
End MainMono.

Module Scene.

(** [m_Script] of a [TextAsset]: a [str] or [bytes]. *)
Inductive Script :=
| ScriptStr (s : string)
| ScriptBytes (raw : list Z).

(** What [obj.read_typetree()] returns. *)
Inductive Tree :=
| NotDict
| TimelineTree (tree : Timeline.t)
| TextClipTree (tree : TextClip.t)
| RaceTree (textData : list (option RaceItem.t))
| TextAssetTree (m_Script : option Script)
| PreviewTree (DataArray : option (list (option PreviewItem.t)))
| UIAnimationTree (tree : MainMono.t)
| OtherDict.

(** One object of [env.objects]; [read_typetree] is [None] when the call
    raises. *)
Record Obj := mkObj {
  type_name : string;
  path_id : Z;
  read_typetree : option Tree
}.

Definition Env := list Obj.

Definition is_type (name : string) (obj : Obj) : bool :=
  String.eqb (type_name obj) name.

(** The typetree of a companion object read as a text clip; [None] when it
    is not a dictionary. *)
Definition as_text_clip (tree : Tree) : option TextClip.t :=
  match tree with
  | NotDict => None
  | TextClipTree d => Some d
  | _ => Some TextClip.empty
  end.

End Scene.

(** ** ExtractionDispatcher: the walkers of [asset_loader.py] *)

Module Walkers.
Import Scene.

(** A fresh [{"text_blocks": blocks}], with the title when given. *)
Definition extracted (title : option string) (blocks : list Block.t)
    : Doc.t :=
  Doc.mk None None None title None (Some blocks).

(** The first [MonoBehaviour] whose typetree is a dictionary with
    [BlockList]. *)
Fixpoint find_timeline (objects : list Obj) : option Timeline.t :=
  match objects with
  | [] => None
  | obj :: rest =>
      if is_type "MonoBehaviour" obj then
        match read_typetree obj with
        | Some (TimelineTree tree) => Some tree
        | _ => find_timeline rest
        end
      else find_timeline rest
  end.

(** The guard on a block: a dictionary whose [TextTrack] is a dictionary
    with a non-empty [ClipList]. *)
Definition clip_list_of (block : option TimelineBlock.t)
    : option (list ClipInfo.t) :=
  b ← block;
  text_track ← TimelineBlock.TextTrack b;
  clip_list ← TextTrack.ClipList text_track;
  match clip_list with [] => None | _ => Some clip_list end.

(** [path_id] of [clip_list[0]]. *)
Definition first_path_id (block : option TimelineBlock.t) : option Z :=
  clip_list ← clip_list_of block;
  clip_info ← head clip_list;
  ClipInfo.m_PathID clip_info.

(** [looked_up_name or jp_name] *)
Definition or_name (looked_up_name : option string) (jp_name : string)
    : string :=
  match looked_up_name with
  | Some name => if Py.truthy name then name else jp_name
  | None => jp_name
  end.

(** Lines 122-135 of [parse_story_timeline]: the effective cue id of a block
    and the global offset after it. *)
Definition renumber_cue (original_cue_id : option Z)
    (difference_flag global_cue_offset : Z) : option Z * Z :=
  let local_cue_offset := if (difference_flag =? 2)%Z then 1%Z else 0%Z in
  let renumbered :=
    match original_cue_id with
    | Some c => negb (c =? -1)%Z
    | None => false
    end in
  let final_cue_id :=
    if renumbered
    then (λ c, c + local_cue_offset + global_cue_offset)%Z <$> original_cue_id
    else original_cue_id in
  let global_cue_offset :=
    if (difference_flag =? 4)%Z && renumbered
    then (global_cue_offset + 1)%Z else global_cue_offset in
  (final_cue_id, global_cue_offset).

Definition story_choices (l : list (option ChoiceData.t)) : list Choice.t :=
  omap (λ entry : option ChoiceData.t,
          choice ← entry;
          Some (Choice.mk (Some (Py.get (ChoiceData.Text choice) EmptyString))
                          (Some EmptyString)
                          (Some (Py.get (ChoiceData.NextBlock choice) 0%Z))
                          (Some (Py.get (ChoiceData.DifferenceFlag choice)
                                        0%Z)))) l.

Definition story_colored (l : list (option ColorTextInfo.t))
    : list ColoredText.t :=
  omap (λ entry : option ColorTextInfo.t,
          color_info ← entry;
          Some (ColoredText.mk
                  (Some (Py.get (ColorTextInfo.Text color_info) EmptyString))
                  (Some EmptyString))) l.

(** [block_data] of [parse_story_timeline]. *)
Definition story_block_data (block_idx : nat) (path_id : Z)
    (looked_up_name : option string) (jp_name : string)
    (text_clip_data : TextClip.t) : Block.t :=
  {| Block.block_index := Some (Some (Z.of_nat block_idx - 1)%Z);
     Block.path_id := Some path_id;
     Block.jpName := Some (or_name looked_up_name jp_name);
     Block.enName := Some EmptyString;
     Block.jpText := Some (Py.get (TextClip.Text text_clip_data) EmptyString);
     Block.enText := Some EmptyString;
     Block.voiceIdx := Some (TextClip.CueId text_clip_data);
     Block.cueSheet := TextClip.VoiceSheetId text_clip_data;
     Block.choices :=
       Some (story_choices
               (Py.get (TextClip.ChoiceDataList text_clip_data) []));
     Block.coloredText :=
       Some (story_colored
               (Py.get (TextClip.ColorTextInfoList text_clip_data) []));
     Block.nextBlock := Some (Py.get (TextClip.NextBlock text_clip_data) 0%Z);
     Block.differenceFlag :=
       Some (Py.get (TextClip.DifferenceFlag text_clip_data) 0%Z);
     Block.time := None; Block.motion_index := None;
     Block.text_index := None; Block.motion_name := None;
     Block.object_name := None |}.

(** State of the loop over [BlockList[1:]].  [final_cue_ids] logs the value
    of the local variable [final_cue_id] at each append; the source computes
    it and stores it nowhere. *)
Record StoryState := mkStory {
  global_cue_offset : Z;
  text_blocks : list Block.t;
  final_cue_ids : list (option Z)
}.

(** The text clip a block leads to and its resolved speaker name, [None]
    when the block is skipped (a warning or a caught exception). *)
Definition story_clip (objects_by_path_id : list (Z * Obj))
    (char_names : gmap Z string) (block : option TimelineBlock.t)
    : option (Z * TextClip.t * option string * string) :=
  path_id ← first_path_id block;
  text_clip_obj ← Py.dict_get path_id objects_by_path_id;
  tree ← read_typetree text_clip_obj;
  text_clip_data ← as_text_clip tree;
  let jp_name := Py.get (TextClip.Name text_clip_data) EmptyString in
  looked_up_name ←
    (if Py.isdigit jp_name
     then n ← Py.int jp_name; Some (char_names !! n)
     else Some (Some jp_name));
  Some (path_id, text_clip_data, looked_up_name, jp_name).

(** One iteration of [for block_idx, block in enumerate(block_list[1:], 1)]. *)
Definition story_step (objects_by_path_id : list (Z * Obj))
    (char_names : gmap Z string) (st : StoryState)
    (entry : nat * option TimelineBlock.t) : StoryState :=
  let '(block_idx, block) := entry in
  match story_clip objects_by_path_id char_names block with
  | None => st
  | Some (path_id, text_clip_data, looked_up_name, jp_name) =>
      let original_cue_id := TextClip.CueId text_clip_data in
      let difference_flag :=
        Py.get (TextClip.DifferenceFlag text_clip_data) 0%Z in
      let '(final_cue_id, global_cue_offset') :=
        renumber_cue original_cue_id difference_flag (global_cue_offset st) in
      let block_data :=
        story_block_data block_idx path_id looked_up_name jp_name
                         text_clip_data in
      {| global_cue_offset := global_cue_offset';
         text_blocks := text_blocks st ++ [block_data];
         final_cue_ids := final_cue_ids st ++ [final_cue_id] |}
  end.

Definition story_loop (objects : Env) (char_names : gmap Z string)
    (block_list : list (option TimelineBlock.t)) : StoryState :=
  let objects_by_path_id := Py.dict_of path_id id objects in
  foldl (story_step objects_by_path_id char_names)
        (mkStory 0 [] [])
        (Py.enumerate 1 (drop 1 block_list)).

Definition story_title (tree : Timeline.t) : option string :=
  match Timeline.Title tree with
  | Some title =>
      if Py.truthy title && negb (String.eqb title "0") then Some title
      else None
  | None => None
  end.

(** [char_names] is [manager.get_text_data_category(6)]. *)
Definition parse_story_timeline (env : Env) (char_names : gmap Z string)
    : option Doc.t :=
  timeline_data_asset ← find_timeline env;
  let st := story_loop env char_names (Timeline.BlockList timeline_data_asset)
  in Some (extracted (story_title timeline_data_asset) (text_blocks st)).

(** The values [final_cue_id] takes, one per emitted block. *)
Definition story_final_cue_ids (env : Env) (char_names : gmap Z string)
    : option (list (option Z)) :=
  timeline_data_asset ← find_timeline env;
  Some (final_cue_ids
          (story_loop env char_names (Timeline.BlockList timeline_data_asset))).

(** *** Race walker *)

Definition race_blocks (textData : list (option RaceItem.t)) : list Block.t :=
  omap (λ entry : option RaceItem.t,
          item ← entry;
          text ← RaceItem.text item;
          Some {| Block.block_index := Some (RaceItem.key item);
                  Block.path_id := None; Block.jpName := None;
                  Block.enName := None;
                  Block.jpText := Some text;
                  Block.enText := Some EmptyString;
                  Block.voiceIdx := None; Block.cueSheet := None;
                  Block.choices := None; Block.coloredText := None;
                  Block.nextBlock := None; Block.differenceFlag := None;
                  Block.time := None; Block.motion_index := None;
                  Block.text_index := None; Block.motion_name := None;
                  Block.object_name := None |}) textData.

Fixpoint parse_race_story (env : Env) : option Doc.t :=
  match env with
  | [] => None
  | obj :: rest =>
      if is_type "MonoBehaviour" obj then
        match read_typetree obj with
        | Some (RaceTree textData) =>
            Some (extracted None (race_blocks textData))
        | _ => parse_race_story rest
        end
      else parse_race_story rest
  end.

(** *** Lyrics walker *)

Definition lyric_block (time text : string) : Block.t :=
  {| Block.block_index := None; Block.path_id := None;
     Block.jpName := None; Block.enName := None;
     Block.jpText := Some (Py.strip text);
     Block.enText := Some EmptyString;
     Block.voiceIdx := None; Block.cueSheet := None;
     Block.choices := None; Block.coloredText := None;
     Block.nextBlock := None; Block.differenceFlag := None;
     Block.time := Some time; Block.motion_index := None;
     Block.text_index := None; Block.motion_name := None;
     Block.object_name := None |}.

(** [for row in reader]; [None] when [time, text, *_ = row] raises. *)
Fixpoint lyric_rows (rows : list (list string)) : option (list Block.t) :=
  match rows with
  | [] => Some []
  | [] :: rest => lyric_rows rest
  | [time] :: rest => if Py.truthy time then None else lyric_rows rest
  | (time :: text :: _) :: rest =>
      if Py.truthy time
      then cons (lyric_block time text) <$> lyric_rows rest
      else lyric_rows rest
  end.

Section Lyrics.

(** [csv.reader(lines, skipinitialspace=True)], read to the end; [None] when
    it raises.  [bytes.decode('utf-8')]; [None] when it raises. *)
Variable csv_reader : list string → option (list (list string)).
Variable utf8_decode : list Z → option string.

(** The blocks of one [TextAsset]; [None] when the object is passed over
    (no script, or an exception caught by the handler). *)
Definition lyric_asset (obj : Obj) : option (list Block.t) :=
  tree ← read_typetree obj;
  script ← match tree with TextAssetTree m_Script => m_Script | _ => None end;
  script_content ←
    match script with
    | ScriptStr s => if Py.truthy s then Some s else None
    | ScriptBytes [] => None
    | ScriptBytes raw => utf8_decode raw
    end;
  let lines := drop 2 (Py.splitlines script_content) in
  rows ← csv_reader lines;
  lyric_rows rows.

Fixpoint parse_lyrics (env : Env) : option Doc.t :=
  match env with
  | [] => None
  | obj :: rest =>
      if is_type "TextAsset" obj then
        match lyric_asset obj with
        | Some (b :: bs) => Some (extracted None (b :: bs))
        | _ => parse_lyrics rest
        end
      else parse_lyrics rest
  end.

End Lyrics.

(** *** Home timeline walker *)

Definition home_choices (l : list (option ChoiceData.t)) : list Choice.t :=
  omap (λ entry : option ChoiceData.t,
          choice ← entry;
          Some (Choice.mk (Some (Py.get (ChoiceData.Text choice) EmptyString))
                          (Some EmptyString)
                          (Some (Py.get (ChoiceData.NextBlock choice) 0%Z))
                          None)) l.

(** The block emitted for one entry of [BlockList], [None] when the entry
    is skipped. *)
Definition home_block (objects : Env) (char_names : gmap Z string)
    (block_index : nat) (block : option TimelineBlock.t) : option Block.t :=
  path_id ← first_path_id block;
  text_clip_obj ← find (λ obj, (Scene.path_id obj =? path_id)%Z) objects;
  tree ← read_typetree text_clip_obj;
  text_clip_data ← as_text_clip tree;
  text ← TextClip.Text text_clip_data;
  if negb (Py.truthy text) then None
  else
    let jp_name := Py.get (TextClip.Name text_clip_data) EmptyString in
    looked_up_name ←
      (if Py.isdigit jp_name
       then n ← Py.int jp_name; Some (char_names !! n)
       else Some None);
    Some {| Block.block_index := Some (Some (Z.of_nat block_index));
            Block.path_id := None;
            Block.jpName := Some (or_name looked_up_name jp_name);
            Block.enName := None;
            Block.jpText := Some text;
            Block.enText := Some EmptyString;
            Block.voiceIdx := Some (TextClip.CueId text_clip_data);
            Block.cueSheet := None;
            Block.choices :=
              Some (home_choices
                      (Py.get (TextClip.ChoiceDataList text_clip_data) []));
            Block.coloredText := None;
            Block.nextBlock := None; Block.differenceFlag := None;
            Block.time := None; Block.motion_index := None;
            Block.text_index := None; Block.motion_name := None;
            Block.object_name := None |}.

Definition home_loop (objects : Env) (char_names : gmap Z string)
    (block_list : list (option TimelineBlock.t)) : list Block.t :=
  foldl (λ blocks entry,
           match home_block objects char_names entry.1 entry.2 with
           | Some block_data => blocks ++ [block_data]
           | None => blocks
           end) [] (Py.enumerate 0 block_list).

Definition parse_home_timeline (env : Env) (char_names : gmap Z string)
    : option Doc.t :=
  timeline_data_asset ← find_timeline env;
  match home_loop env char_names (Timeline.BlockList timeline_data_asset) with
  | [] => None
  | blocks => Some (extracted None blocks)
  end.

(** *** Preview walker *)

Definition preview_block (i : nat) (entry : option PreviewItem.t)
    : option Block.t :=
  item ← entry;
  text ← PreviewItem.Text item;
  if negb (Py.truthy text) then None
  else
    Some {| Block.block_index := Some (Some (Z.of_nat i));
            Block.path_id := None;
            Block.jpName := Some (Py.get (PreviewItem.Name item) EmptyString);
            Block.enName := Some EmptyString;
            Block.jpText := Some text;
            Block.enText := Some EmptyString;
            Block.voiceIdx := None; Block.cueSheet := None;
            Block.choices := None; Block.coloredText := None;
            Block.nextBlock := None; Block.differenceFlag := None;
            Block.time := None; Block.motion_index := None;
            Block.text_index := None; Block.motion_name := None;
            Block.object_name := None |}.

Definition preview_loop (DataArray : list (option PreviewItem.t))
    : list Block.t :=
  foldl (λ blocks entry,
           match preview_block entry.1 entry.2 with
           | Some block_data => blocks ++ [block_data]
           | None => blocks
           end) [] (Py.enumerate 0 DataArray).

Fixpoint parse_preview (env : Env) : option Doc.t :=
  match env with
  | [] => None
  | obj :: rest =>
      if is_type "MonoBehaviour" obj then
        match read_typetree obj with
        | Some (PreviewTree (Some DataArray)) =>
            match preview_loop DataArray with
            | [] => None
            | blocks => Some (extracted None blocks)
            end
        | _ => parse_preview rest
        end
      else parse_preview rest
  end.

(** *** Generic walker *)

Fixpoint parse_generic (env : Env) : option Doc.t :=
  match env with
  | [] => None
  | obj :: rest =>
      if Py.truthy (type_name obj) then Some (extracted None [])
      else parse_generic rest
  end.

(** *** UI-animation walker *)

Fixpoint find_main_mono (objects : list Obj) : option MainMono.t :=
  match objects with
  | [] => None
  | obj :: rest =>
      if is_type "MonoBehaviour" obj then
        match read_typetree obj with
        | Some (UIAnimationTree tree) => Some tree
        | _ => find_main_mono rest
        end
      else find_main_mono rest
  end.

(** State shared by the calls of [find_text_recursively].  [visited] logs
    every execution of [processed_motion_ids.add(motion_id)], in order. *)
Record UIState := mkUI {
  ui_text_blocks : list Block.t;
  processed_motion_ids : gset Z;
  visited : list Z
}.

Definition text_unit (motion_idx : Z) (motion_param : MotionParam.t)
    (text_idx : nat) (entry : option TextParam.t) : option Block.t :=
  text_param ← entry;
  if Py.truthy
       (Py.strip (Py.get (TextParam._text text_param) EmptyString))
  then
    Some {| Block.block_index := None; Block.path_id := None;
            Block.jpName := None; Block.enName := None;
            Block.jpText := TextParam._text text_param;
            Block.enText := Some EmptyString;
            Block.voiceIdx := None; Block.cueSheet := None;
            Block.choices := None; Block.coloredText := None;
            Block.nextBlock := None; Block.differenceFlag := None;
            Block.time := None;
            Block.motion_index := Some motion_idx;
            Block.text_index := Some (Z.of_nat text_idx);
            Block.motion_name := MotionParam._name motion_param;
            Block.object_name := TextParam._objectName text_param |}
  else None.

(** The loop over [enumerate(direct_text_params)]. *)
Definition text_units (motion_idx : Z) (motion_param : MotionParam.t)
    : list Block.t :=
  omap (λ entry : nat * option TextParam.t,
          text_unit motion_idx motion_param entry.1 entry.2)
       (Py.enumerate 0
          (Py.get (MotionParam._textParamList motion_param) [])).

(** The child ids met by the two loops over [_objectParamList] and
    [_planeParamList], in order. *)
Definition child_motion_ids (motion_param : MotionParam.t)
    : list (option Z) :=
  ItemParam._childMotionID
    <$> (Py.get (MotionParam._objectParamList motion_param) []
         ++ Py.get (MotionParam._planeParamList motion_param) []).

(** [not motion_id] *)
Definition falsy_id (motion_id : option Z) : bool :=
  match motion_id with
  | Some i => (i =? 0)%Z
  | None => true
  end.

(** The two loops over the children of a motion, [visit] being the
    recursive call. *)
Fixpoint visit_children (visit : option Z → UIState → option UIState)
    (ids : list (option Z)) (st : UIState) : option UIState :=
  match ids with
  | [] => Some st
  | child_motion_id :: ids' =>
      if falsy_id child_motion_id then visit_children visit ids' st
      else
        st' ← visit child_motion_id st;
        visit_children visit ids' st'
  end.

Section Traversal.

Variable motion_map : list (option Z * MotionParam.t).
Variable motion_index_map : list (option Z * nat).

(** [find_text_recursively].  [fuel] is the number of nested calls the
    interpreter still allows; [None] is the [RecursionError] raised by a
    call beyond it, which nothing in [parse_uianimation] catches. *)
Fixpoint find_text_recursively (fuel : nat) (motion_id : option Z)
    (st : UIState) : option UIState :=
  match fuel with
  | 0 => None
  | S fuel' =>
      match motion_id with
      | None => Some st
      | Some i =>
          if (i =? 0)%Z || bool_decide (i ∈ processed_motion_ids st)
          then Some st
          else
            let st1 :=
              mkUI (ui_text_blocks st) ({[i]} ∪ processed_motion_ids st)
                   (visited st ++ [i]) in
            match Py.dict_get (Some i) motion_map with
            | None => Some st1
            | Some motion_param =>
                let motion_idx :=
                  match Py.dict_get (Some i) motion_index_map with
                  | Some idx => Z.of_nat idx
                  | None => (-1)%Z
                  end in
                let st2 :=
                  mkUI (ui_text_blocks st1
                        ++ text_units motion_idx motion_param)
                       (processed_motion_ids st1) (visited st1) in
                visit_children (find_text_recursively fuel')
                               (child_motion_ids motion_param) st2
            end
      end
  end.

(** [for motion_id in motion_map.keys(): find_text_recursively(motion_id)] *)
Fixpoint visit_roots (fuel : nat) (roots : list (option Z)) (st : UIState)
    : option UIState :=
  match roots with
  | [] => Some st
  | motion_id :: roots' =>
      st' ← find_text_recursively fuel motion_id st;
      visit_roots fuel roots' st'
  end.

End Traversal.

Definition motion_map_of (motion_param_list : list MotionParam.t)
    : list (option Z * MotionParam.t) :=
  Py.dict_of MotionParam._id id motion_param_list.

Definition motion_index_map_of (motion_param_list : list MotionParam.t)
    : list (option Z * nat) :=
  Py.dict_of (λ entry : nat * MotionParam.t, MotionParam._id entry.2) fst
             (Py.enumerate 0 motion_param_list).

(** The ids the traversal starts from: the declared root, else every key of
    [motion_map]. *)
Definition start_ids (main_mono : MainMono.t)
    (motion_map : list (option Z * MotionParam.t)) : list (option Z) :=
  if falsy_id (MainMono._rootMotionID main_mono)
  then Py.dict_keys motion_map
  else [MainMono._rootMotionID main_mono].

(** The traversal of [parse_uianimation] from its start ids, with room for
    [fuel] nested calls. *)
Definition uianimation_walk (fuel : nat) (main_mono : MainMono.t)
    (motion_param_list : list MotionParam.t) : option UIState :=
  let motion_map := motion_map_of motion_param_list in
  let motion_index_map := motion_index_map_of motion_param_list in
  visit_roots motion_map motion_index_map fuel
              (start_ids main_mono motion_map) (mkUI [] ∅ []).

(** A nesting depth that no traversal of the list exceeds. *)
Definition enough_fuel (motion_param_list : list MotionParam.t) : nat :=
  S (length motion_param_list).

(** [recursion_limit] is the number of nested calls of
    [find_text_recursively] that the interpreter's recursion limit leaves
    room for.  The outer [None] is the [RecursionError] of a traversal that
    nests deeper. *)
Definition parse_uianimation (recursion_limit : nat) (env : Env)
    : option (option Doc.t) :=
  match find_main_mono env with
  | None => Some None
  | Some main_mono =>
      match Py.get (MainMono._motionParameterList main_mono) [] with
      | [] => Some (Some (extracted None []))
      | motion_param_list =>
          st ← uianimation_walk recursion_limit main_mono motion_param_list;
          Some (Some (extracted None (ui_text_blocks st)))
      end
  end.

End Walkers.

(** ** MergeEngine ([extractor.py], [merge_translations]) *)

(** [Levenshtein.ratio], the similarity the merge uses, is a library
    function: [(len(a) + len(b) - d) / (len(a) + len(b))] with [d] the
    insert/delete edit distance, that is twice the length of a longest common
    subsequence over the summed lengths, and [1.0] for two empty strings.
    The ratio is kept as an exact rational. *)
Module Levenshtein.

Fixpoint lcs (a b : list ascii) : nat :=
  match a with
  | [] => 0
  | x :: a' =>
      (fix lcs_row (b : list ascii) : nat :=
         match b with
         | [] => 0
         | y :: b' =>
             if Ascii.eqb x y then S (lcs a' b')
             else Nat.max (lcs a' b) (lcs_row b')
         end) b
  end.

Definition ratio (a b : string) : Q :=
  let la := list_ascii_of_string a in
  let lb := list_ascii_of_string b in
  let lensum := length la + length lb in
  if lensum =? 0 then 1%Q
  else Qmake (Z.of_nat (2 * lcs la lb)) (Pos.of_nat lensum).

End Levenshtein.

Module MergeEngine.
Section Merge.

(** The similarity function, [Levenshtein.ratio] in the source. *)
Variable similarity : string → string → Q.

(** [block.get("jpText")] is truthy. *)
Definition has_text (block : Block.t) : bool :=
  match Block.jpText block with
  | Some s => Py.truthy s
  | None => false
  end.

(** [{block.get("jpText", "").strip(): block
      for block in old_blocks if block.get("jpText")}] *)
Definition old_text_lookup (old_blocks : list Block.t)
    : gmap string Block.t :=
  foldl (λ d block,
           <[Py.strip (Py.get (Block.jpText block) EmptyString) := block]> d)
        ∅ (filter (λ block, has_text block) old_blocks).

(** The candidate for one new block: the exact match of the index, else the
    old block of maximal similarity. *)
Definition find_best_match (old_blocks : list Block.t)
    (lookup : gmap string Block.t) (jp_text : string) : option Block.t :=
  let by_similarity :=
    Py.max_by (λ old_block,
                 similarity jp_text
                            (Py.get (Block.jpText old_block) EmptyString))
              old_blocks in
  match lookup !! Py.strip jp_text with
  | Some best_match =>
      if Block.truthy best_match then Some best_match else by_similarity
  | None => by_similarity
  end.

(** The inner loop over [enumerate(new_block["choices"])]. *)
Definition copy_choices (old_choices new_choices : list Choice.t)
    : list Choice.t :=
  imap (λ i new_choice,
          match old_choices !! i with
          | Some old_choice =>
              Choice.set_enText
                (Py.get (Choice.enText old_choice) EmptyString) new_choice
          | None => new_choice
          end) new_choices.

(** The body of [if best_match and similarity(...) > 0.85:]. *)
Definition copy_translation (best_match new_block : Block.t) : Block.t :=
  let b1 :=
    Block.set_enText (Py.get (Block.enText best_match) EmptyString)
                     new_block in
  let b2 :=
    match Block.enName best_match with
    | Some en_name => Block.set_enName en_name b1
    | None => b1
    end in
  match Block.choices b2, Block.choices best_match with
  | Some new_choices, Some old_choices =>
      Block.set_choices (copy_choices old_choices new_choices) b2
  | _, _ => b2
  end.

(** Whether the candidate is accepted. *)
Definition accepted (jp_text : string) (best_match : Block.t) : bool :=
  Block.truthy best_match
  && Py.Qgt_bool
       (similarity jp_text (Py.get (Block.jpText best_match) EmptyString))
       0.85%Q.

(** One iteration of [for new_block in new_blocks]. *)
Definition merge_block (old_blocks : list Block.t)
    (lookup : gmap string Block.t) (new_block : Block.t) : Block.t :=
  match Block.jpText new_block with
  | None => new_block
  | Some jp_text =>
      if negb (Py.truthy jp_text) then new_block
      else
        match find_best_match old_blocks lookup jp_text with
        | Some best_match =>
            if accepted jp_text best_match
            then copy_translation best_match new_block
            else new_block
        | None => new_block
        end
  end.

(** [existing] is the parsed JSON at [existing_tl_path], [None] when the
    path is not given or does not exist. *)
Definition merge_translations (new_data : Doc.t) (existing : option Doc.t)
    : Doc.t :=
  match existing with
  | None => new_data
  | Some old_data =>
      let old_blocks := Py.get (Doc.text_blocks old_data) [] in
      let lookup := old_text_lookup old_blocks in
      Doc.set_text_blocks
        (map (merge_block old_blocks lookup) <$> Doc.text_blocks new_data)
        new_data
  end.

End Merge.
End MergeEngine.

(** ** AssetIndex ([AssetManager.get_asset_info]) *)

Module AssetIndex.

(** A row of table [a] of the meta database: name, content hash, key. *)
Record Row := mkRow { n : string; h : string; e : option Z }.

(** ASCII case folding of the [LIKE] operator. *)
Definition fold_case (c : ascii) : nat :=
  let k := nat_of_ascii c in
  if (65 <=? k) && (k <=? 90) then k + 32 else k.

(** SQLite's [text LIKE pattern] without [ESCAPE]: [%] matches any run of
    characters, [_] any single character, any other character itself up to
    ASCII case. *)
Fixpoint like_chars (pattern text : list ascii) : bool :=
  match pattern with
  | [] => match text with [] => true | _ => false end
  | p :: pattern' =>
      if nat_of_ascii p =? 37 then
        (fix any_run (text : list ascii) : bool :=
           like_chars pattern' text
           || match text with
              | [] => false
              | _ :: text' => any_run text'
              end) text
      else
        match text with
        | [] => false
        | c :: text' =>
            ((nat_of_ascii p =? 95) || (fold_case p =? fold_case c))
            && like_chars pattern' text'
        end
  end.

Definition like (pattern text : string) : bool :=
  like_chars (list_ascii_of_string pattern) (list_ascii_of_string text).

(** The two queries of [get_asset_info] followed by [fetchone()]; the outer
    [None] is a query that raises. *)
Record Cursor := mkCursor {
  select_exact : string → option (option Row);
  select_like : string → option (option Row)
}.

(** The queries over a table in the store's row order. *)
Definition table_cursor (rows : list Row) : Cursor :=
  {| select_exact name := Some (find (λ r, String.eqb (n r) name) rows);
     select_like pattern := Some (find (λ r, like pattern (n r)) rows) |}.

(** [row[0], int(row[1]) if row[1] else 0] *)
Definition row_info (row : Row) : option string * option Z :=
  (Some (h row), Some (default 0%Z (e row))).

Definition get_asset_info (cursor : Cursor) (name_pattern : string)
    : option string * option Z :=
  match select_exact cursor name_pattern with
  | Some (Some row) => row_info row
  | _ =>
      match select_like cursor (name_pattern +:+ "%") with
      | Some (Some row) => row_info row
      | _ => (None, None)
      end
  end.

End AssetIndex.

(** ** ContentStore ([AssetManager.download_asset]) *)

Module ContentStore.

(** The local files: path to content. *)
Abbreviation FS := (gmap string (list Z)).

Inductive Exn := RequestException | OSError | ValueError.

Inductive Result := Returned (ok : bool) | Raised (exn : Exn).

(** What the origin does for one request.  [Body chunks complete]: the
    status is good and [iter_content] yields [chunks], then ends
    ([complete]) or raises a [RequestException]. *)
Inductive Response :=
| ConnectionFailed
| BadStatus
| Body (chunks : list (list Z)) (complete : bool).

(** The surroundings of one call. *)
Record World := mkWorld {
  AUTO_DOWNLOAD_ASSETS : bool;
  platform : string;
  asset_dir : string;
  respond : string → Response;
  makedirs_ok : bool;
  content_length_ok : bool;
  open_ok : bool;
  (** number of [f.write] calls that succeed before one raises [OSError];
      [None]: every write succeeds *)
  writes_ok : option nat
}.

(** [hash_str[:2]] *)
Definition prefix2 (s : string) : string :=
  match s with
  | String a (String b _) => String a (String b EmptyString)
  | _ => s
  end.

Definition get_asset_path (w : World) (hash_str : string) : string :=
  asset_dir w +:+ "/" +:+ prefix2 hash_str +:+ "/" +:+ hash_str.

Definition url_of (w : World) (hash_str category : string) : option string :=
  if String.eqb category "bundle" then
    Some ("https://prd-storage-game-umamusume.akamaized.net/dl/resources/"
          +:+ platform w +:+ "/assetbundles/" +:+ prefix2 hash_str +:+ "/"
          +:+ hash_str)
  else if String.eqb category "generic" then
    Some ("https://prd-storage-game-umamusume.akamaized.net/dl/resources/Generic/"
          +:+ prefix2 hash_str +:+ "/" +:+ hash_str)
  else None.

(** [for chunk in response.iter_content(...): f.write(chunk)] on the open
    file: the content written and whether a write raised. *)
Fixpoint write_chunks (chunks : list (list Z)) (budget : option nat)
    (content : list Z) : list Z * bool :=
  match chunks with
  | [] => (content, true)
  | chunk :: chunks' =>
      match budget with
      | Some 0 => (content, false)
      | Some (S k) => write_chunks chunks' (Some k) (content ++ chunk)
      | None => write_chunks chunks' None (content ++ chunk)
      end
  end.

(** The handler of [requests.exceptions.RequestException]. *)
Definition on_request_exception (asset_path : string) (fs : FS) : FS :=
  if bool_decide (is_Some (fs !! asset_path)) then delete asset_path fs
  else fs.

(** The result, the files afterwards and the URLs requested. *)
Definition download_asset (w : World) (hash_str category : string) (fs : FS)
    : Result * FS * list string :=
  if negb (AUTO_DOWNLOAD_ASSETS w) then (Returned false, fs, [])
  else
    let asset_path := get_asset_path w hash_str in
    match url_of w hash_str category with
    | None => (Returned false, fs, [])
    | Some url =>
        if negb (makedirs_ok w) then (Raised OSError, fs, [])
        else
          match respond w url with
          | ConnectionFailed | BadStatus =>
              (Returned false, on_request_exception asset_path fs, [url])
          | Body chunks complete =>
              if negb (content_length_ok w) then (Raised ValueError, fs, [url])
              else if negb (open_ok w) then (Raised OSError, fs, [url])
              else
                let '(content, written) :=
                  write_chunks chunks (writes_ok w) [] in
                let fs' := <[asset_path := content]> fs in
                if negb written then (Raised OSError, fs', [url])
                else if complete then (Returned true, fs', [url])
                else
                  (Returned false, on_request_exception asset_path fs', [url])
          end
    end.

End ContentStore.

(** ** Extraction of one asset ([extractor.py]) *)

Module StoryId.
Record t := mk {
  type : string;
  set : string;
  group : string;
  id : string;
  idx : string;
  group_name : option string
}.
End StoryId.

Module Extractor.
Import Scene.

(** A file under the workspace or the mod directory: a JSON document
    written by [json.dump], or bytes that [json.load] rejects. *)
Inductive File := Json (doc : Doc.t) | NotJson.

Abbreviation FS := (gmap string File).

Inductive Exn :=
| RuntimeError
| KeyError
| NameError
| JSONDecodeError
| IndexError
| OSError
| ValueError
| RequestException
| RecursionError.

(** Statements that read and write the files and may raise: the files are
    kept as they are at the point where an exception is raised. *)
Definition M (A : Type) : Type := FS → (Exn + A) * FS.

Definition ret {A} (a : A) : M A := λ fs, (inr a, fs).
Definition raise {A} (exn : Exn) : M A := λ fs, (inl exn, fs).
Definition bind {A B} (m : M A) (k : A → M B) : M B :=
  λ fs, match m fs with
        | (inr a, fs') => k a fs'
        | (inl exn, fs') => (inl exn, fs')
        end.
(** [try: body / except Exception: handler] *)
Definition try_except {A} (body : M A) (handler : Exn → M A) : M A :=
  λ fs, match body fs with
        | (inr a, fs') => (inr a, fs')
        | (inl exn, fs') => handler exn fs'
        end.
Definition exists_file (path : string) : M bool :=
  λ fs, (inr (bool_decide (is_Some (fs !! path))), fs).
Definition read_file (path : string) : M (option File) :=
  λ fs, (inr (fs !! path), fs).

Notation "x <- m ;; k" := (bind m (λ x, k))
  (at level 100, m at next level, right associativity).
Notation "m ;;; k" := (bind m (λ _, k))
  (at level 100, right associativity).

(** The [manager] argument: the methods the extraction calls.
    [get_text_data_category] is given for category 6 ([char_names]).
    [load_bundle] gives what [AssetManager.load_bundle] does for a name: it
    returns an environment or [None], or lets an exception through (its
    call of [ensure_asset_is_ready] is outside its [try], so an [OSError]
    or [ValueError] of [download_asset] escapes).  The bundle file it may
    download goes to the asset store, which is none of the files of [FS];
    see [AssetManager.load_bundle] for the store. *)
Record Manager := mkManager {
  platform_lower : string;
  get_group_name : string → string → option string;
  load_bundle : string → Exn + option Env;
  get_asset_info : string → option string * option Z;
  char_names : gmap Z string
}.

Section Extract.

(** [StoryId.parse_from_path] ([None]: it raises [IndexError]) and the
    workspace file of a story id,
    [workspace_dir / get_output_path() / (get_filename_prefix() + ".json")]. *)
Variable parse_from_path : string → string → option StoryId.t.
Variable workspace_file : string → StoryId.t → string.

(** [csv.reader] and [bytes.decode] of the lyrics walker. *)
Variable csv_reader : list string → option (list (list string)).
Variable utf8_decode : list Z → option string.

(** The number of nested calls of [find_text_recursively] that the
    interpreter's recursion limit leaves room for. *)
Variable recursion_limit : nat.

(** The similarity of the merge. *)
Variable similarity : string → string → Q.

(** The files that cannot be opened for writing. *)
Variable read_only : string → bool.

(** [getattr(asset_loader, PARSER_MAP[asset_type])(env, manager, ...)] *)
Definition run_parser (manager : Manager) (asset_type : string) (env : Env)
    : M (option Doc.t) :=
  if String.eqb asset_type "story" then
    ret (Walkers.parse_story_timeline env (char_names manager))
  else if String.eqb asset_type "race" then ret (Walkers.parse_race_story env)
  else if String.eqb asset_type "lyrics" then
    ret (Walkers.parse_lyrics csv_reader utf8_decode env)
  else if String.eqb asset_type "home" then
    ret (Walkers.parse_home_timeline env (char_names manager))
  else if String.eqb asset_type "preview" then ret (Walkers.parse_preview env)
  else if String.eqb asset_type "uianimation" then
    match Walkers.parse_uianimation recursion_limit env with
    | Some result => ret result
    | None => raise RecursionError
    end
  else if String.eqb asset_type "generic" then ret (Walkers.parse_generic env)
  else raise KeyError.

(** [merge_translations(new_data, existing_tl_path)] on the files. *)
Definition merge_translations (new_data : Doc.t)
    (existing_tl_path : option string) : M Doc.t :=
  match existing_tl_path with
  | None => ret new_data
  | Some path =>
      file <- read_file path ;;
      match file with
      | None => ret new_data
      | Some NotJson => raise JSONDecodeError
      | Some (Json old_data) =>
          ret (MergeEngine.merge_translations similarity new_data
                                              (Some old_data))
      end
  end.

Definition extract_asset_data (manager : Manager)
    (asset_type asset_name : string) (workspace_path : option string)
    : M Doc.t :=
  story_id <-
    match parse_from_path asset_type asset_name with
    | Some story_id => ret story_id
    | None => raise IndexError
    end ;;
  let group_name :=
    match get_group_name manager asset_type (StoryId.group story_id) with
    | Some name => if Py.truthy name then Some name
                   else StoryId.group_name story_id
    | None => StoryId.group_name story_id
    end in
  env <-
    match load_bundle manager asset_name with
    | inr (Some env) => ret env
    | inr None => raise RuntimeError
    | inl exn => raise exn
    end ;;
  parsed <- run_parser manager asset_type env ;;
  extracted_data <-
    match parsed with
    | Some extracted_data => ret extracted_data
    | None => raise RuntimeError
    end ;;
  let extracted_data :=
    Doc.mk (Some asset_name) (Some asset_type)
           (match group_name with
            | Some name => if Py.truthy name then Some name
                           else Doc.group_name extracted_data
            | None => Doc.group_name extracted_data
            end)
           (Doc.title extracted_data)
           (if String.eqb asset_type "uianimation" then
              match get_asset_info manager asset_name with
              | (Some hash_str, _) =>
                  if Py.truthy hash_str
                  then Some (platform_lower manager, hash_str)
                  else Doc.bundle_hashes extracted_data
              | _ => Doc.bundle_hashes extracted_data
              end
            else Doc.bundle_hashes extracted_data)
           (Doc.text_blocks extracted_data) in
  if negb (String.eqb asset_type "uianimation")
  then merge_translations extracted_data workspace_path
  else ret extracted_data.

(** [with open(path, 'w') as f: json.dump(data, f, ...)] *)
Definition write_json (path : string) (data : Doc.t) : M unit :=
  if read_only path then raise OSError
  else λ fs, (inr tt, <[path := Json data]> fs).

(** [convert_to_hachimi_format(workspace_data)]: the name [workspace_data]
    is bound neither in [process_asset] nor at the top of [extractor.py], so
    evaluating the argument raises [NameError]. *)
Definition convert_workspace_data : M unit := raise NameError.

(** The result is the outcome string, or the exception that leaves the
    function ([parse_from_path] is called outside the [try]). *)
Definition process_asset (manager : Manager) (asset_type asset_name : string)
    (workspace_dir mod_dir : string) (update overwrite : bool) : M string :=
  story_id <-
    match parse_from_path asset_type asset_name with
    | Some story_id => ret story_id
    | None => raise IndexError
    end ;;
  let workspace_full_path := workspace_file workspace_dir story_id in
  let mod_full_path := mod_dir +:+ "/assets/" +:+ asset_name +:+ ".json" in
  present <- exists_file workspace_full_path ;;
  if present && negb update && negb overwrite then ret "skipped"
  else
    try_except
      (final_data <-
         extract_asset_data manager asset_type asset_name
           (if update then Some workspace_full_path else None) ;;
       write_json workspace_full_path final_data ;;;
       convert_workspace_data ;;;
       write_json mod_full_path final_data ;;;
       ret "success")
      (λ _, ret "failed").

End Extract.
End Extractor.

(** ** BundleDecoder ([AssetManager.ensure_asset_is_ready], [load_bundle]) *)

Module AssetManager.
Import Scene AssetIndex ContentStore.

(** A call returns a value or lets an exception of [download_asset]
    through. *)
Inductive Outcome (A : Type) :=
| Done (a : A)
| Escaped (exn : Exn).
Arguments Done {A} a.
Arguments Escaped {A} exn.

(** The path, the files afterwards and the URLs requested. *)
Definition ensure_asset_is_ready (cursor : Cursor) (w : World)
    (asset_name category : string) (fs : FS)
    : Outcome (option string) * FS * list string :=
  match get_asset_info cursor asset_name with
  | (Some hash_str, _) =>
      if negb (Py.truthy hash_str) then (Done None, fs, [])
      else
        let local_path := get_asset_path w hash_str in
        if bool_decide (is_Some (fs !! local_path))
        then (Done (Some local_path), fs, [])
        else
          match download_asset w hash_str category fs with
          | (Returned true, fs', urls) => (Done (Some local_path), fs', urls)
          | (Returned false, fs', urls) => (Done None, fs', urls)
          | (Raised exn, fs', urls) => (Escaped exn, fs', urls)
          end
  | (None, _) => (Done None, fs, [])
  end.

(** The body of the [try] of [load_bundle] once the bytes are read; [None]
    when it raises. *)
Definition decode_bundle (unity_load : list Z → option Env)
    (encryption_key_int : option Z) (raw_data : list Z) : option Env :=
  processed_data ←
    match encryption_key_int with
    | Some key =>
        if negb (key =? 0)%Z && (256 <? length raw_data)
        then
          final_key ←
            KeyDerivation.create_asset_final_key KeyDerivation.ASSET_BASE_KEY
                                                 key;
          KeyDerivation.decrypt_asset_data raw_data final_key
        else Some raw_data
    | None => Some raw_data
    end;
  unity_load processed_data.

Section LoadBundle.

(** [UnityPy.load]; [None] when it raises. *)
Variable unity_load : list Z → option Env.

Definition load_bundle (cursor : Cursor) (w : World) (asset_name : string)
    (fs : FS) : Outcome (option Env) * FS * list string :=
  match ensure_asset_is_ready cursor w asset_name "bundle" fs with
  | (Escaped exn, fs', urls) => (Escaped exn, fs', urls)
  | (Done None, fs', urls) => (Done None, fs', urls)
  | (Done (Some bundle_path), fs', urls) =>
      let encryption_key_int := (get_asset_info cursor asset_name).2 in
      (Done (raw_data ← fs' !! bundle_path;
             decode_bundle unity_load encryption_key_int raw_data),
       fs', urls)
  end.

End LoadBundle.
End AssetManager.

(** ** The manager of an extraction, over an index and a store *)

Module StoreManager.
Import Scene.


Section Over.

Variable unity_load : list Z → option Env.


End Over.
End StoreManager.

(** ** Story ids and file names ([common.py]) *)

Module Common.

Fixpoint replace_char (old new : ascii) (s : string) : string :=
  match s with
  | EmptyString => EmptyString
  | String c s' =>
      String (if Ascii.eqb c old then new else c) (replace_char old new s')
  end.

Fixpoint remove_char (old : ascii) (s : string) : string :=
  match s with
  | EmptyString => EmptyString
  | String c s' =>
      if Ascii.eqb c old then remove_char old s'
      else String c (remove_char old s')
  end.

(** The characters removed by the loop over [invalid_chars]: less-than,
    greater-than, colon, double quote, bar, question mark, star, newline,
    carriage return and tab. *)
Definition invalid_chars : list ascii :=
  ascii_of_nat <$> [60; 62; 58; 34; 124; 63; 42; 10; 13; 9].

Definition sanitize_filename (name : string) : string :=
  if negb (Py.truthy name) then EmptyString
  else
    let name := replace_char (ascii_of_nat 92) (ascii_of_nat 95) name in
    let name := replace_char (ascii_of_nat 47) (ascii_of_nat 95) name in
    let name := foldl (λ name char, remove_char char name) name invalid_chars
    in Py.strip name.

(** [s.split(sep)] for a one-character separator. *)
Fixpoint split_from (sep : ascii) (part s : string) : list string :=
  match s with
  | EmptyString => [part]
  | String c s' =>
      if Ascii.eqb c sep then part :: split_from sep EmptyString s'
      else split_from sep (part +:+ String c EmptyString) s'
  end.

Definition split (sep : ascii) (s : string) : list string :=
  split_from sep EmptyString s.

(** [l[-1]] of a list that [split] returned. *)
Definition last_part (l : list string) : string :=
  default EmptyString (last l).

(** [s[:n]] *)
Fixpoint take_chars (n : nat) (s : string) : string :=
  match n, s with
  | S n', String c s' => String c (take_chars n' s')
  | _, _ => EmptyString
  end.

(** [s.replace(sub, "")] for a non-empty [sub]: the occurrences are removed
    from left to right; [skip] counts the characters of an occurrence still
    to drop. *)
Fixpoint remove_sub_from (skip : nat) (sub s : string) : string :=
  match s with
  | EmptyString => EmptyString
  | String c s' =>
      match skip with
      | S k => remove_sub_from k sub s'
      | 0 =>
          if String.prefix sub s
          then remove_sub_from (String.length sub - 1) sub s'
          else String c (remove_sub_from 0 sub s')
      end
  end.

Definition remove_sub (sub s : string) : string := remove_sub_from 0 sub s.

Section ParseFromPath.

(** [Path(path_str).name], used for the asset types without a rule. *)
Variable path_name : string → string.

(** [StoryId.parse_from_path]; [None] is the [IndexError] of an index past
    the parts. *)
Definition parse_from_path (asset_type path_str : string)
    (group_name : option string) : option StoryId.t :=
  let parts := split (ascii_of_nat 47) path_str in
  let filename := last_part parts in
  let underscore := ascii_of_nat 95 in
  if String.eqb asset_type "story" then
    group ← parts !! 2;
    id ← parts !! 3;
    Some (StoryId.mk asset_type "00" group id
                     (last_part (split underscore filename)) group_name)
  else if String.eqb asset_type "home" then
    set ← parts !! 2;
    group ← parts !! 3;
    Some (StoryId.mk asset_type set group
                     (last_part (split underscore filename)) "00" group_name)
  else if String.eqb asset_type "race" then
    id ← split underscore filename !! 1;
    Some (StoryId.mk asset_type "00" (take_chars 4 id) id "00" group_name)
  else if String.eqb asset_type "lyrics" then
    let id :=
      remove_sub "_lyrics" (remove_char (ascii_of_nat 109) filename) in
    Some (StoryId.mk asset_type "00" id id "00" group_name)
  else if String.eqb asset_type "preview" then
    let id := last_part (split underscore filename) in
    Some (StoryId.mk asset_type "00" id id "00" group_name)
  else if String.eqb asset_type "uianimation" then
    Some (StoryId.mk asset_type "00"
                     (match parts with
                      | _ :: second :: _ => second
                      | _ => EmptyString
                      end)
                     path_str "00" group_name)
  else
    Some (StoryId.mk asset_type "00" "0000" (path_name path_str) "00"
                     group_name).

End ParseFromPath.

(** [s.endswith(suffix)] *)
Definition endswith (s suffix : string) : bool :=
  let n := String.length s in
  let k := String.length suffix in
  (k <=? n) && String.eqb (String.substring (n - k) k s) suffix.

(** A filter argument that is given and not empty. *)
Definition given (filter : option string) : option string :=
  match filter with
  | Some f => if Py.truthy f then Some f else None
  | None => None
  end.

Definition matches_filter (self : StoryId.t)
    (filter_group filter_id : option string) : bool :=
  match given filter_group with
  | Some g => String.eqb (StoryId.group self) g
  | None => true
  end
  &&
  match given filter_id with
  | Some f =>
      if negb (String.eqb (StoryId.id self) f) then
        if String.eqb (StoryId.type self) "story"
           && negb (String.eqb (StoryId.idx self) f)
        then false
        else if String.eqb (StoryId.type self) "home"
                && negb (endswith (StoryId.id self) f)
        then false
        else if negb (String.eqb (StoryId.type self) "story")
                && negb (String.eqb (StoryId.type self) "home")
                && negb (String.eqb (StoryId.id self) f)
        then false
        else true
      else true
  | None => true
  end.

End Common.

(** ** The lyrics output of [hachimi_converter.py] *)

Module Hachimi.

(** [en or jp] on the trimmed texts of a block. *)
Definition final_text (block : Block.t) : string :=
  let en_text := Py.strip (Py.get (Block.enText block) EmptyString) in
  let jp_text := Py.strip (Py.get (Block.jpText block) EmptyString) in
  if Py.truthy en_text then en_text else jp_text.

(** One iteration of the loop of [_convert_lyrics_format]. *)
Definition lyrics_step (hachimi_data : list (string * string))
    (block : Block.t) : list (string * string) :=
  match Block.time block with
  | Some timestamp =>
      if Py.truthy timestamp && Py.truthy (final_text block)
      then Py.dict_set timestamp (final_text block) hachimi_data
      else hachimi_data
  | None => hachimi_data
  end.

Definition _convert_lyrics_format (data : Doc.t) : list (string * string) :=
  foldl lyrics_step [] (Py.get (Doc.text_blocks data) []).

End Hachimi.

(** ** The batch loop of [extractor.run] *)

Module Batch.
Import Extractor.

(** [results = {"success": 0, "failed": 0, "skipped": 0}] *)
Record Results := mkResults { success : nat; failed : nat; skipped : nat }.

(** [results[status] += 1] *)
Definition count (status : string) (results : Results) : M Results :=
  if String.eqb status "success" then
    ret (mkResults (S (success results)) (failed results) (skipped results))
  else if String.eqb status "failed" then
    ret (mkResults (success results) (S (failed results)) (skipped results))
  else if String.eqb status "skipped" then
    ret (mkResults (success results) (failed results) (S (skipped results)))
  else raise KeyError.

Section Run.

Variable parse_from_path : string → string → option StoryId.t.
Variable workspace_file : string → StoryId.t → string.
Variable csv_reader : list string → option (list (list string)).
Variable utf8_decode : list Z → option string.
Variable recursion_limit : nat.
Variable similarity : string → string → Q.
Variable read_only : string → bool.

(** [for i, asset_name in enumerate(assets_to_process)] *)
Fixpoint run_loop (manager : Manager) (asset_type : string)
    (assets_to_process : list string) (workspace_dir mod_dir : string)
    (update overwrite : bool) (results : Results) : M Results :=
  match assets_to_process with
  | [] => ret results
  | asset_name :: rest =>
      status <-
        process_asset parse_from_path workspace_file csv_reader utf8_decode
            recursion_limit
                      similarity read_only manager asset_type asset_name
                      workspace_dir mod_dir update overwrite ;;
      results' <- count status results ;;
      run_loop manager asset_type rest workspace_dir mod_dir update overwrite
               results'
  end.

(** The loop inside the [try] of [run]: the summary, or [None] when the
    handler of the critical error is reached. *)
Definition run_batch (manager : Manager) (asset_type : string)
    (assets_to_process : list string) (workspace_dir mod_dir : string)
    (update overwrite : bool) (fs : FS) : option Results * FS :=
  match run_loop manager asset_type assets_to_process workspace_dir mod_dir
                 update overwrite (mkResults 0 0 0) fs with
  | (inr results, fs') => (Some results, fs')
  | (inl _, fs') => (None, fs')
  end.

End Run.
End Batch.

(** * Vocabulary of the properties, and examples *)

(** ** Cue ids of the timeline walker *)

Section CueVocabulary.
Import Scene Walkers.

Definition clip_flag (d : TextClip.t) : Z :=
  Py.get (TextClip.DifferenceFlag d) 0%Z.

(** The cue id is present and is not [-1]. *)
Definition cue_present (d : TextClip.t) : bool :=
  match TextClip.CueId d with
  | Some c => negb (c =? -1)%Z
  | None => false
  end.

(** Number of clips with difference flag 4 and a cue id, as an offset. *)
Definition global_offset_after (earlier : list TextClip.t) : Z :=
  Z.of_nat
    (length (filter (λ d, clip_flag d = 4%Z ∧ cue_present d = true) earlier)).

(** The effective cue id of a clip, as the specification words it: the
    original id, plus one when the clip's own flag is 2, plus the global
    offset accumulated by the clips before it. *)
Definition effective_cue_id (earlier : list TextClip.t) (d : TextClip.t)
    : option Z :=
  match TextClip.CueId d with
  | Some c =>
      if (c =? -1)%Z then Some c
      else Some (c + (if (clip_flag d =? 2)%Z then 1 else 0)
                   + global_offset_after earlier)%Z
  | None => None
  end.

(** The text clips of the blocks that the walker does not skip, in order. *)
Definition story_clips (env : Env) (char_names : gmap Z string)
    (block_list : list (option TimelineBlock.t)) : list TextClip.t :=
  omap (λ block,
          (λ found : Z * TextClip.t * option string * string, found.1.1.2)
            <$> story_clip (Py.dict_of path_id id env) char_names block)
       (drop 1 block_list).

(** What holds of the loop state after a prefix of the blocks whose
    unskipped clips are [clips]. *)
Definition story_inv (clips : list TextClip.t) (st : StoryState) : Prop :=
  global_cue_offset st = global_offset_after clips
  ∧ length (final_cue_ids st) = length clips
  ∧ length (text_blocks st) = length clips
  ∧ ∀ k d, clips !! k = Some d →
      final_cue_ids st !! k = Some (effective_cue_id (take k clips) d)
      ∧ ∃ b, text_blocks st !! k = Some b
             ∧ Block.differenceFlag b = Some (clip_flag d).

End CueVocabulary.

(** The example of the specification: block B with cue id 10 and flag 2, a
    later block with cue id 20 and flag 4, and a block after it. *)
Module CueExample.
Import Scene Walkers.

Definition clip (pid cue flag : Z) : Obj :=
  mkObj "MonoBehaviour" pid
    (Some (TextClipTree
             (TextClip.mk (Some "1001"%string) (Some cue) (Some flag)
                          (Some "text"%string) None None None None))).

Definition block_to (pid : Z) : option TimelineBlock.t :=
  Some (TimelineBlock.mk (Some (TextTrack.mk (Some [ClipInfo.mk (Some pid)])))).

Definition env : Env :=
  [ mkObj "MonoBehaviour" 1
      (Some (TimelineTree
               (Timeline.mk None
                  [block_to 9; block_to 10; block_to 11; block_to 12])));
    clip 10 10 2; clip 11 20 4; clip 12 30 0 ].

Definition recorded_cue_ids : option (list (option (option Z))) :=
  (λ doc, Block.voiceIdx <$> Py.get (Doc.text_blocks doc) [])
    <$> parse_story_timeline env ∅.

End CueExample.

(** ** Block indexes *)

Section IndexVocabulary.
Import Scene Walkers.

(** The blocks carry, in order, the positions of the entries of [entries]
    that the walker does not skip: strictly increasing positions, with a gap
    exactly where an entry is skipped. *)
Definition indexed_from {A} (entries : list A) (skipped : A → Prop)
    (blocks : list Block.t) : Prop :=
  ∃ kept : list nat,
    Block.block_index <$> blocks
      = (λ i : nat, Some (Some (Z.of_nat i))) <$> kept
    ∧ StronglySorted lt kept
    ∧ ∀ i, i ∈ kept ↔ ∃ entry, entries !! i = Some entry ∧ ¬ skipped entry.

(** The positions, counted from [start], of the entries for which [emit]
    gives a block. *)
Fixpoint kept_from {A B} (emit : A → option B) (start : nat) (l : list A)
    : list nat :=
  match l with
  | [] => []
  | x :: l' =>
      match emit x with
      | Some _ => start :: kept_from emit (S start) l'
      | None => kept_from emit (S start) l'
      end
  end.

(** The block the story walker appends for one entry of the loop. *)
Definition story_block_of (objects_by_path_id : list (Z * Obj))
    (char_names : gmap Z string) (block_idx : nat)
    (block : option TimelineBlock.t) : option Block.t :=
  (λ found : Z * TextClip.t * option string * string,
     story_block_data block_idx found.1.1.1 found.1.2 found.2 found.1.1.2)
    <$> story_clip objects_by_path_id char_names block.

(** The entries of [textData] that are dictionaries with a [text]. *)
Definition race_items (textData : list (option RaceItem.t))
    : list RaceItem.t :=
  omap (λ entry : option RaceItem.t,
          item ← entry; _ ← RaceItem.text item; Some item) textData.

End IndexVocabulary.

(** A lyrics bundle: a two-line header and two timestamped rows. *)
Module LyricsExample.
Import Scene Walkers.
Local Open Scope string_scope.

Fixpoint split_commas (field line : string) : list string :=
  match line with
  | EmptyString => [field]
  | String c line' =>
      if (nat_of_ascii c =? 44)%nat then field :: split_commas EmptyString line'
      else split_commas (field +:+ String c EmptyString) line'
  end.

Fixpoint skip_spaces (field : string) : string :=
  match field with
  | String c field' =>
      if (nat_of_ascii c =? 32)%nat then skip_spaces field' else field
  | EmptyString => EmptyString
  end.

(** What [csv.reader(lines, skipinitialspace=True)] yields for lines
    without quote characters: the comma-separated fields of each line, an
    empty line giving an empty row. *)
Definition csv_unquoted (lines : list string)
    : option (list (list string)) :=
  Some ((λ line, if Py.truthy line
                 then skip_spaces <$> split_commas EmptyString line
                 else []) <$> lines).

Definition no_decode (raw : list Z) : option string := None.

Definition script : string :=
  "time,lyrics" +:+ String (ascii_of_nat 10) "" +:+
  "int,text" +:+ String (ascii_of_nat 10) "" +:+
  "1000,la la la" +:+ String (ascii_of_nat 10) "" +:+
  "2500, second line" +:+ String (ascii_of_nat 10) "".

Definition env : Env :=
  [ mkObj "TextAsset" 7 (Some (TextAssetTree (Some (ScriptStr script)))) ].

Definition doc : Doc.t :=
  extracted None [lyric_block "1000" "la la la";
                  lyric_block "2500" "second line"].

End LyricsExample.

(** ** Traversal of the motion graph *)

Section TraversalVocabulary.
Import Walkers.

Variable motion_map : list (option Z * MotionParam.t).





Definition untranslated (b : Block.t) : Prop :=
  Block.enText b = Some EmptyString.

End TraversalVocabulary.

(** A motion whose child list names the motion itself, and a cycle of two
    motions without a declared root. *)
Module MotionExample.
Import Walkers.

Definition text (s : string) : option TextParam.t :=
  Some (TextParam.mk (Some s) (Some "label"%string)).

Definition motion (i : Z) (texts : list string) (children : list Z)
    : MotionParam.t :=
  MotionParam.mk (Some i) (Some "motion"%string) (Some (text <$> texts))
    (Some ((λ c, ItemParam.mk (Some c)) <$> children)) None.

Definition self_loop : list MotionParam.t := [motion 5 ["Hello"%string] [5%Z]].

Definition two_cycle : list MotionParam.t :=
  [motion 1 ["one"%string] [2%Z]; motion 2 ["two"%string] [1%Z]].

Definition visits (root : option Z) (l : list MotionParam.t)
    : option (list Z) :=
  visited <$> uianimation_walk (enough_fuel l) (MainMono.mk (Some l) root) l.

End MotionExample.

(** A UI-animation asset with a workspace file from an earlier run. *)
Module ExtractExample.
Import Scene Extractor.
Local Open Scope string_scope.

Definition asset_name : string := "uianimation/flash/pf_fl_title00".

Definition story_id : StoryId.t :=
  StoryId.mk "uianimation" "00" "flash" asset_name "00" None.

Definition parse_from_path (asset_type path_str : string)
    : option StoryId.t := Some story_id.

Definition workspace_file (workspace_dir : string) (sid : StoryId.t)
    : string :=
  workspace_dir +:+ "/" +:+ StoryId.id sid +:+ ".json".

Definition env : Env :=
  [ mkObj "MonoBehaviour" 1
      (Some (UIAnimationTree
               (MainMono.mk (Some MotionExample.self_loop) (Some 5%Z)))) ].

Definition manager : Manager :=
  mkManager "windows" (λ _ _, None) (λ _, inr (Some env))
            (λ _, (Some "ab12cd", Some 999%Z)) ∅.

Definition unit_hello (translation : string) : Block.t :=
  Block.set_enText translation
    {| Block.block_index := None; Block.path_id := None;
       Block.jpName := None; Block.enName := None;
       Block.jpText := Some "Hello"; Block.enText := None;
       Block.voiceIdx := None; Block.cueSheet := None;
       Block.choices := None; Block.coloredText := None;
       Block.nextBlock := None; Block.differenceFlag := None;
       Block.time := None; Block.motion_index := Some 0%Z;
       Block.text_index := Some 0%Z; Block.motion_name := Some "motion";
       Block.object_name := Some "label" |}.

Definition extracted_doc : Doc.t :=
  Doc.mk (Some asset_name) (Some "uianimation") None None
         (Some ("windows", "ab12cd")) (Some [unit_hello ""]).

Definition translated_doc : Doc.t :=
  Doc.mk (Some asset_name) (Some "uianimation") None None
         (Some ("windows", "ab12cd")) (Some [unit_hello "Bonjour"]).

Definition workspace_path : string := workspace_file "translations" story_id.

Definition fs : FS := {[ workspace_path := Json translated_doc ]}.

Definition no_csv (lines : list string) : option (list (list string)) := None.
Definition no_decode (raw : list Z) : option string := None.

(** The default recursion limit of the interpreter, as an upper bound of
    the nested calls left. *)
Definition recursion_limit : nat := 1000.
Definition nothing_read_only (path : string) : bool := false.

End ExtractExample.

(** ** Merge *)

Section MergeVocabulary.
Import MergeEngine.

Variable similarity : string → string → Q.

Definition source_text (b : Block.t) : string :=
  Py.get (Block.jpText b) EmptyString.

Definition trimmed (b : Block.t) : string := Py.strip (source_text b).

Definition translated (b : Block.t) : string :=
  Py.get (Block.enText b) EmptyString.

(** The old blocks with a non-empty source text whose trimmed source text
    is [key]. *)
Definition exact_matches (old_blocks : list Block.t) (key : string)
    : list Block.t :=
  filter (λ b, has_text b ∧ trimmed b = key) old_blocks.

(** [c] is an old block of maximal similarity to [jp_text], or nothing when
    there are no old blocks. *)
Definition best_by_similarity (old_blocks : list Block.t) (jp_text : string)
    (c : option Block.t) : Prop :=
  match c with
  | Some best =>
      best ∈ old_blocks
      ∧ ∀ b, b ∈ old_blocks →
          (similarity jp_text (source_text b)
           <= similarity jp_text (source_text best))%Q
  | None => old_blocks = []
  end.

(** The candidate for a new block: the exact match of the index when one
    exists (the last old block with the same trimmed source text), else a
    best match by similarity. *)
Definition candidate_for (old_blocks : list Block.t) (jp_text : string)
    (c : option Block.t) : Prop :=
  match last (exact_matches old_blocks (Py.strip jp_text)) with
  | Some exact => c = Some exact
  | None => best_by_similarity old_blocks jp_text c
  end.

(** The choices [rcs] are [ncs] with the translated text of [ocs] copied
    position by position, as far as [ocs] reaches: the choice at a position
    that [ocs] has carries the translated text of the old choice there (the
    empty text when the old choice has none), a choice further on keeps its
    own, and nothing else of a choice changes. *)
Definition choices_copied (ocs ncs rcs : list Choice.t) : Prop :=
  length rcs = length ncs
  ∧ ∀ i nc, ncs !! i = Some nc →
      ∃ rc,
        rcs !! i = Some rc
        ∧ Choice.jpText rc = Choice.jpText nc
        ∧ Choice.nextBlock rc = Choice.nextBlock nc
        ∧ Choice.differenceFlag rc = Choice.differenceFlag nc
        ∧ Choice.enText rc
          = match ocs !! i with
            | Some oc => Some (default EmptyString (Choice.enText oc))
            | None => Choice.enText nc
            end.

(** [r] is [nb] with the translation of [bm] copied into it. *)
Definition copied_from (bm nb r : Block.t) : Prop :=
  Block.enText r = Some (translated bm)
  ∧ Block.enName r
    = match Block.enName bm with
      | Some en_name => Some en_name
      | None => Block.enName nb
      end
  ∧ match Block.choices nb, Block.choices bm with
    | Some ncs, Some ocs =>
        ∃ rcs, Block.choices r = Some rcs ∧ choices_copied ocs ncs rcs
    | _, _ => Block.choices r = Block.choices nb
    end
  ∧ Block.jpText r = Block.jpText nb
  ∧ Block.jpName r = Block.jpName nb
  ∧ Block.block_index r = Block.block_index nb
  ∧ Block.path_id r = Block.path_id nb
  ∧ Block.voiceIdx r = Block.voiceIdx nb
  ∧ Block.cueSheet r = Block.cueSheet nb
  ∧ Block.coloredText r = Block.coloredText nb
  ∧ Block.nextBlock r = Block.nextBlock nb
  ∧ Block.differenceFlag r = Block.differenceFlag nb
  ∧ Block.time r = Block.time nb
  ∧ Block.motion_index r = Block.motion_index nb
  ∧ Block.text_index r = Block.text_index nb
  ∧ Block.motion_name r = Block.motion_name nb
  ∧ Block.object_name r = Block.object_name nb.

End MergeVocabulary.

(** An old document with one translated line, and a new extraction whose
    line gained a character. *)
Module MergeExample.
Local Open Scope string_scope.

Definition line (jp en : string) : Block.t :=
  {| Block.block_index := None; Block.path_id := None;
     Block.jpName := None; Block.enName := None;
     Block.jpText := Some jp; Block.enText := Some en;
     Block.voiceIdx := None; Block.cueSheet := None;
     Block.choices := None; Block.coloredText := None;
     Block.nextBlock := None; Block.differenceFlag := None;
     Block.time := None; Block.motion_index := None;
     Block.text_index := None; Block.motion_name := None;
     Block.object_name := None |}.

Definition doc_of (blocks : list Block.t) : Doc.t :=
  Doc.mk None None None None None (Some blocks).

Definition old_doc : Doc.t := doc_of [line "konnichiwa" "Hello"].
Definition new_doc : Doc.t := doc_of [line "konnichiwa!" ""].

(** Two lines with the same source text and different translations. *)
Definition repeated : Doc.t := doc_of [line "hai" "Yes"; line "hai" "Right"].

(** Lines with different source texts. *)
Definition distinct : Doc.t := doc_of [line "hai" "Yes"; line "iie" "No"].

Definition translations (doc : Doc.t) : list string :=
  translated <$> Py.get (Doc.text_blocks doc) [].

Definition choice (jp en : string) : Choice.t :=
  {| Choice.jpText := Some jp; Choice.enText := Some en;
     Choice.nextBlock := Some 0%Z; Choice.differenceFlag := Some 0%Z |}.

(** A line with a speaker name and choices. *)
Definition question (jp en en_name : string) (choices : list Choice.t)
    : Block.t :=
  {| Block.block_index := None; Block.path_id := None;
     Block.jpName := Some "Teio"; Block.enName := Some en_name;
     Block.jpText := Some jp; Block.enText := Some en;
     Block.voiceIdx := None; Block.cueSheet := None;
     Block.choices := Some choices; Block.coloredText := None;
     Block.nextBlock := None; Block.differenceFlag := None;
     Block.time := None; Block.motion_index := None;
     Block.text_index := None; Block.motion_name := None;
     Block.object_name := None |}.

(** An old question with one translated choice, and a new extraction of
    it that gained a character and a second choice. *)
Definition old_question : Block.t :=
  question "ikimasu ka" "Shall we go?" "Teio" [choice "hai" "Yes"].
Definition new_question : Block.t :=
  question "ikimasu ka?" "" "" [choice "hai" ""; choice "iie" ""].

Definition old_question_doc : Doc.t := doc_of [old_question].
Definition new_question_doc : Doc.t := doc_of [new_question].

End MergeExample.

(** A table whose only row is named [aXc], asked for [a_c]. *)
Module IndexExample.
Import AssetIndex.
Local Open Scope string_scope.

Definition rows : list Row := [mkRow "aXc" "ab12cd" (Some 999%Z)].

Definition both : list Row :=
  [mkRow "story_01x" "ffff" (Some 1%Z); mkRow "story_01" "ab12" None].

End IndexExample.

(** A download during which the second write to the file fails (a full
    disk). *)
Module DownloadExample.
Import ContentStore.
Local Open Scope string_scope.

Definition world : World :=
  {| AUTO_DOWNLOAD_ASSETS := true;
     platform := "Windows";
     asset_dir := "dat";
     respond := λ _, Body [[1; 2; 3]%Z; [4; 5; 6]%Z] true;
     makedirs_ok := true;
     content_length_ok := true;
     open_ok := true;
     writes_ok := Some 1 |}.

Definition hash_str : string := "ab12cd".

Definition url : string :=
  "https://prd-storage-game-umamusume.akamaized.net/dl/resources/Windows/assetbundles/ab/ab12cd".

End DownloadExample.

(** ** Examples for the content store and the bundle decoder *)

(** A download that goes through, and an index with one encrypted bundle
    already in the local store. *)
Module StoreExample.
Import ContentStore.
Local Open Scope string_scope.

Definition world : World :=
  {| AUTO_DOWNLOAD_ASSETS := true;
     platform := "Windows";
     asset_dir := "dat";
     respond := λ _, Body [[1; 2; 3]%Z; [4; 5; 6]%Z] true;
     makedirs_ok := true;
     content_length_ok := true;
     open_ok := true;
     writes_ok := None |}.

Definition offline : World :=
  {| AUTO_DOWNLOAD_ASSETS := false;
     platform := "Windows";
     asset_dir := "dat";
     respond := λ _, ConnectionFailed;
     makedirs_ok := true;
     content_length_ok := true;
     open_ok := true;
     writes_ok := None |}.

Definition cursor : AssetIndex.Cursor :=
  AssetIndex.table_cursor
    [AssetIndex.mkRow "story/data/04/1001/storytimeline_041001001" "ab12cd"
                      (Some 999%Z)].

Definition asset_name : string := "story/data/04/1001/storytimeline_041001001".

Definition payload : list Z := (λ i, Z.of_nat (i mod 251)) <$> seq 0 300.

Definition final_key : list Z :=
  default [] (KeyDerivation.create_asset_final_key
                KeyDerivation.ASSET_BASE_KEY 999).

Definition stored : list Z :=
  default [] (KeyDerivation.decrypt_asset_data payload final_key).

Definition fs : FS := {[ "dat/ab/ab12cd" := stored ]}.

(** A stand-in for [UnityPy.load]: one object per bundle, whose path id is
    the length of the bytes. *)
Definition unity_load (data : list Z) : option Scene.Env :=
  Some [Scene.mkObj "MonoBehaviour" (Z.of_nat (length data)) None].

End StoreExample.

(** ** Vocabulary for the walkers *)

Section WalkerVocabulary.
Import Scene Walkers.

(** A block as a walker leaves it: no translated text, speaker name or
    choice text yet. *)
Definition fresh_block (b : Block.t) : Prop :=
  Block.enText b = Some EmptyString
  ∧ (Block.enName b = None ∨ Block.enName b = Some EmptyString)
  ∧ (∀ cs, Block.choices b = Some cs →
       Forall (λ c, Choice.enText c = Some EmptyString) cs)
  ∧ (∀ cs, Block.coloredText b = Some cs →
       Forall (λ c, ColoredText.enText c = Some EmptyString) cs).

Variable motion_map : list (option Z * MotionParam.t).
Variable motion_index_map : list (option Z * nat).

(** The text units of the motion with id [i], none when [i] is no key of
    [motion_map]. *)
Definition units_of (i : Z) : list Block.t :=
  match Py.dict_get (Some i) motion_map with
  | Some motion_param =>
      text_units (match Py.dict_get (Some i) motion_index_map with
                  | Some idx => Z.of_nat idx
                  | None => (-1)%Z
                  end) motion_param
  | None => []
  end.

(** The state of [find_text_recursively] once it is past its guard for
    [i]: the id is recorded and the texts of the motion are appended. *)
Definition entered (i : Z) (st : UIState) : UIState :=
  mkUI (ui_text_blocks st ++ units_of i) ({[i]} ∪ processed_motion_ids st)
       (visited st ++ [i]).

(** [c] is named as a child by the motion with id [i]. *)
Definition child_of (i c : Z) : Prop :=
  ∃ motion_param,
    Py.dict_get (Some i) motion_map = Some motion_param
    ∧ Some c ∈ child_motion_ids motion_param
    ∧ c ≠ 0%Z.


(** Between two visited sets: the newly visited ids have all their
    children visited. *)
Definition closed_from (P P' : gset Z) : Prop :=
  ∀ j c, j ∈ P' → j ∉ P → child_of j c → c ∈ P'.

(** What a completed exploration from the ids [from] guarantees. *)
Definition explored (from : list (option Z)) (st st' : UIState) : Prop :=
  processed_motion_ids st ⊆ processed_motion_ids st'
  ∧ closed_from (processed_motion_ids st) (processed_motion_ids st')
  ∧ (∀ c, Some c ∈ from → c ≠ 0%Z → c ∈ processed_motion_ids st')
  ∧ ∀ j, j ∈ processed_motion_ids st' →
      j ∈ processed_motion_ids st
      ∨ ∃ c, Some c ∈ from ∧ c ≠ 0%Z ∧ rtc child_of c j.

(** A row of the lyrics table with a time and nothing after it. *)
Definition lone_time (row : list string) : Prop :=
  ∃ time, row = [time] ∧ Py.truthy time = true.

(** The block of a row with a non-empty time and a text. *)
Definition lyric_of_row (row : list string) : option Block.t :=
  match row with
  | time :: text :: _ =>
      if Py.truthy time then Some (lyric_block time text) else None
  | _ => None
  end.

End WalkerVocabulary.

(** Three motions of which the declared root reaches two, the second
    leading back to the root. *)
Module GraphExample.
Import Walkers.

Definition motions : list MotionParam.t :=
  [MotionExample.motion 1 ["one"%string] [2%Z];
   MotionExample.motion 2 ["two"%string; "deux"%string] [1%Z];
   MotionExample.motion 3 ["three"%string] []].

Definition main_mono : MainMono.t := MainMono.mk (Some motions) (Some 1%Z).

Definition st : UIState :=
  default (mkUI [] ∅ [])
          (uianimation_walk (enough_fuel motions) main_mono motions).

End GraphExample.

(** A lyrics script whose second row has a time and no text. *)
Module BrokenLyrics.
Import Scene.
Local Open Scope string_scope.

Definition script : string :=
  "time,lyrics" +:+ String (ascii_of_nat 10) "" +:+
  "int,text" +:+ String (ascii_of_nat 10) "" +:+
  "1000,la la la" +:+ String (ascii_of_nat 10) "" +:+
  "2500" +:+ String (ascii_of_nat 10) "".

Definition obj : Obj :=
  mkObj "TextAsset" 7 (Some (TextAssetTree (Some (ScriptStr script)))).

Definition rows : list (list string) := [["1000"; "la la la"]; ["2500"]].

End BrokenLyrics.

(** What a merge may leave different between a block and its result: the
    translated text, the translated speaker name and the translated texts of
    the choices. *)
Section FrameVocabulary.

Definition choice_source_kept (nc rc : Choice.t) : Prop :=
  Choice.jpText rc = Choice.jpText nc
  ∧ Choice.nextBlock rc = Choice.nextBlock nc
  ∧ Choice.differenceFlag rc = Choice.differenceFlag nc.

Definition source_kept (nb r : Block.t) : Prop :=
  Block.block_index r = Block.block_index nb
  ∧ Block.path_id r = Block.path_id nb
  ∧ Block.jpName r = Block.jpName nb
  ∧ Block.jpText r = Block.jpText nb
  ∧ Block.voiceIdx r = Block.voiceIdx nb
  ∧ Block.cueSheet r = Block.cueSheet nb
  ∧ Block.coloredText r = Block.coloredText nb
  ∧ Block.nextBlock r = Block.nextBlock nb
  ∧ Block.differenceFlag r = Block.differenceFlag nb
  ∧ Block.time r = Block.time nb
  ∧ Block.motion_index r = Block.motion_index nb
  ∧ Block.text_index r = Block.text_index nb
  ∧ Block.motion_name r = Block.motion_name nb
  ∧ Block.object_name r = Block.object_name nb
  ∧ match Block.choices nb with
    | Some ncs =>
        ∃ rcs, Block.choices r = Some rcs
               ∧ Forall2 choice_source_kept ncs rcs
    | None => Block.choices r = None
    end.

(** The translated text of [r] is the one [nb] had or the one of an old
    block. *)
Definition translation_from (old_blocks : list Block.t) (nb r : Block.t)
    : Prop :=
  Block.enText r = Block.enText nb
  ∨ ∃ bm, bm ∈ old_blocks
          ∧ Block.enText r
            = Some (Py.get (Block.enText bm) EmptyString).

(** The fields of a document other than its blocks. *)
Definition same_header (d d' : Doc.t) : Prop :=
  Doc.asset_name d' = Doc.asset_name d
  ∧ Doc.type d' = Doc.type d
  ∧ Doc.group_name d' = Doc.group_name d
  ∧ Doc.title d' = Doc.title d
  ∧ Doc.bundle_hashes d' = Doc.bundle_hashes d.

End FrameVocabulary.

(** The keys of [PARSER_MAP]. *)
Definition parser_types : list string :=
  ["story"; "race"; "lyrics"; "home"; "preview"; "uianimation";
   "generic"]%string.

(** A manager that serves the story bundle of [CueExample], one that can
    load nothing, and a [parse_from_path] that rejects one name. *)
Module OutcomeExample.
Import Extractor.
Local Open Scope string_scope.

Definition story_manager : Manager :=
  mkManager "windows" (λ _ _, None) (λ _, inr (Some CueExample.env))
            (λ _, (None, None)) ∅.

Definition offline_manager : Manager :=
  mkManager "windows" (λ _ _, None) (λ _, inr None) (λ _, (None, None)) ∅.


Definition parse_from_path (asset_type path_str : string)
    : option StoryId.t :=
  if String.eqb path_str "bad" then None
  else Some (StoryId.mk asset_type "00" "0000" path_str "00" None).

Definition workspace_file (workspace_dir : string) (sid : StoryId.t)
    : string :=
  workspace_dir +:+ "/" +:+ StoryId.id sid +:+ ".json".

End OutcomeExample.

(** ** File names and story ids *)

Section NameVocabulary.

(** The characters of a string, in order. *)
Definition chars (s : string) : list ascii := list_ascii_of_string s.

(** The characters [sanitize_filename] replaces or removes: the two path
    separators and [invalid_chars]. *)
Definition forbidden_chars : list ascii :=
  ascii_of_nat 92 :: ascii_of_nat 47 :: Common.invalid_chars.

(** The string neither begins nor ends with a white-space character. *)
Definition trimmed_ends (s : string) : Prop :=
  (∀ c, head (chars s) = Some c → Py.isspace c = false)
  ∧ (∀ c, last (chars s) = Some c → Py.isspace c = false).

(** Number of occurrences of a character. *)
Fixpoint occurrences (c : ascii) (s : string) : nat :=
  match s with
  | EmptyString => 0
  | String c' s' =>
      (if Ascii.eqb c' c then 1 else 0) + occurrences c s'
  end.

(** The part of a path after its last slash. *)
Definition file_name (path_str : string) : string :=
  Common.last_part (Common.split (ascii_of_nat 47) path_str).

End NameVocabulary.

(** ** What a walker's blocks hold *)

Section BlockVocabulary.

(** The block has a non-empty time stamp. *)
Definition timed (b : Block.t) : Prop :=
  ∃ t, Block.time b = Some t ∧ Py.truthy t = true.

(** The text of a block in the lyrics output: its translated text without
    the white space around it or, when that leaves nothing (or there is no
    translated text), its source text without the white space around it. *)
Definition shown_text (b : Block.t) : string :=
  match Py.strip (default EmptyString (Block.enText b)) with
  | EmptyString => Py.strip (default EmptyString (Block.jpText b))
  | translation => translation
  end.

(** The blocks with time stamp [t] that have a text to show. *)
Definition stored_at (t : string) (blocks : list Block.t) : list Block.t :=
  filter (λ b, Block.time b = Some t ∧ shown_text b ≠ EmptyString) blocks.

End BlockVocabulary.

(** An origin that cannot be reached, with auto-download on. *)
Module UnreachableExample.
Import ContentStore.
Local Open Scope string_scope.

Definition world : World :=
  {| AUTO_DOWNLOAD_ASSETS := true;
     platform := "Windows";
     asset_dir := "dat";
     respond := λ _, ConnectionFailed;
     makedirs_ok := true;
     content_length_ok := true;
     open_ok := true;
     writes_ok := None |}.

(** A store that already holds the asset, and another file. *)
Definition fs : FS :=
  {[ "dat/ab/ab12cd" := [7; 8; 9]%Z; "dat/cd/cd34ef" := [1]%Z ]}.

End UnreachableExample.

(** ** Where the traversal starts *)

Section StartVocabulary.


End StartVocabulary.

(** A chain of three motions, each the child of the one before. *)
Module DepthExample.

Definition chain : list MotionParam.t :=
  [MotionExample.motion 1 ["one"%string] [2%Z];
   MotionExample.motion 2 ["two"%string] [3%Z];
   MotionExample.motion 3 ["three"%string] []].

Definition env : Scene.Env :=
  [Scene.mkObj "MonoBehaviour" 1
     (Some (Scene.UIAnimationTree (MainMono.mk (Some chain) (Some 1%Z))))].

End DepthExample.

(** * Properties *)

(** ** The stream cipher *)

Section DecryptFacts.
Import KeyDerivation.

Variable final_key : list Z.
Hypothesis key_nonempty : final_key ≠ [].

Lemma key_len_pos : 0 < length final_key.
Proof. destruct final_key; [done | simpl; lia]. Qed.

Lemma key_lookup i :
  ∃ k, final_key !! (i mod length final_key) = Some k.
Proof.
  apply lookup_lt_is_Some_2, Nat.mod_upper_bound.
  pose proof key_len_pos; lia.
Qed.

Lemma xored_length from upto data :
  length (xored final_key from upto data) = length data.
Proof. apply length_imap. Qed.

Lemma xored_lookup from upto data i :
  xored final_key from upto data !! i =
  (λ b, if decide (from ≤ i < upto)
        then Z.lxor b (default 0%Z (final_key !! (i mod length final_key)))
        else b) <$> data !! i.
Proof. unfold xored. by rewrite list_lookup_imap. Qed.

Lemma xored_empty_range from data : xored final_key from from data = data.
Proof.
  apply list_eq; intros i. rewrite xored_lookup.
  destruct (data !! i); simpl; [|done]. case_decide; [lia | done].
Qed.

(** One more index processed extends the closed form by one offset. *)
Lemma xor_step_xored from n data :
  from + n < length data →
  xor_step final_key (length final_key) (xored final_key from (from + n) data)
           (from + n)
  = Some (xored final_key from (from + S n) data).
Proof.
  intros Hlt. unfold xor_step.
  pose proof key_len_pos.
  case_decide; [lia|].
  destruct (key_lookup (from + n)) as [k Hk]. rewrite Hk. simpl.
  destruct (lookup_lt_is_Some_2 data (from + n) Hlt) as [b Hb].
  rewrite xored_lookup, Hb. simpl.
  case_decide; [lia|]. f_equal.
  apply list_eq; intros i. rewrite xored_lookup.
  destruct (decide (i = from + n)) as [->|Hne].
  - rewrite list_lookup_insert_eq by (rewrite xored_length; lia).
    rewrite Hb. simpl. case_decide; [|lia]. by rewrite Hk.
  - rewrite list_lookup_insert_ne by done. rewrite xored_lookup.
    destruct (data !! i); simpl; [|done].
    repeat case_decide; try done; lia.
Qed.

Lemma xor_loop_xored from n data :
  from + n ≤ length data →
  xor_loop final_key (length final_key) data (seq from n)
  = Some (xored final_key from (from + n) data).
Proof.
  unfold xor_loop. induction n as [|n IH]; intros Hle.
  - simpl. by rewrite Nat.add_0_r, xored_empty_range.
  - rewrite seq_S, foldl_app. simpl. rewrite IH by lia. simpl.
    apply xor_step_xored. lia.
Qed.

Lemma decrypt_asset_data_xored data :
  decrypt_asset_data data final_key
  = Some (xored final_key 256 (length data) data).
Proof.
  unfold decrypt_asset_data.
  destruct (decide (256 ≤ length data)) as [Hle|Hgt].
  - rewrite xor_loop_xored by lia. do 2 f_equal. lia.
  - replace (length data - 256) with 0 by lia. unfold xor_loop. simpl.
    f_equal. apply list_eq; intros i. rewrite xored_lookup.
    destruct (data !! i) eqn:Hi; simpl; [|done].
    apply lookup_lt_Some in Hi. case_decide; [lia | done].
Qed.

Lemma xored_involutive from upto data :
  xored final_key from upto (xored final_key from upto data) = data.
Proof.
  apply list_eq; intros i. rewrite !xored_lookup.
  destruct (data !! i) as [b|]; simpl; [|done].
  case_decide; [|done].
  by rewrite Z.lxor_assoc, Z.lxor_nilpotent, Z.lxor_0_r.
Qed.

(** C4. For a non-empty keystream, [decrypt_asset_data] returns a payload of
    the same length whose first 256 bytes are those of the input and whose
    byte at every offset [i >= 256] is the input byte XORed with
    [final_key[i mod len(final_key)]]; applying it again with the same
    keystream gives back the original payload. *)
Theorem decrypt_asset_data_spec (data : list Z) :
  ∃ out,
    decrypt_asset_data data final_key = Some out
    ∧ length out = length data
    ∧ (∀ i, i < 256 → out !! i = data !! i)
    ∧ (∀ i b, 256 ≤ i → data !! i = Some b →
         ∃ k, final_key !! (i mod length final_key) = Some k
              ∧ out !! i = Some (Z.lxor b k))
    ∧ decrypt_asset_data out final_key = Some data.
Proof.
  exists (xored final_key 256 (length data) data).
  split; [apply decrypt_asset_data_xored|].
  split; [apply xored_length|].
  split; [|split].
  - intros i Hi. rewrite xored_lookup.
    destruct (data !! i); simpl; [|done]. case_decide; [lia | done].
  - intros i b Hi Hb. destruct (key_lookup i) as [k Hk]. exists k.
    split; [done|]. rewrite xored_lookup, Hb, Hk. simpl.
    apply lookup_lt_Some in Hb. case_decide; [done | lia].
  - rewrite decrypt_asset_data_xored, xored_length.
    by rewrite xored_involutive.
Qed.

End DecryptFacts.


(** ** Timeline walker: cue-id renumbering *)

Section CueIds.
Import Scene Walkers.

Lemma renumber_cue_effective earlier d :
  renumber_cue (TextClip.CueId d) (clip_flag d) (global_offset_after earlier)
  = (effective_cue_id earlier d, global_offset_after (earlier ++ [d])).
Proof.
  unfold renumber_cue, effective_cue_id, global_offset_after.
  rewrite filter_app, length_app, Nat2Z.inj_add, filter_cons, filter_nil.
  unfold cue_present.
  destruct (TextClip.CueId d) as [c|]; simpl.
  - destruct (c =? -1)%Z eqn:Hc; simpl.
    + rewrite andb_false_r. f_equal.
      rewrite decide_False by (intros [_ ?]; done); simpl; lia.
    + destruct (clip_flag d =? 4)%Z eqn:H4; simpl.
      * apply Z.eqb_eq in H4. rewrite decide_True by done.
        f_equal; simpl; lia.
      * apply Z.eqb_neq in H4.
        rewrite decide_False by (intros [? _]; done).
        f_equal; simpl; lia.
  - rewrite andb_false_r. f_equal.
    rewrite decide_False by (intros [_ ?]; done); simpl; lia.
Qed.

Lemma story_inv_init : story_inv [] (mkStory 0 [] []).
Proof. repeat split; try done. Qed.

Lemma story_inv_step objects char_names clips st block_idx block :
  story_inv clips st →
  story_inv
    (clips ++ from_option (λ found, [found.1.1.2]) []
                          (story_clip objects char_names block))
    (story_step objects char_names st (block_idx, block)).
Proof.
  intros Hinv. unfold story_step.
  destruct (story_clip objects char_names block)
    as [[[[path_id d] looked_up_name] jp_name]|]; simpl;
    [|by rewrite app_nil_r].
  destruct Hinv as (Hg & Hlf & Hlb & Hk).
  fold (clip_flag d). rewrite Hg.
  pose proof (renumber_cue_effective clips d) as Hr.
  unfold renumber_cue in Hr. injection Hr as -> ->.
  unfold story_inv; simpl.
  split; [done|]. split; [rewrite !length_app; simpl; lia|].
  split; [rewrite !length_app; simpl; lia|].
  intros k d' Hd'.
  destruct (decide (k < length clips)) as [Hlt|Hge].
  - rewrite lookup_app_l in Hd' by done.
    rewrite !lookup_app_l by lia.
    rewrite take_app_le by lia. by apply Hk.
  - assert (k = length clips) as ->.
    { apply lookup_lt_Some in Hd'. rewrite length_app in Hd'. simpl in Hd'.
      lia. }
    rewrite list_lookup_middle in Hd' by done. injection Hd' as <-.
    rewrite take_app_length.
    rewrite !list_lookup_middle by done. split; [done|].
    eexists. split; [done|]. done.
Qed.

Lemma story_inv_loop objects char_names entries :
  story_inv
    (omap (λ entry : nat * option TimelineBlock.t,
             (λ found : Z * TextClip.t * option string * string,
                found.1.1.2) <$> story_clip objects char_names entry.2)
          entries)
    (foldl (story_step objects char_names) (mkStory 0 [] []) entries).
Proof.
  induction entries as [|[block_idx block] entries IH] using rev_ind.
  - apply story_inv_init.
  - rewrite foldl_snoc, omap_app.
    pose proof (story_inv_step objects char_names _ _ block_idx block IH)
      as Hstep.
    replace (omap _ [(block_idx, block)])
      with (from_option
              (λ found : Z * TextClip.t * option string * string,
                 [found.1.1.2])
              [] (story_clip objects char_names block)); [done|].
    simpl. by destruct (story_clip objects char_names block).
Qed.

Lemma omap_enumerate {A B} (f : A → option B) start (l : list A) :
  omap (λ entry : nat * A, f entry.2) (Py.enumerate start l) = omap f l.
Proof.
  revert start. induction l as [|x l IH]; intros start; [done|].
  unfold Py.enumerate. rewrite imap_cons.
  replace (imap ((λ i y, (start + i, y)) ∘ S) l)
    with (Py.enumerate (S start) l)
    by (apply imap_ext; intros i y _; simpl; f_equal; lia).
  simpl. by rewrite IH.
Qed.

Lemma story_loop_inv env char_names block_list :
  story_inv (story_clips env char_names block_list)
            (story_loop env char_names block_list).
Proof.
  unfold story_clips, story_loop.
  rewrite <- (omap_enumerate _ 1). apply story_inv_loop.
Qed.

(** C1 (as amended). For the blocks the timeline walker emits, in order, the
    effective cue id it computes is the original cue id plus one when the
    block's own difference flag is 2, plus the number of earlier emitted
    blocks with difference flag 4 and a cue id; an absent cue id or [-1]
    is left as it is. *)
Theorem story_effective_cue_ids env char_names timeline :
  find_timeline env = Some timeline →
  let clips := story_clips env char_names (Timeline.BlockList timeline) in
  ∃ blocks finals,
    Doc.text_blocks <$> parse_story_timeline env char_names
      = Some (Some blocks)
    ∧ story_final_cue_ids env char_names = Some finals
    ∧ length blocks = length clips
    ∧ length finals = length clips
    ∧ ∀ k d, clips !! k = Some d →
        finals !! k = Some (effective_cue_id (take k clips) d)
        ∧ ∃ b, blocks !! k = Some b
               ∧ Block.differenceFlag b = Some (clip_flag d).
Proof.
  intros Hfind clips.
  unfold parse_story_timeline, story_final_cue_ids. rewrite Hfind. simpl.
  destruct (story_loop_inv env char_names (Timeline.BlockList timeline))
    as (_ & Hlf & Hlb & Hk).
  eexists _, _. repeat split; try done; by apply Hk.
Qed.

End CueIds.

(** C1 fails as stated: block B (cue id 10, flag 2) is emitted with cue id
    10, not 11, and the later flag-4 block with cue id 20 is emitted with 20
    and has the computed effective cue id 20, not 21. *)
Lemma recorded_cue_id_counterexample :
  CueExample.recorded_cue_ids
    = Some [Some (Some 10%Z); Some (Some 20%Z); Some (Some 30%Z)]
  ∧ CueExample.recorded_cue_ids
    ≠ Some [Some (Some 11%Z); Some (Some 21%Z); Some (Some 31%Z)]
  ∧ Walkers.story_final_cue_ids CueExample.env ∅
    = Some [Some 11%Z; Some 20%Z; Some 31%Z].
Proof. split; [|split]; [reflexivity | discriminate | reflexivity]. Qed.

Lemma story_effective_cue_ids_witness :
  ∃ blocks finals,
    Doc.text_blocks <$> Walkers.parse_story_timeline CueExample.env ∅
      = Some (Some blocks)
    ∧ Walkers.story_final_cue_ids CueExample.env ∅ = Some finals
    ∧ length blocks = 3
    ∧ length finals = 3
    ∧ ∀ k d,
        story_clips CueExample.env ∅
          [CueExample.block_to 9; CueExample.block_to 10;
           CueExample.block_to 11; CueExample.block_to 12] !! k = Some d →
        finals !! k
          = Some (effective_cue_id
                    (take k (story_clips CueExample.env ∅
                               [CueExample.block_to 9; CueExample.block_to 10;
                                CueExample.block_to 11;
                                CueExample.block_to 12])) d)
        ∧ ∃ b, blocks !! k = Some b
               ∧ Block.differenceFlag b = Some (clip_flag d).
Proof.
  exact (story_effective_cue_ids CueExample.env ∅
           (Timeline.mk None
              [CueExample.block_to 9; CueExample.block_to 10;
               CueExample.block_to 11; CueExample.block_to 12])
           eq_refl).
Defined.

(** The expanded key is eight times as long as the base key. *)
Lemma create_asset_final_key_length base_key bundle_key_int final_key :
  KeyDerivation.create_asset_final_key base_key bundle_key_int
    = Some final_key →
  length final_key = 8 * length base_key.
Proof.
  unfold KeyDerivation.create_asset_final_key, KeyDerivation.to_bytes8.
  destruct (_ && _); [|done]. simpl. intros [= <-].
  induction base_key as [|b base_key IH]; [done|].
  cbn [mbind list_bind]. rewrite length_app, IH. simpl. lia.
Qed.

Example create_asset_final_key_999 :
  take 10 <$> KeyDerivation.create_asset_final_key
                KeyDerivation.ASSET_BASE_KEY 999
  = Some [180; 80; 83; 83; 83; 83; 83; 83; 204; 40]%Z.
Proof. reflexivity. Qed.

Lemma decrypt_asset_data_spec_witness :
  ∃ out,
    KeyDerivation.decrypt_asset_data (replicate 300 65%Z) [1; 2; 3]%Z
      = Some out
    ∧ length out = length (replicate 300 65%Z)
    ∧ (∀ i, i < 256 → out !! i = replicate 300 65%Z !! i)
    ∧ (∀ i b, 256 ≤ i → replicate 300 65%Z !! i = Some b →
         ∃ k, [1; 2; 3]%Z !! (i mod length [1; 2; 3]%Z) = Some k
              ∧ out !! i = Some (Z.lxor b k))
    ∧ KeyDerivation.decrypt_asset_data out [1; 2; 3]%Z
      = Some (replicate 300 65%Z).
Proof.
  apply (decrypt_asset_data_spec [1; 2; 3]%Z). discriminate.
Defined.

(** Without a keystream a payload longer than 256 bytes cannot be
    decrypted: [i % key_len] raises. *)
Lemma decrypt_asset_data_empty_key data :
  256 < length data → KeyDerivation.decrypt_asset_data data [] = None.
Proof.
  intros Hlen. unfold KeyDerivation.decrypt_asset_data.
  destruct (length data - 256) as [|n] eqn:Hn; [lia|].
  simpl. unfold KeyDerivation.xor_loop. simpl.
  generalize (seq 257 n). intros l. induction l as [|i l IH]; done.
Qed.

(** ** Block indexes of the walkers *)

Section BlockIndex.
Import Scene Walkers.

Lemma kept_from_ge {A B} (emit : A → option B) start l i :
  i ∈ kept_from emit start l → start ≤ i.
Proof.
  revert start. induction l as [|x l IH]; intros start; simpl.
  - by intros ?%elem_of_nil.
  - destruct (emit x).
    + intros [->|Hin%IH]%elem_of_cons; lia.
    + intros Hin%IH. lia.
Qed.

Lemma kept_from_sorted {A B} (emit : A → option B) start l :
  StronglySorted lt (kept_from emit start l).
Proof.
  revert start. induction l as [|x l IH]; intros start; simpl.
  - constructor.
  - destruct (emit x); [|apply IH].
    constructor; [apply IH|].
    apply Forall_forall. intros i Hin%kept_from_ge. lia.
Qed.

Lemma elem_of_kept_from {A B} (emit : A → option B) start l i :
  i ∈ kept_from emit start l
  ↔ ∃ x, start ≤ i ∧ l !! (i - start) = Some x ∧ emit x ≠ None.
Proof.
  revert start. induction l as [|x l IH]; intros start; simpl.
  - split; [by intros ?%elem_of_nil | by intros (? & _ & ? & _)].
  - assert (i ∈ kept_from emit (S start) l
            ↔ ∃ y, start < i ∧ (x :: l) !! (i - start) = Some y
                   ∧ emit y ≠ None) as Htail.
    { rewrite IH. split; intros (y & Hle & Hy & He); exists y.
      - split; [lia|]. split; [|done].
        replace (i - start) with (S (i - S start)) by lia. done.
      - split; [lia|]. split; [|done].
        replace (i - start) with (S (i - S start)) in Hy by lia. done. }
    destruct (emit x) eqn:Hx.
    + rewrite elem_of_cons, Htail. split.
      * intros [->|(y & Hlt & Hy & He)].
        -- exists x. rewrite Nat.sub_diag. split; [lia|]. split; [done|].
           congruence.
        -- exists y. split; [lia | done].
      * intros (y & Hle & Hy & He).
        destruct (decide (i = start)) as [->|Hne]; [by left|].
        right. exists y. split; [lia | done].
    + rewrite Htail. split.
      * intros (y & Hlt & Hy & He). exists y. split; [lia | done].
      * intros (y & Hle & Hy & He).
        destruct (decide (i = start)) as [->|Hne].
        -- rewrite Nat.sub_diag in Hy. simpl in Hy. congruence.
        -- exists y. split; [lia | done].
Qed.

(** A loop that appends [emit i x] for the entries of [enumerate(l, start)]
    it does not skip, where the block made for index [i] carries
    [i - start]. *)
Lemma enumerate_loop_indexes {A B} (emit : nat → A → option Block.t)
    (keep : A → option B) start (l : list A) :
  (∀ i x, keep x = None ↔ emit i x = None) →
  (∀ i x b, emit i x = Some b →
     Block.block_index b = Some (Some (Z.of_nat i - Z.of_nat start)%Z)) →
  Block.block_index
    <$> omap (λ entry : nat * A, emit entry.1 entry.2) (Py.enumerate start l)
  = (λ i : nat, Some (Some (Z.of_nat i))) <$> kept_from keep 0 l.
Proof.
  intros Hkeep Hidx.
  assert (∀ k,
    Block.block_index
      <$> omap (λ entry : nat * A, emit entry.1 entry.2)
               (imap (λ i x, (start + (k + i), x)) l)
    = (λ i : nat, Some (Some (Z.of_nat i))) <$> kept_from keep k l) as Hgen.
  { induction l as [|x l IH]; intros k; [done|].
    rewrite imap_cons. simpl.
    replace (imap ((λ i y, (start + (k + i), y)) ∘ S) l)
      with (imap (λ i y, (start + (S k + i), y)) l)
      by (apply imap_ext; intros i y _; simpl; f_equal; lia).
    specialize (Hkeep (start + (k + 0)) x).
    destruct (emit (start + (k + 0)) x) as [b|] eqn:Hb.
    - destruct (keep x) eqn:Hx;
        [|destruct Hkeep as [Hkeep _]; by specialize (Hkeep eq_refl)].
      cbn. f_equal; [|exact (IH (S k))].
      rewrite (Hidx _ _ _ Hb). do 2 f_equal. lia.
    - destruct (keep x) eqn:Hx.
      + destruct Hkeep as [_ Hkeep]. by specialize (Hkeep eq_refl).
      + apply IH. }
  specialize (Hgen 0). rewrite <- Hgen. do 2 f_equal.
Qed.

Lemma indexed_from_kept {A B} (emit : A → option B) (l : list A) blocks :
  Block.block_index <$> blocks
    = (λ i : nat, Some (Some (Z.of_nat i))) <$> kept_from emit 0 l →
  indexed_from l (λ x, emit x = None) blocks.
Proof.
  intros Hidx. exists (kept_from emit 0 l).
  split; [done|]. split; [apply kept_from_sorted|].
  intros i. rewrite elem_of_kept_from. rewrite Nat.sub_0_r.
  split.
  - intros (x & _ & Hx & He). by exists x.
  - intros (x & Hx & He). exists x. split; [lia | done].
Qed.

Lemma foldl_append_omap {A} (emit : A → option Block.t) (l : list A) acc :
  foldl (λ blocks entry,
           match emit entry with
           | Some block_data => blocks ++ [block_data]
           | None => blocks
           end) acc l
  = acc ++ omap emit l.
Proof.
  revert acc. induction l as [|x l IH]; intros acc; simpl.
  - by rewrite app_nil_r.
  - rewrite IH. destruct (emit x); [|done]. by rewrite <- app_assoc.
Qed.

Lemma story_loop_text_blocks objects char_names entries st :
  text_blocks (foldl (story_step objects char_names) st entries)
  = text_blocks st
    ++ omap (λ entry : nat * option TimelineBlock.t,
               story_block_of objects char_names entry.1 entry.2) entries.
Proof.
  revert st. induction entries as [|[block_idx block] entries IH];
    intros st; simpl.
  - by rewrite app_nil_r.
  - rewrite IH. unfold story_step, story_block_of. simpl.
    destruct (story_clip objects char_names block)
      as [[[[path_id d] looked_up_name] jp_name]|]; simpl; [|done].
    by rewrite <- app_assoc.
Qed.

Lemma story_blocks_indexed env char_names block_list :
  indexed_from (drop 1 block_list)
    (λ block,
       story_clip (Py.dict_of path_id id env) char_names block = None)
    (text_blocks (story_loop env char_names block_list)).
Proof.
  apply indexed_from_kept. unfold story_loop.
  rewrite story_loop_text_blocks. simpl.
  apply (enumerate_loop_indexes
           (story_block_of (Py.dict_of path_id id env) char_names)
           (story_clip (Py.dict_of path_id id env) char_names) 1).
  - intros i x. unfold story_block_of.
    by destruct (story_clip _ _ x).
  - intros i x b. unfold story_block_of.
    destruct (story_clip _ _ x); [|done]. simpl. intros [= <-]. done.
Qed.

Lemma home_block_index objects char_names i block b :
  home_block objects char_names i block = Some b →
  Block.block_index b = Some (Some (Z.of_nat i)).
Proof.
  unfold home_block. intros Hb.
  repeat (match type of Hb with
          | context [mbind _ ?o] => destruct o; simpl in Hb; [|done]
          | context [if ?c then _ else _] => destruct c; simpl in Hb
          end; try done).
  all: by injection Hb as <-.
Qed.

Lemma home_block_skip objects char_names i j block :
  home_block objects char_names i block = None
  ↔ home_block objects char_names j block = None.
Proof.
  unfold home_block.
  repeat (match goal with
          | |- context [mbind _ ?o] => destruct o; simpl; [|done]
          | |- context [if ?c then _ else _] => destruct c; simpl
          end; try done).
Qed.

Lemma home_blocks_indexed env char_names block_list :
  indexed_from block_list
    (λ block, home_block env char_names 0 block = None)
    (home_loop env char_names block_list).
Proof.
  apply indexed_from_kept. unfold home_loop.
  rewrite (foldl_append_omap
             (λ entry, home_block env char_names entry.1 entry.2)).
  simpl.
  apply (enumerate_loop_indexes (home_block env char_names)
           (home_block env char_names 0) 0).
  - intros i x. apply home_block_skip.
  - intros i x b Hb%home_block_index. rewrite Hb. do 2 f_equal. lia.
Qed.

Lemma preview_block_index i entry b :
  preview_block i entry = Some b →
  Block.block_index b = Some (Some (Z.of_nat i)).
Proof.
  unfold preview_block. intros Hb.
  repeat (match type of Hb with
          | context [mbind _ ?o] => destruct o; simpl in Hb; [|done]
          | context [if ?c then _ else _] => destruct c; simpl in Hb
          end; try done).
  all: by injection Hb as <-.
Qed.

Lemma preview_block_skip i j entry :
  preview_block i entry = None ↔ preview_block j entry = None.
Proof.
  unfold preview_block.
  repeat (match goal with
          | |- context [mbind _ ?o] => destruct o; simpl; [|done]
          | |- context [if ?c then _ else _] => destruct c; simpl
          end; try done).
Qed.

Lemma preview_blocks_indexed DataArray :
  indexed_from DataArray (λ entry, preview_block 0 entry = None)
               (preview_loop DataArray).
Proof.
  apply indexed_from_kept. unfold preview_loop.
  rewrite (foldl_append_omap (λ entry, preview_block entry.1 entry.2)).
  simpl.
  apply (enumerate_loop_indexes preview_block (preview_block 0) 0).
  - intros i x. apply preview_block_skip.
  - intros i x b Hb%preview_block_index. rewrite Hb. do 2 f_equal. lia.
Qed.

Lemma parse_preview_Some env doc :
  parse_preview env = Some doc →
  ∃ obj DataArray,
    obj ∈ env
    ∧ read_typetree obj = Some (PreviewTree (Some DataArray))
    ∧ Doc.text_blocks doc = Some (preview_loop DataArray).
Proof.
  induction env as [|obj env IH]; simpl; [done|].
  intros Hdoc.
  assert (parse_preview env = Some doc →
          ∃ obj' DataArray,
            obj' ∈ obj :: env
            ∧ read_typetree obj' = Some (PreviewTree (Some DataArray))
            ∧ Doc.text_blocks doc = Some (preview_loop DataArray)) as Hrest.
  { intros (obj' & arr & Hin & Htree & Hblocks)%IH.
    exists obj', arr. split; [by right | done]. }
  destruct (is_type "MonoBehaviour" obj); [|by apply Hrest].
  destruct (read_typetree obj) as [[| | | | |[arr|]| |]|] eqn:Htree;
    try by apply Hrest.
  exists obj, arr. split; [by left|]. split; [done|].
  destruct (preview_loop arr); [done|]. by injection Hdoc as <-.
Qed.

Lemma race_blocks_index textData :
  Block.block_index <$> race_blocks textData
  = (λ item, Some (RaceItem.key item)) <$> race_items textData.
Proof.
  unfold race_blocks, race_items.
  induction textData as [|[item|] textData IH]; [done| |exact IH].
  cbn. destruct (RaceItem.text item); cbn; [|exact IH].
  f_equal. exact IH.
Qed.

Lemma parse_race_story_Some env doc :
  parse_race_story env = Some doc →
  ∃ obj textData,
    obj ∈ env
    ∧ read_typetree obj = Some (RaceTree textData)
    ∧ Doc.text_blocks doc = Some (race_blocks textData).
Proof.
  induction env as [|obj env IH]; simpl; [done|].
  intros Hdoc.
  assert (parse_race_story env = Some doc →
          ∃ obj' textData,
            obj' ∈ obj :: env
            ∧ read_typetree obj' = Some (RaceTree textData)
            ∧ Doc.text_blocks doc = Some (race_blocks textData)) as Hrest.
  { intros (obj' & td & Hin & Htree & Hblocks)%IH.
    exists obj', td. split; [by right | done]. }
  destruct (is_type "MonoBehaviour" obj); [|by apply Hrest].
  destruct (read_typetree obj) as [[| | |td| | | |]|] eqn:Htree;
    try by apply Hrest.
  exists obj, td. split; [by left|]. split; [done|].
  by injection Hdoc as <-.
Qed.

Lemma lyric_rows_no_index rows blocks :
  lyric_rows rows = Some blocks →
  Forall (λ b, Block.block_index b = None ∧ is_Some (Block.time b)) blocks.
Proof.
  revert blocks. induction rows as [|row rows IH]; intros blocks; simpl.
  - intros [= <-]. constructor.
  - destruct row as [|time [|text more]]; [apply IH| |].
    + destruct (Py.truthy time); [done | apply IH].
    + destruct (Py.truthy time); [|apply IH].
      destruct (lyric_rows rows) as [bs|]; [|done]. simpl.
      intros [= <-]. constructor; [by split | by apply IH].
Qed.

Lemma parse_lyrics_Some csv_reader utf8_decode env doc :
  parse_lyrics csv_reader utf8_decode env = Some doc →
  ∃ blocks,
    Doc.text_blocks doc = Some blocks
    ∧ blocks ≠ []
    ∧ Forall (λ b, Block.block_index b = None ∧ is_Some (Block.time b))
             blocks.
Proof.
  induction env as [|obj env IH]; simpl; [done|].
  destruct (is_type "TextAsset" obj); [|done].
  destruct (lyric_asset csv_reader utf8_decode obj) as [[|b bs]|] eqn:Hasset;
    try done.
  intros [= <-]. exists (b :: bs). split; [done|]. split; [done|].
  unfold lyric_asset in Hasset.
  repeat (match type of Hasset with
          | context [mbind _ ?o] => destruct o; simpl in Hasset; [|done]
          end).
  by apply lyric_rows_no_index in Hasset.
Qed.

(** C3 (as amended). The blocks of the story-timeline, home-timeline and
    preview walkers carry as [block_index] the position of their entry in
    the list the walker scans ([BlockList[1:]], [BlockList], [DataArray]):
    strictly increasing in extraction order, with a gap exactly where an
    entry is skipped.  The blocks of the race walker carry the [key] of
    their entry, and the blocks of the lyrics walker carry a [time] and no
    [block_index]. *)
Theorem block_index_by_walker csv_reader utf8_decode env char_names doc :
  (parse_story_timeline env char_names = Some doc →
     ∃ timeline blocks,
       find_timeline env = Some timeline
       ∧ Doc.text_blocks doc = Some blocks
       ∧ indexed_from (drop 1 (Timeline.BlockList timeline))
           (λ block,
              story_clip (Py.dict_of path_id id env) char_names block = None)
           blocks)
  ∧ (parse_home_timeline env char_names = Some doc →
     ∃ timeline blocks,
       find_timeline env = Some timeline
       ∧ Doc.text_blocks doc = Some blocks
       ∧ indexed_from (Timeline.BlockList timeline)
           (λ block, home_block env char_names 0 block = None) blocks)
  ∧ (parse_preview env = Some doc →
     ∃ obj DataArray blocks,
       obj ∈ env
       ∧ read_typetree obj = Some (PreviewTree (Some DataArray))
       ∧ Doc.text_blocks doc = Some blocks
       ∧ indexed_from DataArray (λ entry, preview_block 0 entry = None)
                      blocks)
  ∧ (parse_race_story env = Some doc →
     ∃ obj textData blocks,
       obj ∈ env
       ∧ read_typetree obj = Some (RaceTree textData)
       ∧ Doc.text_blocks doc = Some blocks
       ∧ Block.block_index <$> blocks
         = (λ item, Some (RaceItem.key item)) <$> race_items textData)
  ∧ (parse_lyrics csv_reader utf8_decode env = Some doc →
     ∃ blocks,
       Doc.text_blocks doc = Some blocks
       ∧ blocks ≠ []
       ∧ Forall (λ b, Block.block_index b = None ∧ is_Some (Block.time b))
                blocks).
Proof.
  repeat split.
  - unfold parse_story_timeline.
    destruct (find_timeline env) as [timeline|]; [|done]. simpl.
    intros [= <-]. eexists _, _. split; [done|]. split; [done|].
    apply story_blocks_indexed.
  - unfold parse_home_timeline.
    destruct (find_timeline env) as [timeline|]; [|done]. simpl.
    pose proof (home_blocks_indexed env char_names
                  (Timeline.BlockList timeline)) as Hidx.
    destruct (home_loop env char_names (Timeline.BlockList timeline));
      [done|].
    intros [= <-]. eexists _, _. split; [done|]. split; [done|]. done.
  - intros (obj & arr & Hin & Htree & Hblocks)%parse_preview_Some.
    exists obj, arr, (preview_loop arr).
    repeat split; try done. apply preview_blocks_indexed.
  - intros (obj & td & Hin & Htree & Hblocks)%parse_race_story_Some.
    exists obj, td, (race_blocks td).
    repeat split; try done. apply race_blocks_index.
  - apply parse_lyrics_Some.
Qed.

End BlockIndex.

(** C3 fails as stated: the blocks of a lyrics document carry no
    [block_index]. *)
Lemma lyrics_block_index_counterexample :
  Walkers.parse_lyrics LyricsExample.csv_unquoted LyricsExample.no_decode
                       LyricsExample.env
    = Some LyricsExample.doc
  ∧ Block.block_index <$> Py.get (Doc.text_blocks LyricsExample.doc) []
    = [None; None].
Proof. split; reflexivity. Qed.

Lemma block_index_by_walker_witness :
  (∃ timeline blocks,
     Walkers.find_timeline CueExample.env = Some timeline
     ∧ Some (Walkers.text_blocks
               (Walkers.story_loop CueExample.env ∅
                  [CueExample.block_to 9; CueExample.block_to 10;
                   CueExample.block_to 11; CueExample.block_to 12]))
       = Some blocks
     ∧ indexed_from (drop 1 (Timeline.BlockList timeline))
         (λ block,
            Walkers.story_clip (Py.dict_of Scene.path_id id CueExample.env)
                               ∅ block = None)
         blocks)
  ∧ (∃ blocks,
       Doc.text_blocks LyricsExample.doc = Some blocks
       ∧ blocks ≠ []
       ∧ Forall (λ b, Block.block_index b = None ∧ is_Some (Block.time b))
                blocks).
Proof.
  split.
  - exact (proj1 (block_index_by_walker
                    LyricsExample.csv_unquoted LyricsExample.no_decode
                    CueExample.env ∅ _) eq_refl).
  - exact (proj2 (proj2 (proj2 (proj2
             (block_index_by_walker
                LyricsExample.csv_unquoted LyricsExample.no_decode
                LyricsExample.env ∅ LyricsExample.doc)))) eq_refl).
Defined.

(** ** UI-animation walker: termination and single visits *)






Section TraversalFacts.
Import Walkers.

Variable motion_map : list (option Z * MotionParam.t).
Variable motion_index_map : list (option Z * nat).









End TraversalFacts.

Section TraversalFuel.
Import Walkers.

Variable motion_map : list (option Z * MotionParam.t).
Variable motion_index_map : list (option Z * nat).




End TraversalFuel.

Section TraversalSteps.
Import Walkers.

Variable motion_map : list (option Z * MotionParam.t).
Variable motion_index_map : list (option Z * nat).

Local Abbreviation find :=
  (find_text_recursively motion_map motion_index_map).
Local Abbreviation enter := (entered motion_map motion_index_map).
Local Abbreviation child := (child_of motion_map).
Local Abbreviation closed := (closed_from motion_map).
Local Abbreviation explores := (explored motion_map).

Lemma find_text_recursively_unfold fuel i st :
  find (S fuel) (Some i) st
  = if (i =? 0)%Z || bool_decide (i ∈ processed_motion_ids st) then Some st
    else
      match Py.dict_get (Some i) motion_map with
      | Some motion_param =>
          visit_children (find fuel) (child_motion_ids motion_param)
                         (enter i st)
      | None => Some (enter i st)
      end.
Proof.
  simpl. destruct (_ || _); [done|].
  unfold entered, units_of.
  destruct (Py.dict_get (Some i) motion_map); [done|].
  by rewrite app_nil_r.
Qed.

Section Invariant.

(** A property of the state that entering a new motion keeps. *)
Variable Q : UIState → Prop.
Hypothesis Q_entered :
  ∀ i st, Q st → i ≠ 0%Z → i ∉ processed_motion_ids st → Q (enter i st).

Lemma visit_children_keeps
    (visit : option Z → UIState → option UIState) ids :
  (∀ motion_id st st', visit motion_id st = Some st' → Q st → Q st') →
  ∀ st st', visit_children visit ids st = Some st' → Q st → Q st'.
Proof.
  intros Hvisit. induction ids as [|child ids IH]; intros st st'; simpl.
  - by intros [= <-].
  - destruct (falsy_id child); [apply IH|].
    destruct (visit child st) as [st1|] eqn:Hst1; [|done]. simpl.
    intros Hst' Hst. apply (IH st1); [done|]. by apply (Hvisit child st).
Qed.

Lemma find_text_recursively_keeps fuel :
  ∀ motion_id st st', find fuel motion_id st = Some st' → Q st → Q st'.
Proof.
  induction fuel as [|fuel IH]; intros motion_id st st'; [done|].
  destruct motion_id as [i|]; [|by intros [= <-]].
  rewrite find_text_recursively_unfold.
  destruct (i =? 0)%Z eqn:Hzero; [by intros [= <-]|].
  case_bool_decide as Hseen; [by intros [= <-]|]. simpl.
  apply Z.eqb_neq in Hzero.
  destruct (Py.dict_get (Some i) motion_map) as [motion_param|].
  - intros Hst' Hst.
    apply (visit_children_keeps _ _ IH _ _ Hst'). by apply Q_entered.
  - intros [= <-] Hst. by apply Q_entered.
Qed.

Lemma visit_roots_keeps fuel roots :
  ∀ st st',
    visit_roots motion_map motion_index_map fuel roots st = Some st' →
    Q st → Q st'.
Proof.
  induction roots as [|root roots IH]; intros st st'; simpl.
  - by intros [= <-].
  - destruct (find fuel root st) as [st1|] eqn:Hst1; [|done].
    simpl. intros Hst' Hst. apply (IH st1); [done|].
    by apply (find_text_recursively_keeps _ _ _ _ Hst1).
Qed.

End Invariant.









End TraversalSteps.

Section TraversalStarts.
Import Walkers.






End TraversalStarts.


Example self_loop_visited_once :
  MotionExample.visits (Some 5%Z) MotionExample.self_loop = Some [5%Z].
Proof. reflexivity. Qed.

Example two_cycle_visited_once :
  MotionExample.visits None MotionExample.two_cycle = Some [1%Z; 2%Z].
Proof. reflexivity. Qed.

(** A chain of three motions needs room for three nested calls: with less
    the walker raises [RecursionError], with that much it returns. *)
Example chain_needs_depth :
  Walkers.parse_uianimation 2 DepthExample.env = None
  ∧ is_Some (Walkers.parse_uianimation 3 DepthExample.env).
Proof. split; [reflexivity | by eexists]. Qed.


(** ** UI-animation documents are not merged *)

Section UntranslatedUnits.
Import Walkers.

Lemma text_units_untranslated motion_idx motion_param :
  Forall untranslated (text_units motion_idx motion_param).
Proof.
  unfold text_units. apply Forall_forall. intros b.
  rewrite list_elem_of_omap. intros ([text_idx entry] & _ & Hb).
  unfold text_unit in Hb. simpl in Hb.
  destruct entry as [text_param|]; simpl in Hb; [|done].
  destruct (Py.truthy _); [|done]. by injection Hb as <-.
Qed.

Lemma visit_children_untranslated
    (visit : option Z → UIState → option UIState) ids :
  (∀ motion_id st st',
     visit motion_id st = Some st' →
     Forall untranslated (ui_text_blocks st) →
     Forall untranslated (ui_text_blocks st')) →
  ∀ st st',
    visit_children visit ids st = Some st' →
    Forall untranslated (ui_text_blocks st) →
    Forall untranslated (ui_text_blocks st').
Proof.
  intros Hvisit. induction ids as [|child ids IH]; intros st st'; simpl.
  - by intros [= <-].
  - destruct (falsy_id child); [apply IH|].
    destruct (visit child st) as [st1|] eqn:Hst1; [|done]. simpl.
    intros Hst' Hst. apply (IH st1); [done|]. by apply (Hvisit child st).
Qed.

Lemma find_text_recursively_untranslated motion_map motion_index_map fuel :
  ∀ motion_id st st',
    find_text_recursively motion_map motion_index_map fuel motion_id st
      = Some st' →
    Forall untranslated (ui_text_blocks st) →
    Forall untranslated (ui_text_blocks st').
Proof.
  induction fuel as [|fuel IH]; intros motion_id st st'; [done|].
  simpl. destruct motion_id as [i|]; [|by intros [= <-]].
  destruct ((i =? 0)%Z || bool_decide (i ∈ processed_motion_ids st));
    [by intros [= <-]|].
  destruct (Py.dict_get (Some i) motion_map) as [motion_param|];
    [|by intros [= <-]].
  intros Hst' Hst.
  apply (visit_children_untranslated _ _ IH _ _ Hst'). simpl.
  apply Forall_app. split; [done | apply text_units_untranslated].
Qed.

Lemma visit_roots_untranslated motion_map motion_index_map fuel roots :
  ∀ st st',
    visit_roots motion_map motion_index_map fuel roots st = Some st' →
    Forall untranslated (ui_text_blocks st) →
    Forall untranslated (ui_text_blocks st').
Proof.
  induction roots as [|root roots IH]; intros st st'; simpl.
  - by intros [= <-].
  - destruct (find_text_recursively _ _ fuel root st) as [st1|] eqn:Hst1;
      [|done].
    simpl. intros Hst' Hst. apply (IH st1); [done|].
    by apply (find_text_recursively_untranslated _ _ _ _ _ _ Hst1).
Qed.

Lemma parse_uianimation_untranslated recursion_limit env doc :
  parse_uianimation recursion_limit env = Some (Some doc) →
  ∃ blocks, Doc.text_blocks doc = Some blocks ∧ Forall untranslated blocks.
Proof.
  unfold parse_uianimation.
  destruct (find_main_mono env) as [main_mono|]; [|done].
  destruct (Py.get (MainMono._motionParameterList main_mono) [])
    as [|m l] eqn:Hl.
  - intros [= <-]. by exists [].
  - destruct (uianimation_walk _ _ _) as [st|] eqn:Hst; [|done].
    simpl. intros [= <-]. exists (ui_text_blocks st). split; [done|].
    unfold uianimation_walk in Hst.
    apply (visit_roots_untranslated _ _ _ _ _ _ Hst). constructor.
Qed.

End UntranslatedUnits.

Section ExtractFacts.
Import Extractor.

Variable parse_from_path : string → string → option StoryId.t.
Variable workspace_file : string → StoryId.t → string.
Variable csv_reader : list string → option (list (list string)).
Variable utf8_decode : list Z → option string.
Variable recursion_limit : nat.
Variable similarity : string → string → Q.
Variable read_only : string → bool.

Let extract := extract_asset_data parse_from_path csv_reader utf8_decode
    recursion_limit
                                  similarity.

(** C9. For asset type [uianimation], [extract_asset_data] gives the same
    result whatever workspace path is supplied and whatever that file
    holds, leaves the files as they are, and every block of the document it
    returns has an empty translated text. *)
Theorem uianimation_never_merged (manager : Manager) (asset_name : string)
    (workspace_path workspace_path' : option string) (fs fs' : FS) :
  fst (extract manager "uianimation" asset_name workspace_path fs)
    = fst (extract manager "uianimation" asset_name workspace_path' fs')
  ∧ snd (extract manager "uianimation" asset_name workspace_path fs) = fs
  ∧ ∀ doc,
      fst (extract manager "uianimation" asset_name workspace_path fs)
        = inr doc →
      ∃ blocks,
        Doc.text_blocks doc = Some blocks ∧ Forall untranslated blocks.
Proof.
  unfold extract, extract_asset_data, run_parser, bind, ret, raise. simpl.
  destruct (parse_from_path "uianimation" asset_name) as [story_id|];
    [|by repeat split].
  destruct (load_bundle manager asset_name) as [exn|[env|]];
    [by repeat split| |by repeat split].
  destruct (Walkers.parse_uianimation recursion_limit env) as [[parsed|]|]
    eqn:Hparse;
    try by repeat split.
  split; [done|]. split; [done|].
  simpl. intros doc [= <-]. simpl.
  by apply parse_uianimation_untranslated in Hparse.
Qed.

(** [extract_asset_data] only reads the files. *)
Lemma extract_asset_data_reads_only (manager : Manager)
    (asset_type asset_name : string) (workspace_path : option string)
    (fs : FS) :
  snd (extract manager asset_type asset_name workspace_path fs) = fs.
Proof.
  unfold extract, extract_asset_data, run_parser, merge_translations,
    read_file, bind, ret, raise.
  destruct (parse_from_path asset_type asset_name); [|done].
  destruct (load_bundle manager asset_name) as [exn|[env|]]; [done| |done].
  repeat (match goal with
          | |- context [if ?c then _ else _] => destruct c
          | |- context [match ?o with Some _ => _ | None => _ end] =>
              destruct o
          | |- context [match ?f with Json _ => _ | NotJson => _ end] =>
              destruct f
          end; simpl; try done).
Qed.

(** C10. When [process_asset] gets past the skip test, the extraction
    returns a document and the workspace file can be written, the function
    writes the document to the workspace path, then raises at the build
    step, and returns ["failed"] with the workspace file in place: the
    files afterwards are the files before with the workspace path holding
    the new document. *)
Theorem process_asset_failed_after_write (manager : Manager)
    (asset_type asset_name workspace_dir mod_dir : string)
    (update overwrite : bool) (story_id : StoryId.t) (final_data : Doc.t)
    (fs : FS) :
  parse_from_path asset_type asset_name = Some story_id →
  let workspace_full_path := workspace_file workspace_dir story_id in
  (is_Some (fs !! workspace_full_path) → update = true ∨ overwrite = true) →
  fst (extract manager asset_type asset_name
         (if update then Some workspace_full_path else None) fs)
    = inr final_data →
  read_only workspace_full_path = false →
  process_asset parse_from_path workspace_file csv_reader utf8_decode
      recursion_limit
                similarity read_only manager asset_type asset_name
                workspace_dir mod_dir update overwrite fs
  = (inr "failed"%string, <[workspace_full_path := Json final_data]> fs).
Proof.
  intros Hparse ws Hgate Hextract Hwritable.
  pose proof (extract_asset_data_reads_only manager asset_type asset_name
                (if update then Some ws else None) fs) as Hfs.
  unfold process_asset, bind, try_except, exists_file, write_json,
    convert_workspace_data, ret, raise.
  rewrite Hparse. fold ws.
  assert (bool_decide (is_Some (fs !! ws)) && negb update && negb overwrite
          = false) as ->.
  { case_bool_decide as Hpresent; [|done]. simpl.
    destruct (Hgate Hpresent) as [-> | ->]; [done|].
    by rewrite andb_false_r. }
  fold extract.
  destruct (extract manager asset_type asset_name
              (if update then Some ws else None) fs) as [result fs1].
  simpl in Hextract, Hfs. subst result fs1.
  by rewrite Hwritable.
Qed.

End ExtractFacts.

(** [process_asset] never reports success: the build step always raises. *)
Lemma process_asset_never_succeeds parse_from_path workspace_file csv_reader
    utf8_decode recursion_limit similarity read_only
    (manager : Extractor.Manager)
    (asset_type asset_name workspace_dir mod_dir : string)
    (update overwrite : bool) (fs : Extractor.FS) :
  fst (Extractor.process_asset parse_from_path workspace_file csv_reader
         utf8_decode recursion_limit similarity read_only manager asset_type
         asset_name workspace_dir mod_dir update overwrite fs)
  ≠ inr "success"%string.
Proof.
  unfold Extractor.process_asset, Extractor.bind, Extractor.try_except,
    Extractor.exists_file, Extractor.write_json,
    Extractor.convert_workspace_data, Extractor.ret, Extractor.raise.
  destruct (parse_from_path asset_type asset_name); [|done].
  destruct (_ && _ && _); [done|].
  destruct (Extractor.extract_asset_data _ _ _ _ _ _ _ _ _ _) as [[exn|doc] fs1];
    [done|].
  by destruct (read_only _).
Qed.

Lemma uianimation_never_merged_witness :
  fst (Extractor.extract_asset_data ExtractExample.parse_from_path
         ExtractExample.no_csv ExtractExample.no_decode
         ExtractExample.recursion_limit Levenshtein.ratio
         ExtractExample.manager "uianimation" ExtractExample.asset_name
         (Some ExtractExample.workspace_path) ExtractExample.fs)
    = fst (Extractor.extract_asset_data ExtractExample.parse_from_path
             ExtractExample.no_csv ExtractExample.no_decode
             ExtractExample.recursion_limit Levenshtein.ratio
             ExtractExample.manager "uianimation" ExtractExample.asset_name
             None ∅)
  ∧ snd (Extractor.extract_asset_data ExtractExample.parse_from_path
           ExtractExample.no_csv ExtractExample.no_decode
           ExtractExample.recursion_limit Levenshtein.ratio
           ExtractExample.manager "uianimation" ExtractExample.asset_name
           (Some ExtractExample.workspace_path) ExtractExample.fs)
    = ExtractExample.fs
  ∧ ∀ doc,
      fst (Extractor.extract_asset_data ExtractExample.parse_from_path
             ExtractExample.no_csv ExtractExample.no_decode
             ExtractExample.recursion_limit Levenshtein.ratio
             ExtractExample.manager "uianimation" ExtractExample.asset_name
             (Some ExtractExample.workspace_path) ExtractExample.fs)
        = inr doc →
      ∃ blocks,
        Doc.text_blocks doc = Some blocks ∧ Forall untranslated blocks.
Proof.
  exact (uianimation_never_merged ExtractExample.parse_from_path
           ExtractExample.no_csv ExtractExample.no_decode
           ExtractExample.recursion_limit Levenshtein.ratio
           ExtractExample.manager ExtractExample.asset_name
           (Some ExtractExample.workspace_path) None ExtractExample.fs ∅).
Defined.

(** The translation of the earlier run is not carried forward. *)
Example uianimation_update_drops_translation :
  Extractor.extract_asset_data ExtractExample.parse_from_path
    ExtractExample.no_csv ExtractExample.no_decode
    ExtractExample.recursion_limit Levenshtein.ratio
    ExtractExample.manager "uianimation" ExtractExample.asset_name
    (Some ExtractExample.workspace_path) ExtractExample.fs
  = (inr ExtractExample.extracted_doc, ExtractExample.fs).
Proof. reflexivity. Qed.

Lemma process_asset_failed_after_write_witness :
  Extractor.process_asset ExtractExample.parse_from_path
    ExtractExample.workspace_file ExtractExample.no_csv
    ExtractExample.no_decode
    ExtractExample.recursion_limit Levenshtein.ratio
    ExtractExample.nothing_read_only
    ExtractExample.manager "uianimation" ExtractExample.asset_name
    "translations" "build" true false ExtractExample.fs
  = (inr "failed"%string,
     <[ExtractExample.workspace_path
         := Extractor.Json ExtractExample.extracted_doc]> ExtractExample.fs).
Proof.
  apply (process_asset_failed_after_write ExtractExample.parse_from_path
           ExtractExample.workspace_file ExtractExample.no_csv
           ExtractExample.no_decode
           ExtractExample.recursion_limit Levenshtein.ratio
           ExtractExample.nothing_read_only
           ExtractExample.manager "uianimation" ExtractExample.asset_name
           "translations" "build" true false ExtractExample.story_id
           ExtractExample.extracted_doc ExtractExample.fs).
  - reflexivity.
  - intros _. by left.
  - reflexivity.
  - reflexivity.
Defined.

(** ** MergeEngine *)

Lemma Qgt_bool_true x y : Py.Qgt_bool x y = true ↔ (y < x)%Q.
Proof.
  unfold Py.Qgt_bool. rewrite negb_true_iff. split.
  - intros Hle. apply Qnot_le_lt. intros H%Qle_bool_iff. congruence.
  - intros Hlt. destruct (Qle_bool x y) eqn:Hle; [|done].
    apply Qle_bool_iff in Hle. by apply Qlt_not_le in Hlt.
Qed.

Lemma Qgt_bool_false x y : Py.Qgt_bool x y = false ↔ (x <= y)%Q.
Proof.
  unfold Py.Qgt_bool. rewrite negb_false_iff. apply Qle_bool_iff.
Qed.

(** [max] returns an element whose key no other element exceeds, and
    nothing only for an empty list. *)
Lemma max_by_spec {A} (key : A → Q) (l : list A) :
  match Py.max_by key l with
  | Some best => best ∈ l ∧ ∀ x, x ∈ l → (key x <= key best)%Q
  | None => l = []
  end.
Proof.
  destruct l as [|x l]; simpl; [done|].
  assert (∀ seen best,
    best ∈ seen → (∀ y, y ∈ seen → (key y <= key best)%Q) →
    let best' :=
      foldl (λ best y, if Py.Qgt_bool (key y) (key best) then y else best)
            best l in
    best' ∈ seen ++ l ∧ ∀ y, y ∈ seen ++ l → (key y <= key best')%Q) as Hfold.
  { induction l as [|z l IH]; intros seen best Hin Hmax; simpl.
    - by rewrite app_nil_r.
    - replace (seen ++ z :: l) with ((seen ++ [z]) ++ l)
        by (by rewrite <- app_assoc).
      destruct (Py.Qgt_bool (key z) (key best)) eqn:Hgt; apply IH.
      + apply elem_of_app. right. by left.
      + apply Qgt_bool_true in Hgt.
        intros y [Hy| ->%list_elem_of_singleton]%elem_of_app.
        * apply Qle_trans with (key best); [by apply Hmax|].
          by apply Qlt_le_weak.
        * apply Qle_refl.
      + apply elem_of_app. by left.
      + apply Qgt_bool_false in Hgt.
        intros y [Hy| ->%list_elem_of_singleton]%elem_of_app;
          [by apply Hmax | done]. }
  apply (Hfold [x] x).
  - by left.
  - intros y ->%list_elem_of_singleton. apply Qle_refl.
Qed.

Section IndexFacts.
Import MergeEngine.

Lemma foldl_insert_lookup (blocks : list Block.t) (d : gmap string Block.t)
    (key : string) :
  foldl (λ d block, <[trimmed block := block]> d) d blocks !! key
  = match last (filter (λ b, trimmed b = key) blocks) with
    | Some b => Some b
    | None => d !! key
    end.
Proof.
  revert d. induction blocks as [|b blocks IH]; intros d; simpl; [done|].
  rewrite IH, filter_cons.
  destruct (decide (trimmed b = key)) as [Hkey|Hkey].
  - rewrite last_cons.
    destruct (last (filter (λ b, trimmed b = key) blocks)); [done|].
    by rewrite <- Hkey, lookup_insert_eq.
  - destruct (last (filter (λ b, trimmed b = key) blocks)); [done|].
    by rewrite lookup_insert_ne.
Qed.

(** The index gives, for a key, the last old block with that trimmed
    source text. *)
Lemma old_text_lookup_last old_blocks key :
  old_text_lookup old_blocks !! key = last (exact_matches old_blocks key).
Proof.
  unfold old_text_lookup, exact_matches.
  change (λ d block,
            <[Py.strip (Py.get (Block.jpText block) EmptyString) := block]> d)
    with (λ (d : gmap string Block.t) block, <[trimmed block := block]> d).
  rewrite foldl_insert_lookup, lookup_empty, list_filter_filter.
  assert (filter (λ b, trimmed b = key ∧ has_text b) old_blocks
          = filter (λ b, has_text b ∧ trimmed b = key) old_blocks) as ->.
  { apply list_filter_iff. intros b. tauto. }
  by destruct (last _).
Qed.

Lemma has_text_truthy b : has_text b → Block.truthy b = true.
Proof.
  unfold has_text, Block.truthy. destruct (Block.jpText b); [|done].
  intros _. simpl. by rewrite !orb_true_r.
Qed.

Lemma exact_match_last old_blocks key b :
  last (exact_matches old_blocks key) = Some b →
  b ∈ old_blocks ∧ has_text b ∧ trimmed b = key.
Proof.
  intros Hin%last_Some_elem_of. unfold exact_matches in Hin.
  apply list_elem_of_filter in Hin. tauto.
Qed.

End IndexFacts.

Section MergeFacts.
Import MergeEngine.

Variable similarity : string → string → Q.

(** A non-empty text is not similar to the empty text (for
    [Levenshtein.ratio] the similarity is then 0). *)
Hypothesis similarity_blank :
  ∀ s, Py.truthy s = true → (similarity s EmptyString <= 0.85)%Q.

Lemma find_best_match_candidate old_blocks jp_text :
  candidate_for similarity old_blocks jp_text
    (find_best_match similarity old_blocks (old_text_lookup old_blocks)
                     jp_text).
Proof.
  unfold candidate_for, find_best_match. rewrite old_text_lookup_last.
  destruct (last (exact_matches old_blocks (Py.strip jp_text)))
    as [exact|] eqn:Hexact.
  - apply exact_match_last in Hexact as (_ & Htext & _).
    by rewrite (has_text_truthy _ Htext).
  - apply (max_by_spec
             (λ old_block,
                similarity jp_text
                  (Py.get (Block.jpText old_block) EmptyString))).
Qed.

Lemma falsy_block_no_text b :
  Block.truthy b = false → source_text b = EmptyString.
Proof.
  unfold Block.truthy, source_text.
  destruct (Block.jpText b); [|done]. simpl.
  by rewrite !orb_true_r.
Qed.

(** A candidate is accepted exactly when its similarity exceeds 0.85. *)
Lemma accepted_iff jp_text bm :
  Py.truthy jp_text = true →
  accepted similarity jp_text bm = true
  ↔ (0.85 < similarity jp_text (source_text bm))%Q.
Proof.
  intros Hjp. unfold accepted. rewrite andb_true_iff, Qgt_bool_true.
  split; [by intros [_ ?]|]. intros Hlt. split; [|done].
  destruct (Block.truthy bm) eqn:Hbm; [done|].
  apply falsy_block_no_text in Hbm. rewrite Hbm in Hlt.
  by apply Qlt_not_le in Hlt; destruct Hlt; apply similarity_blank.
Qed.

Lemma copy_choices_copied ocs ncs : choices_copied ocs ncs (copy_choices ocs ncs).
Proof.
  unfold choices_copied, copy_choices. split; [apply length_imap|].
  intros i nc Hnc. rewrite list_lookup_imap, Hnc. simpl.
  eexists. split; [done|]. by destruct (ocs !! i).
Qed.

Lemma copy_translation_copied bm nb : copied_from bm nb (copy_translation bm nb).
Proof.
  unfold copied_from, copy_translation, translated.
  destruct nb as [? ? ? ? ? ? ? ? [ncs|] ? ? ? ? ? ? ? ?];
    destruct (Block.enName bm); destruct (Block.choices bm) as [ocs|];
    simpl; repeat split; try done;
    exists (copy_choices ocs ncs); split; try done;
    apply copy_choices_copied.
Qed.

(** C2. In [merge_translations], for every new block with a non-empty
    source text, the candidate is the exact match of the index built over
    the old blocks (same trimmed source text) when there is one, else an old
    block of maximal similarity; the merged block is the new block with the
    candidate's translated text, translated speaker name (when present) and
    translated choice texts (by position, as far as the candidate's choices
    reach) copied in when the candidate's similarity exceeds 0.85, and is
    the new block unchanged otherwise, its translated text staying empty. *)
Theorem merge_translations_per_block (new_data old_data : Doc.t)
    (new_blocks : list Block.t) (i : nat) (new_block : Block.t)
    (jp_text : string) :
  Doc.text_blocks new_data = Some new_blocks →
  new_blocks !! i = Some new_block →
  Block.jpText new_block = Some jp_text →
  Py.truthy jp_text = true →
  let old_blocks := Py.get (Doc.text_blocks old_data) [] in
  ∃ merged result candidate,
    Doc.text_blocks (merge_translations similarity new_data (Some old_data))
      = Some merged
    ∧ length merged = length new_blocks
    ∧ merged !! i = Some result
    ∧ candidate_for similarity old_blocks jp_text candidate
    ∧ (∀ bm, candidate = Some bm →
         (0.85 < similarity jp_text (source_text bm))%Q →
         copied_from bm new_block result)
    ∧ ((candidate = None
        ∨ ∃ bm, candidate = Some bm
                ∧ ¬ (0.85 < similarity jp_text (source_text bm))%Q) →
       result = new_block
       ∧ (translated new_block = EmptyString →
          translated result = EmptyString)).
Proof.
  intros Hblocks Hi Hjp Htruthy old_blocks.
  set (lookup := old_text_lookup old_blocks).
  exists (map (merge_block similarity old_blocks lookup) new_blocks),
         (merge_block similarity old_blocks lookup new_block),
         (find_best_match similarity old_blocks lookup jp_text).
  split. { unfold merge_translations. simpl. by rewrite Hblocks. }
  split. { by rewrite length_map. }
  split. { change (map ?f ?l) with (f <$> l).
           by rewrite list_lookup_fmap, Hi. }
  split. { apply find_best_match_candidate. }
  unfold merge_block. rewrite Hjp, Htruthy. simpl.
  destruct (find_best_match similarity old_blocks lookup jp_text) as [bm|].
  - pose proof (accepted_iff jp_text bm Htruthy) as Hacc.
    destruct (accepted similarity jp_text bm).
    + split.
      * intros ? [= <-] _. apply copy_translation_copied.
      * intros [?|(? & [= <-] & Hnot)]; [done|].
        destruct Hnot. by apply Hacc.
    + split.
      * intros ? [= <-] Hlt%Hacc. done.
      * done.
  - split; [done | done].
Qed.

End MergeFacts.

Lemma lcs_nil_r a : Levenshtein.lcs a [] = 0.
Proof. by destruct a. Qed.

Lemma ratio_blank s :
  Py.truthy s = true → (Levenshtein.ratio s EmptyString <= 0.85)%Q.
Proof.
  intros Hs. unfold Levenshtein.ratio. simpl.
  rewrite lcs_nil_r, Nat.add_0_r.
  destruct s as [|c s]; [done|]. simpl.
  unfold Qle. simpl. lia.
Qed.

Example merge_near_match :
  MergeExample.translations
    (MergeEngine.merge_translations Levenshtein.ratio MergeExample.new_doc
                                    (Some MergeExample.old_doc))
  = ["Hello"%string].
Proof. reflexivity. Qed.

(** The translated texts of the choices follow the old choices as far as
    these reach. *)
Example merge_copies_choices :
  (λ b : Block.t,
     (Block.enText b, Block.enName b,
      (λ cs : list Choice.t, Choice.enText <$> cs) <$> Block.choices b))
    <$> Py.get (Doc.text_blocks
                  (MergeEngine.merge_translations Levenshtein.ratio
                     MergeExample.new_question_doc
                     (Some MergeExample.old_question_doc))) []
  = [(Some "Shall we go?"%string, Some "Teio"%string,
      Some [Some "Yes"%string; Some EmptyString])].
Proof. reflexivity. Qed.

Lemma merge_translations_per_block_witness :
  ∃ merged result candidate,
    Doc.text_blocks
      (MergeEngine.merge_translations Levenshtein.ratio
         MergeExample.new_question_doc
         (Some MergeExample.old_question_doc))
      = Some merged
    ∧ length merged = 1
    ∧ merged !! 0 = Some result
    ∧ candidate_for Levenshtein.ratio
        [MergeExample.old_question] "ikimasu ka?" candidate
    ∧ (∀ bm, candidate = Some bm →
         (0.85 < Levenshtein.ratio "ikimasu ka?" (source_text bm))%Q →
         copied_from bm MergeExample.new_question result)
    ∧ ((candidate = None
        ∨ ∃ bm, candidate = Some bm
                ∧ ¬ (0.85 < Levenshtein.ratio "ikimasu ka?"
                                               (source_text bm))%Q) →
       result = MergeExample.new_question
       ∧ (translated MergeExample.new_question = EmptyString →
          translated result = EmptyString)).
Proof.
  exact (merge_translations_per_block Levenshtein.ratio ratio_blank
           MergeExample.new_question_doc MergeExample.old_question_doc
           [MergeExample.new_question] 0
           MergeExample.new_question "ikimasu ka?"
           eq_refl eq_refl eq_refl eq_refl).
Defined.

Section SelfMerge.
Import MergeEngine.

Variable similarity : string → string → Q.

(** C7 (as amended). Merging a document against itself gives every block
    its own translated text back, provided the blocks that share the
    block's trimmed source text all carry the block's translated text; a
    block without a source text is returned as it is.  In general a block
    with a source text is matched with the last block that has the same
    trimmed source text: when the similarity of their source texts exceeds
    0.85 the block receives the translation of that last block, so that
    the blocks sharing a trimmed source text all end with the translated
    text of the last of them, and otherwise the block is left as it is. *)
Theorem merge_with_itself (doc : Doc.t) (blocks : list Block.t) (i : nat)
    (b : Block.t) :
  Doc.text_blocks doc = Some blocks →
  blocks !! i = Some b →
  ∃ merged r,
    Doc.text_blocks (merge_translations similarity doc (Some doc))
      = Some merged
    ∧ length merged = length blocks
    ∧ merged !! i = Some r
    ∧ ((∀ b', b' ∈ blocks → has_text b' → trimmed b' = trimmed b →
              translated b' = translated b) →
       translated r = translated b)
    ∧ (has_text b = false → r = b)
    ∧ (has_text b = true →
       ∃ last_b,
         last (exact_matches blocks (trimmed b)) = Some last_b
         ∧ ((0.85 < similarity (source_text b) (source_text last_b))%Q →
            copied_from last_b b r
            ∧ translated r = translated last_b)
         ∧ (¬ (0.85 < similarity (source_text b) (source_text last_b))%Q →
            r = b)).
Proof.
  intros Hblocks Hi.
  exists (map (merge_block similarity blocks (old_text_lookup blocks)) blocks),
         (merge_block similarity blocks (old_text_lookup blocks) b).
  split. { unfold merge_translations. simpl. by rewrite Hblocks. }
  split. { by rewrite length_map. }
  split. { change (map ?f ?l) with (f <$> l).
           by rewrite list_lookup_fmap, Hi. }
  unfold merge_block, has_text.
  destruct (Block.jpText b) as [jp_text|] eqn:Hjp;
    [|split; [done|]; split; [done|]; done].
  destruct (Py.truthy jp_text) eqn:Htruthy;
    [|split; [done|]; split; [done|]; done].
  simpl.
  assert (has_text b) as Htext by (unfold has_text; by rewrite Hjp, Htruthy).
  assert (trimmed b = Py.strip jp_text) as Hkey
    by (unfold trimmed, source_text; by rewrite Hjp).
  assert (source_text b = jp_text) as Hsource
    by (unfold source_text; by rewrite Hjp).
  unfold find_best_match. rewrite old_text_lookup_last, <- Hkey.
  destruct (last (exact_matches blocks (trimmed b))) as [exact|] eqn:Hexact.
  2: { apply last_None in Hexact.
       assert (b ∈ exact_matches blocks (trimmed b)) as Hb.
       { apply list_elem_of_filter. split; [done|].
         by apply list_elem_of_lookup_2 in Hi. }
       rewrite Hexact in Hb. by apply elem_of_nil in Hb. }
  apply exact_match_last in Hexact as (Hin & Hexact_text & Hexact_key).
  rewrite (has_text_truthy _ Hexact_text).
  unfold accepted. rewrite (has_text_truthy _ Hexact_text). simpl.
  fold (source_text exact). rewrite Hsource.
  destruct (copy_translation_copied exact b) as (Hen & Hrest).
  destruct (Py.Qgt_bool (similarity jp_text (source_text exact)) 0.85)
    eqn:Hsim.
  - apply Qgt_bool_true in Hsim.
    assert (translated (copy_translation exact b) = translated exact)
      as Htranslated by (unfold translated at 1; by rewrite Hen).
    split; [|split; [done|]].
    + intros Hsame. rewrite Htranslated. by apply Hsame.
    + intros _. exists exact. split; [done|]. split; [|done].
      intros _. split; [|done]. split; [done | exact Hrest].
  - apply Qgt_bool_false in Hsim.
    split; [done|]. split; [done|].
    intros _. exists exact. split; [done|]. split; [|done].
    intros Hlt. by apply Qlt_not_le in Hlt.
Qed.

End SelfMerge.

(** C7 fails as stated: of two lines with the same source text, the first
    comes back with the translation of the second. *)
Lemma merge_with_itself_counterexample :
  MergeExample.translations MergeExample.repeated
    = ["Yes"%string; "Right"%string]
  ∧ MergeExample.translations
      (MergeEngine.merge_translations Levenshtein.ratio MergeExample.repeated
                                      (Some MergeExample.repeated))
    = ["Right"%string; "Right"%string]
  ∧ MergeExample.translations
      (MergeEngine.merge_translations Levenshtein.ratio MergeExample.repeated
                                      (Some MergeExample.repeated))
    ≠ MergeExample.translations MergeExample.repeated.
Proof. split; [|split]; [reflexivity | reflexivity | discriminate]. Qed.

Lemma merge_with_itself_witness :
  ∃ merged r,
    Doc.text_blocks
      (MergeEngine.merge_translations Levenshtein.ratio MergeExample.repeated
                                      (Some MergeExample.repeated))
      = Some merged
    ∧ length merged = 2
    ∧ merged !! 0 = Some r
    ∧ ∃ last_b,
        last (exact_matches
                [MergeExample.line "hai" "Yes"; MergeExample.line "hai" "Right"]
                "hai")
          = Some last_b
        ∧ translated r = translated last_b.
Proof.
  destruct (merge_with_itself Levenshtein.ratio MergeExample.repeated
              [MergeExample.line "hai" "Yes"; MergeExample.line "hai" "Right"]
              0 (MergeExample.line "hai" "Yes") eq_refl eq_refl)
    as (merged & r & Hmerged & Hlength & Hr & _ & _ & Hlast).
  exists merged, r. do 3 (split; [done|]).
  destruct (Hlast eq_refl) as (last_b & Hlast_b & Hsimilar & _).
  exists last_b. split; [exact Hlast_b|].
  apply Hsimilar.
  vm_compute in Hlast_b. injection Hlast_b as <-. by vm_compute.
Defined.

(** ** AssetIndex: exact lookup, then pattern lookup *)

Section IndexLookup.
Import AssetIndex.

Lemma like_percent_unfold pattern text :
  like_chars (ascii_of_nat 37 :: pattern) text
  = like_chars pattern text
    || match text with
       | [] => false
       | _ :: text' => like_chars (ascii_of_nat 37 :: pattern) text'
       end.
Proof. by destruct text. Qed.

Lemma like_percent_any text : like_chars [ascii_of_nat 37] text = true.
Proof.
  induction text as [|c text IH]; [done|].
  rewrite like_percent_unfold, IH. apply orb_true_r.
Qed.

Lemma like_chars_prefix name suffix :
  like_chars (name ++ [ascii_of_nat 37]) (name ++ suffix) = true.
Proof.
  induction name as [|c name IH]; [apply like_percent_any|].
  destruct (nat_of_ascii c =? 37) eqn:Hc.
  - apply Nat.eqb_eq in Hc.
    assert (c = ascii_of_nat 37) as -> by (by rewrite <- Hc, ascii_nat_embedding).
    change ((ascii_of_nat 37 :: name) ++ ?l) with (ascii_of_nat 37 :: name ++ l).
    rewrite like_percent_unfold.
    change (ascii_of_nat 37 :: name ++ [ascii_of_nat 37])
      with (ascii_of_nat 37 :: (name ++ [ascii_of_nat 37])).
    rewrite (like_percent_unfold _ (name ++ suffix)), IH. simpl.
    apply orb_true_r.
  - simpl. rewrite Hc, IH, Nat.eqb_refl. by rewrite orb_true_r.
Qed.

Lemma list_ascii_of_string_app a b :
  list_ascii_of_string (a +:+ b)
  = list_ascii_of_string a ++ list_ascii_of_string b.
Proof. induction a as [|c a IH]; simpl; [done | by rewrite IH]. Qed.

(** Every name that begins with [name] matches the pattern [name%]. *)
Lemma like_prefix name suffix : like (name +:+ "%") (name +:+ suffix) = true.
Proof.
  unfold like. rewrite !list_ascii_of_string_app. apply like_chars_prefix.
Qed.

(** C5 (as amended). [get_asset_info] first makes the exact-name lookup and,
    on a hit, returns that row's hash and key without consulting the
    pattern lookup; over a table, on an exact miss it returns the first row
    whose name matches the [LIKE] pattern made of the name followed by [%],
    which every name beginning with the given name does; when no row
    matches either, it returns the not-found pair. *)
Theorem get_asset_info_exact_then_like (cursor : Cursor) (rows : list Row)
    (name suffix : string) :
  (∀ row, select_exact cursor name = Some (Some row) →
          get_asset_info cursor name = row_info row)
  ∧ (∀ row, find (λ r, String.eqb (n r) name) rows = Some row →
            n row = name
            ∧ get_asset_info (table_cursor rows) name = row_info row)
  ∧ (find (λ r, String.eqb (n r) name) rows = None →
     get_asset_info (table_cursor rows) name
     = match find (λ r, like (name +:+ "%") (n r)) rows with
       | Some row => row_info row
       | None => (None, None)
       end)
  ∧ like (name +:+ "%") (name +:+ suffix) = true.
Proof.
  split; [|split; [|split]].
  - intros row Hrow. unfold get_asset_info. by rewrite Hrow.
  - intros row Hrow. split.
    + apply find_some in Hrow as [_ Heq]. by apply String.eqb_eq in Heq.
    + unfold get_asset_info. simpl. by rewrite Hrow.
  - intros Hmiss. unfold get_asset_info. simpl. rewrite Hmiss.
    by destruct (find _ rows).
  - apply like_prefix.
Qed.

End IndexLookup.

(** C5 fails as stated: no row is named [a_c] or begins with [a_c], and yet
    a row is returned, because [_] in the name matches any character. *)
Lemma get_asset_info_counterexample :
  forallb (λ r, negb (String.prefix "a_c" (AssetIndex.n r)))
          IndexExample.rows = true
  ∧ AssetIndex.get_asset_info (AssetIndex.table_cursor IndexExample.rows)
                              "a_c"
    = (Some "ab12cd"%string, Some 999%Z).
Proof. split; reflexivity. Qed.

Lemma get_asset_info_exact_then_like_witness :
  AssetIndex.n (AssetIndex.mkRow "story_01" "ab12" None) = "story_01"%string
  ∧ AssetIndex.get_asset_info (AssetIndex.table_cursor IndexExample.both)
                              "story_01"
    = (Some "ab12"%string, Some 0%Z).
Proof.
  exact (proj1 (proj2 (get_asset_info_exact_then_like
                         (AssetIndex.table_cursor IndexExample.both)
                         IndexExample.both "story_01" "x"))
           (AssetIndex.mkRow "story_01" "ab12" None) eq_refl).
Defined.

(** ** ContentStore: failed downloads *)

Section DownloadFacts.
Import ContentStore.

(** With the auto-download flag off, nothing is requested and no file is
    touched. *)
Lemma download_asset_disabled (w : World) hash_str category (fs : FS) :
  AUTO_DOWNLOAD_ASSETS w = false →
  download_asset w hash_str category fs = (Returned false, fs, []).
Proof. intros Hoff. unfold download_asset. by rewrite Hoff. Qed.

Lemma on_request_exception_removes asset_path (fs : FS) :
  on_request_exception asset_path fs !! asset_path = None.
Proof.
  unfold on_request_exception. case_bool_decide as Hpresent.
  - apply lookup_delete_eq.
  - by apply eq_None_not_Some.
Qed.

(** After a request was made, a [False] result leaves no file at the asset
    path: the handler of [RequestException] removed it. *)
Lemma download_asset_request_failure (w : World) hash_str category (fs : FS)
    fs' url :
  download_asset w hash_str category fs = (Returned false, fs', [url]) →
  fs' !! get_asset_path w hash_str = None.
Proof.
  unfold download_asset.
  destruct (AUTO_DOWNLOAD_ASSETS w); simpl; [|done].
  destruct (url_of w hash_str category) as [u|]; [|done].
  destruct (makedirs_ok w); simpl; [|done].
  destruct (respond w u) as [| |chunks complete].
  - intros [= <- _]. apply on_request_exception_removes.
  - intros [= <- _]. apply on_request_exception_removes.
  - destruct (content_length_ok w); simpl; [|done].
    destruct (open_ok w); simpl; [|done].
    destruct (write_chunks chunks (writes_ok w) []) as [content written].
    destruct written; simpl; [|done].
    destruct complete; [done|].
    intros [= <- _]. apply on_request_exception_removes.
Qed.

End DownloadFacts.

(** C8: at this input the download fails, [download_asset] raises [OSError]
    instead of returning [False], and the partly written file stays at the
    asset path. *)
Theorem download_asset_partial_file_left :
  ContentStore.download_asset DownloadExample.world DownloadExample.hash_str
                              "bundle" ∅
  = (ContentStore.Raised ContentStore.OSError,
     {[ "dat/ab/ab12cd"%string := [1; 2; 3]%Z ]},
     [DownloadExample.url]).
Proof. reflexivity. Qed.

(** ** The other walkers on small bundles *)

Example preview_skips_empty_text :
  Block.block_index
    <$> Walkers.preview_loop
          [Some (PreviewItem.mk (Some "a"%string) (Some "first"%string));
           Some (PreviewItem.mk None (Some EmptyString));
           None;
           Some (PreviewItem.mk None (Some "fourth"%string))]
  = [Some (Some 0%Z); Some (Some 3%Z)].
Proof. reflexivity. Qed.

Example race_blocks_keep_keys :
  Block.block_index
    <$> Walkers.race_blocks
          [Some (RaceItem.mk (Some 7%Z) (Some "go"%string));
           Some (RaceItem.mk (Some 9%Z) None);
           Some (RaceItem.mk None (Some "goal"%string))]
  = [Some (Some 7%Z); Some None].
Proof. reflexivity. Qed.

Example home_timeline_indexes :
  (λ doc, Block.block_index <$> Py.get (Doc.text_blocks doc) [])
    <$> Walkers.parse_home_timeline CueExample.env ∅
  = Some [Some (Some 1%Z); Some (Some 2%Z); Some (Some 3%Z)].
Proof. reflexivity. Qed.

Example generic_needs_an_object :
  Walkers.parse_generic [] = None
  ∧ Walkers.parse_generic CueExample.env = Some (Walkers.extracted None []).
Proof. split; reflexivity. Qed.

(** * Further properties of the pipeline *)

(** ** Key derivation *)

(** X1. [derive_db_decryption_key] raises exactly when the base key has
    fewer than 13 bytes; otherwise the result has the length of the key, its
    byte at [i] is [key[i] ^ base_key[i % 13]], and deriving again from the
    result gives the key back. *)
Theorem derive_db_decryption_key_spec (key base_key : list Z) :
  (length base_key < 13 →
   KeyDerivation.derive_db_decryption_key key base_key = None)
  ∧ (13 ≤ length base_key →
     ∃ out,
       KeyDerivation.derive_db_decryption_key key base_key = Some out
       ∧ length out = length key
       ∧ (∀ i b, key !! i = Some b →
            ∃ k, base_key !! (i mod 13) = Some k
                 ∧ out !! i = Some (Z.lxor b k))
       ∧ KeyDerivation.derive_db_decryption_key out base_key = Some key).
Proof.
  unfold KeyDerivation.derive_db_decryption_key. split.
  - intros Hlt. apply Nat.ltb_lt in Hlt. by rewrite Hlt.
  - intros Hge. assert ((length base_key <? 13) = false) as ->
      by (apply Nat.ltb_ge; lia).
    eexists. split; [done|]. split; [apply length_imap|]. split.
    + intros i b Hb.
      destruct (lookup_lt_is_Some_2 base_key (i mod 13)) as [k Hk].
      { pose proof (Nat.mod_upper_bound i 13). lia. }
      exists k. split; [done|].
      by rewrite list_lookup_imap, Hb, Hk.
    + f_equal. apply list_eq. intros i. rewrite !list_lookup_imap.
      destruct (key !! i) as [b|]; simpl; [|done].
      by rewrite Z.lxor_assoc, Z.lxor_nilpotent, Z.lxor_0_r.
Qed.

Lemma derive_db_decryption_key_spec_witness :
  ∃ out,
    KeyDerivation.derive_db_decryption_key [1; 2; 3]%Z (replicate 16 7%Z)
      = Some out
    ∧ length out = 3
    ∧ (∀ i b, [1; 2; 3]%Z !! i = Some b →
         ∃ k, replicate 16 7%Z !! (i mod 13) = Some k
              ∧ out !! i = Some (Z.lxor b k))
    ∧ KeyDerivation.derive_db_decryption_key out (replicate 16 7%Z)
      = Some [1; 2; 3]%Z.
Proof.
  apply (proj2 (derive_db_decryption_key_spec [1; 2; 3]%Z (replicate 16 7%Z))).
  simpl. lia.
Defined.

Lemma final_key_lookup (base_key bundle_key_bytes : list Z) i j b :
  length bundle_key_bytes = 8 →
  base_key !! i = Some b → j < 8 →
  (base_key ≫= λ b', (λ k, Z.lxor b' k) <$> bundle_key_bytes) !! (8 * i + j)
  = Z.lxor b <$> (bundle_key_bytes !! j).
Proof.
  intros Hlen. revert i. induction base_key as [|b0 base_key IH];
    intros i Hb Hj; [done|].
  cbn [mbind list_bind]. destruct i as [|i].
  - injection Hb as ->. rewrite Nat.mul_0_r. simpl.
    rewrite lookup_app_l by (rewrite length_fmap; lia).
    by rewrite list_lookup_fmap.
  - rewrite lookup_app_r by (rewrite length_fmap; lia).
    rewrite length_fmap, Hlen.
    replace (8 * S i + j - 8) with (8 * i + j) by lia.
    by apply IH.
Qed.

(** X2. For a bundle key in the signed 64-bit range,
    [create_asset_final_key] returns a key eight times as long as the base
    key whose byte at [8 * i + j] is [base_key[i]] XORed with byte [j] of the
    little-endian bundle key; outside that range it raises. *)
Theorem create_asset_final_key_spec (base_key : list Z) (bundle_key_int : Z) :
  ((- 2 ^ 63 ≤ bundle_key_int < 2 ^ 63)%Z →
   ∃ final_key,
     KeyDerivation.create_asset_final_key base_key bundle_key_int
       = Some final_key
     ∧ length final_key = 8 * length base_key
     ∧ ∀ i j b, base_key !! i = Some b → j < 8 →
         final_key !! (8 * i + j)
         = Some (Z.lxor b (Z.land (Z.shiftr bundle_key_int (8 * Z.of_nat j))
                                  255)))
  ∧ (¬ (- 2 ^ 63 ≤ bundle_key_int < 2 ^ 63)%Z →
     KeyDerivation.create_asset_final_key base_key bundle_key_int = None).
Proof.
  unfold KeyDerivation.create_asset_final_key, KeyDerivation.to_bytes8.
  split.
  - intros [Hlo Hhi].
    assert (((- 2 ^ 63 <=? bundle_key_int) && (bundle_key_int <? 2 ^ 63))%Z
            = true) as ->.
    { apply andb_true_iff. split; [by apply Z.leb_le | by apply Z.ltb_lt]. }
    cbn [mbind option_bind]. eexists. split; [reflexivity|]. split.
    + induction base_key as [|b base_key IH]; [done|].
      cbn [mbind list_bind]. rewrite length_app, IH. simpl. lia.
    + intros i j b Hb Hj.
      rewrite (final_key_lookup _ _ i j b); [|done|done|done].
      rewrite list_lookup_fmap.
      rewrite (lookup_seq_lt 0 8 j) by done. done.
  - intros Hout.
    assert (((- 2 ^ 63 <=? bundle_key_int) && (bundle_key_int <? 2 ^ 63))%Z
            = false) as ->; [|done].
    apply andb_false_iff.
    destruct (Z.leb_spec (- 2 ^ 63) bundle_key_int);
      destruct (Z.ltb_spec bundle_key_int (2 ^ 63)); try (by left);
      try (by right). lia.
Qed.

Lemma create_asset_final_key_spec_witness :
  ∃ final_key,
    KeyDerivation.create_asset_final_key KeyDerivation.ASSET_BASE_KEY 999
      = Some final_key
    ∧ length final_key = 8 * length KeyDerivation.ASSET_BASE_KEY
    ∧ ∀ i j b, KeyDerivation.ASSET_BASE_KEY !! i = Some b → j < 8 →
        final_key !! (8 * i + j)
        = Some (Z.lxor b (Z.land (Z.shiftr 999 (8 * Z.of_nat j)) 255)).
Proof.
  apply (proj1 (create_asset_final_key_spec KeyDerivation.ASSET_BASE_KEY 999)).
  lia.
Defined.

(** X3. A payload of at most 256 bytes passes through [decrypt_asset_data]
    unchanged whatever the keystream, the empty one included; with an empty
    keystream a longer payload raises. *)
Theorem decrypt_asset_data_short_or_keyless (data final_key : list Z) :
  (length data ≤ 256 →
   KeyDerivation.decrypt_asset_data data final_key = Some data)
  ∧ (256 < length data →
     KeyDerivation.decrypt_asset_data data [] = None).
Proof.
  split; [|apply decrypt_asset_data_empty_key].
  intros Hle. unfold KeyDerivation.decrypt_asset_data.
  by replace (length data - 256) with 0 by lia.
Qed.

Lemma decrypt_asset_data_short_or_keyless_witness :
  KeyDerivation.decrypt_asset_data [1; 2; 3]%Z [] = Some [1; 2; 3]%Z
  ∧ KeyDerivation.decrypt_asset_data (replicate 300 0%Z) [] = None.
Proof.
  split.
  - apply (proj1 (decrypt_asset_data_short_or_keyless [1; 2; 3]%Z [])).
    simpl. lia.
  - apply (proj2 (decrypt_asset_data_short_or_keyless (replicate 300 0%Z) [])).
    rewrite length_replicate. lia.
Defined.

(** ** AssetIndex and ContentStore *)

(** X4. In [get_asset_info] a query that raises counts as a miss: when the
    exact query raises, the result is that of the pattern query, and when
    that one raises or finds nothing the result is the not-found pair.  A
    hash is always returned together with a key. *)
Theorem get_asset_info_query_errors (cursor : AssetIndex.Cursor)
    (name : string) :
  (AssetIndex.select_exact cursor name = None →
   AssetIndex.get_asset_info cursor name
   = match AssetIndex.select_like cursor (name +:+ "%") with
     | Some (Some row) => AssetIndex.row_info row
     | _ => (None, None)
     end)
  ∧ (is_Some (AssetIndex.get_asset_info cursor name).1
     ↔ is_Some (AssetIndex.get_asset_info cursor name).2).
Proof.
  unfold AssetIndex.get_asset_info, AssetIndex.row_info. split.
  - by intros ->.
  - destruct (AssetIndex.select_exact cursor name) as [[row|]|];
      [by split | |];
      destruct (AssetIndex.select_like cursor (name +:+ "%")) as [[row|]|];
      simpl; split; intros [? ?]; try done; by eexists.
Qed.

Lemma get_asset_info_query_errors_witness :
  AssetIndex.get_asset_info
    (AssetIndex.mkCursor (λ _, None)
       (AssetIndex.select_like (AssetIndex.table_cursor IndexExample.rows)))
    "aX"
  = (Some "ab12cd"%string, Some 999%Z).
Proof.
  exact (proj1 (get_asset_info_query_errors
                  (AssetIndex.mkCursor (λ _, None)
                     (AssetIndex.select_like
                        (AssetIndex.table_cursor IndexExample.rows)))
                  "aX") eq_refl).
Defined.

Lemma write_chunks_complete chunks budget content written :
  ContentStore.write_chunks chunks budget content = (written, true) →
  written = content ++ concat chunks.
Proof.
  revert budget content.
  induction chunks as [|chunk chunks IH]; intros budget content; simpl.
  - intros [= <-]. by rewrite app_nil_r.
  - destruct budget as [[|k]|]; [done| |];
      intros ->%IH; by rewrite <- app_assoc.
Qed.

(** After [download_asset] has returned [True] the file is in the store. *)
Lemma download_asset_true_stored (w : ContentStore.World)
    (hash_str category : string) (fs fs' : ContentStore.FS)
    (urls : list string) :
  ContentStore.download_asset w hash_str category fs
    = (ContentStore.Returned true, fs', urls) →
  is_Some (fs' !! ContentStore.get_asset_path w hash_str).
Proof.
  unfold ContentStore.download_asset.
  destruct (ContentStore.AUTO_DOWNLOAD_ASSETS w); simpl; [|done].
  destruct (ContentStore.url_of w hash_str category) as [url|]; [|done].
  destruct (ContentStore.makedirs_ok w); simpl; [|done].
  destruct (ContentStore.respond w url) as [| |chunks complete];
    [done|done|].
  destruct (ContentStore.content_length_ok w); simpl; [|done].
  destruct (ContentStore.open_ok w); simpl; [|done].
  destruct (ContentStore.write_chunks chunks (ContentStore.writes_ok w) [])
    as [content written].
  destruct written; simpl; [|done].
  destruct complete; [|done].
  intros [= <- <-]. rewrite lookup_insert_eq. by eexists.
Qed.

(** X5. [download_asset] returns [True] only when the flag is on, the
    category is known, and the whole body was received and written: one
    request was made and the file at the asset path holds the chunks in
    order; the other files are as before. *)
Theorem download_asset_success (w : ContentStore.World)
    (hash_str category : string) (fs fs' : ContentStore.FS)
    (urls : list string) :
  ContentStore.download_asset w hash_str category fs
    = (ContentStore.Returned true, fs', urls) →
  ContentStore.AUTO_DOWNLOAD_ASSETS w = true
  ∧ ∃ url chunks,
      ContentStore.url_of w hash_str category = Some url
      ∧ ContentStore.respond w url = ContentStore.Body chunks true
      ∧ urls = [url]
      ∧ fs' = <[ContentStore.get_asset_path w hash_str := concat chunks]> fs.
Proof.
  unfold ContentStore.download_asset.
  destruct (ContentStore.AUTO_DOWNLOAD_ASSETS w); simpl; [|done].
  destruct (ContentStore.url_of w hash_str category) as [url|]; [|done].
  destruct (ContentStore.makedirs_ok w); simpl; [|done].
  destruct (ContentStore.respond w url) as [| |chunks complete] eqn:Hresp;
    [done|done|].
  destruct (ContentStore.content_length_ok w); simpl; [|done].
  destruct (ContentStore.open_ok w); simpl; [|done].
  destruct (ContentStore.write_chunks chunks (ContentStore.writes_ok w) [])
    as [content written] eqn:Hwrite.
  destruct written; simpl; [|done].
  destruct complete; [|done].
  intros [= <- <-]. split; [done|].
  exists url, chunks. apply write_chunks_complete in Hwrite. by subst.
Qed.

Lemma download_asset_success_witness :
  ContentStore.AUTO_DOWNLOAD_ASSETS StoreExample.world = true
  ∧ ∃ url chunks,
      ContentStore.url_of StoreExample.world "ab12cd" "bundle" = Some url
      ∧ ContentStore.respond StoreExample.world url
        = ContentStore.Body chunks true
      ∧ [DownloadExample.url] = [url]
      ∧ ({[ "dat/ab/ab12cd"%string := [1; 2; 3; 4; 5; 6]%Z ]}
           : ContentStore.FS)
        = <[ContentStore.get_asset_path StoreExample.world "ab12cd"
              := concat chunks]> ∅.
Proof.
  exact (download_asset_success StoreExample.world "ab12cd" "bundle" ∅
           {[ "dat/ab/ab12cd"%string := [1; 2; 3; 4; 5; 6]%Z ]}
           [DownloadExample.url] eq_refl).
Defined.

(** ** BundleDecoder *)

Section BundleFacts.
Import AssetManager.

(** X6. [ensure_asset_is_ready] requests nothing and leaves the files as
    they are when the index has no record of the name, when the file is
    already in the local store (its path is returned), and when the file is
    missing but the auto-download flag is off. *)
Theorem ensure_asset_is_ready_offline (cursor : AssetIndex.Cursor)
    (w : ContentStore.World) (asset_name category : string)
    (fs : ContentStore.FS) :
  ((AssetIndex.get_asset_info cursor asset_name).1 = None →
   ensure_asset_is_ready cursor w asset_name category fs
   = (Done None, fs, []))
  ∧ (∀ hash_str,
       (AssetIndex.get_asset_info cursor asset_name).1 = Some hash_str →
       Py.truthy hash_str = true →
       (is_Some (fs !! ContentStore.get_asset_path w hash_str) →
        ensure_asset_is_ready cursor w asset_name category fs
        = (Done (Some (ContentStore.get_asset_path w hash_str)), fs, []))
       ∧ (fs !! ContentStore.get_asset_path w hash_str = None →
          ContentStore.AUTO_DOWNLOAD_ASSETS w = false →
          ensure_asset_is_ready cursor w asset_name category fs
          = (Done None, fs, []))).
Proof.
  unfold ensure_asset_is_ready.
  destruct (AssetIndex.get_asset_info cursor asset_name) as [hash key].
  simpl. split.
  - by intros ->.
  - intros hash_str -> Htruthy. rewrite Htruthy. simpl. split.
    + intros Hpresent. by rewrite bool_decide_eq_true_2.
    + intros Hmissing Hoff.
      rewrite bool_decide_eq_false_2 by (rewrite Hmissing; by intros [? ?]).
      by rewrite download_asset_disabled.
Qed.

(** X7. Once [ensure_asset_is_ready] has returned a path, the file is in the
    local store, and a second call returns the same path without any
    request and without touching the files. *)
Theorem ensure_asset_is_ready_idempotent (cursor : AssetIndex.Cursor)
    (w : ContentStore.World) (asset_name category : string)
    (fs fs' : ContentStore.FS) (path : string) (urls : list string) :
  ensure_asset_is_ready cursor w asset_name category fs
    = (Done (Some path), fs', urls) →
  is_Some (fs' !! path)
  ∧ ∀ category',
      ensure_asset_is_ready cursor w asset_name category' fs'
      = (Done (Some path), fs', []).
Proof.
  unfold ensure_asset_is_ready.
  destruct (AssetIndex.get_asset_info cursor asset_name) as [[hash|] key];
    [|done].
  destruct (Py.truthy hash); simpl; [|done].
  case_bool_decide as Hpresent.
  - intros [= <- <- <-]. split; [done|]. intros category'.
    by rewrite bool_decide_eq_true_2.
  - destruct (ContentStore.download_asset w hash category fs)
      as [[[[|]|exn] fs1] urls1] eqn:Hdl; try done.
    intros [= <- <- <-].
    apply download_asset_true_stored in Hdl as Hnow.
    split; [done|]. intros category'. by rewrite bool_decide_eq_true_2.
Qed.

End BundleFacts.

Lemma ensure_asset_is_ready_offline_witness :
  AssetManager.ensure_asset_is_ready StoreExample.cursor StoreExample.offline
    "missing" "bundle" ∅
  = (AssetManager.Done None, ∅, [])
  ∧ AssetManager.ensure_asset_is_ready StoreExample.cursor
      StoreExample.offline StoreExample.asset_name "bundle" StoreExample.fs
    = (AssetManager.Done (Some "dat/ab/ab12cd"%string), StoreExample.fs, [])
  ∧ AssetManager.ensure_asset_is_ready StoreExample.cursor
      StoreExample.offline StoreExample.asset_name "bundle" ∅
    = (AssetManager.Done None, ∅, []).
Proof.
  split; [|split].
  - exact (proj1 (ensure_asset_is_ready_offline StoreExample.cursor
                    StoreExample.offline "missing" "bundle" ∅) eq_refl).
  - exact (proj1 (proj2 (ensure_asset_is_ready_offline StoreExample.cursor
                           StoreExample.offline StoreExample.asset_name
                           "bundle" StoreExample.fs)
                    "ab12cd"%string eq_refl eq_refl)
             (ex_intro _ StoreExample.stored eq_refl)).
  - exact (proj2 (proj2 (ensure_asset_is_ready_offline StoreExample.cursor
                           StoreExample.offline StoreExample.asset_name
                           "bundle" ∅)
                    "ab12cd"%string eq_refl eq_refl)
             eq_refl eq_refl).
Defined.

Lemma ensure_asset_is_ready_idempotent_witness :
  is_Some (({[ "dat/ab/ab12cd"%string := [1; 2; 3; 4; 5; 6]%Z ]}
             : ContentStore.FS) !! "dat/ab/ab12cd"%string)
  ∧ ∀ category',
      AssetManager.ensure_asset_is_ready StoreExample.cursor
        StoreExample.world StoreExample.asset_name category'
        {[ "dat/ab/ab12cd"%string := [1; 2; 3; 4; 5; 6]%Z ]}
      = (AssetManager.Done (Some "dat/ab/ab12cd"%string),
         {[ "dat/ab/ab12cd"%string := [1; 2; 3; 4; 5; 6]%Z ]}, []).
Proof.
  exact (ensure_asset_is_ready_idempotent StoreExample.cursor
           StoreExample.world StoreExample.asset_name "bundle" ∅
           {[ "dat/ab/ab12cd"%string := [1; 2; 3; 4; 5; 6]%Z ]}
           "dat/ab/ab12cd" [DownloadExample.url] eq_refl).
Defined.

Section LoadBundleFacts.
Import AssetManager.

Variable unity_load : list Z → option Scene.Env.

Lemma decrypt_asset_data_undo (payload stored final_key : list Z) :
  final_key ≠ [] →
  KeyDerivation.decrypt_asset_data payload final_key = Some stored →
  length stored = length payload
  ∧ KeyDerivation.decrypt_asset_data stored final_key = Some payload.
Proof.
  intros Hkey. rewrite (decrypt_asset_data_xored final_key Hkey).
  intros [= <-]. rewrite xored_length. split; [done|].
  rewrite (decrypt_asset_data_xored final_key Hkey), xored_length.
  by rewrite xored_involutive.
Qed.

(** X8. For a bundle that is in the index and in the local store,
    [load_bundle] requests nothing and leaves the files alone.  It hands the
    stored bytes to the loader as they are when the key is missing or 0 or
    the file has at most 256 bytes; and when the stored bytes are a longer
    payload put through the stream cipher with the bundle's key, it hands
    the loader that payload. *)
Theorem load_bundle_stored (cursor : AssetIndex.Cursor)
    (w : ContentStore.World) (asset_name hash_str : string)
    (encryption_key_int : option Z) (raw_data : list Z)
    (fs : ContentStore.FS) :
  AssetIndex.get_asset_info cursor asset_name
    = (Some hash_str, encryption_key_int) →
  Py.truthy hash_str = true →
  fs !! ContentStore.get_asset_path w hash_str = Some raw_data →
  ((encryption_key_int = None ∨ encryption_key_int = Some 0%Z
    ∨ length raw_data ≤ 256) →
   load_bundle unity_load cursor w asset_name fs
   = (Done (unity_load raw_data), fs, []))
  ∧ (∀ key final_key payload,
       encryption_key_int = Some key → key ≠ 0%Z →
       KeyDerivation.create_asset_final_key KeyDerivation.ASSET_BASE_KEY key
         = Some final_key →
       256 < length payload →
       KeyDerivation.decrypt_asset_data payload final_key = Some raw_data →
       load_bundle unity_load cursor w asset_name fs
       = (Done (unity_load payload), fs, [])).
Proof.
  intros Hinfo Htruthy Hfile.
  assert (load_bundle unity_load cursor w asset_name fs
          = (Done (decode_bundle unity_load encryption_key_int raw_data),
             fs, [])) as ->.
  { unfold load_bundle, ensure_asset_is_ready. rewrite Hinfo, Htruthy. simpl.
    rewrite bool_decide_eq_true_2 by (rewrite Hfile; by eexists).
    by rewrite Hfile. }
  unfold decode_bundle. split.
  - intros [-> | [-> | Hshort]]; [done | done |].
    destruct encryption_key_int as [key|]; [|done].
    assert ((256 <? length raw_data) = false) as ->
      by (apply Nat.ltb_ge; lia).
    by rewrite andb_false_r.
  - intros key final_key payload -> Hkey Hcreate Hlong Hstored.
    assert (final_key ≠ []) as Hnonempty.
    { apply create_asset_final_key_length in Hcreate.
      intros ->. simpl in Hcreate. lia. }
    destruct (decrypt_asset_data_undo _ _ _ Hnonempty Hstored)
      as [Hlen Hundo].
    assert ((key =? 0)%Z = false) as -> by (by apply Z.eqb_neq).
    assert ((256 <? length raw_data) = true) as ->
      by (apply Nat.ltb_lt; lia).
    simpl. rewrite Hcreate. simpl. by rewrite Hundo.
Qed.

End LoadBundleFacts.

Lemma load_bundle_stored_witness :
  AssetManager.load_bundle StoreExample.unity_load StoreExample.cursor
    StoreExample.offline StoreExample.asset_name StoreExample.fs
  = (AssetManager.Done (StoreExample.unity_load StoreExample.payload),
     StoreExample.fs, []).
Proof.
  apply (proj2 (load_bundle_stored StoreExample.unity_load StoreExample.cursor
                  StoreExample.offline StoreExample.asset_name "ab12cd"
                  (Some 999%Z) StoreExample.stored StoreExample.fs
                  eq_refl eq_refl eq_refl)
           999%Z StoreExample.final_key StoreExample.payload eq_refl).
  - discriminate.
  - reflexivity.
  - vm_compute. lia.
  - reflexivity.
Defined.

(** ** UI-animation walker: what is visited and what is emitted *)





Example graph_example_visits :
  Walkers.visited GraphExample.st = [1%Z; 2%Z]
  ∧ Block.jpText <$> Walkers.ui_text_blocks GraphExample.st
    = [Some "one"%string; Some "two"%string; Some "deux"%string].
Proof. split; reflexivity. Qed.



(** ** Walkers: blocks start untranslated *)

Section FreshBlocks.
Import Scene Walkers.

Lemma Forall_omap_intro {A B} (f : A → option B) (P : B → Prop) (l : list A) :
  (∀ x y, f x = Some y → P y) → Forall P (omap f l).
Proof.
  intros Hf. apply Forall_forall. intros y.
  rewrite list_elem_of_omap. intros (x & _ & Hy). by apply (Hf x).
Qed.

Lemma story_block_data_fresh block_idx path_id looked_up_name jp_name d :
  fresh_block (story_block_data block_idx path_id looked_up_name jp_name d).
Proof.
  split; [done|]. split; [by right|]. split; simpl.
  - intros cs [= <-]. apply Forall_omap_intro.
    intros [c|] y; simpl; [|done]. by intros [= <-].
  - intros cs [= <-]. apply Forall_omap_intro.
    intros [c|] y; simpl; [|done]. by intros [= <-].
Qed.

Lemma story_blocks_fresh env char_names block_list :
  Forall fresh_block (text_blocks (story_loop env char_names block_list)).
Proof.
  unfold story_loop. rewrite story_loop_text_blocks. simpl.
  apply Forall_omap_intro. intros [block_idx block] b. simpl.
  unfold story_block_of. destruct (story_clip _ _ _); simpl; [|done].
  intros [= <-]. apply story_block_data_fresh.
Qed.

Lemma home_block_fresh objects char_names i block b :
  home_block objects char_names i block = Some b → fresh_block b.
Proof.
  unfold home_block. intros Hb.
  repeat (match type of Hb with
          | context [mbind _ ?o] => destruct o; simpl in Hb; [|done]
          | context [if ?c then _ else _] => destruct c; simpl in Hb
          end; try done).
  all: injection Hb as <-; split; [done|]; split; [by left|]; split; simpl;
    [|done];
    intros cs [= <-]; apply Forall_omap_intro;
    intros [c|] y; simpl; [|done]; by intros [= <-].
Qed.

Lemma preview_block_fresh i entry b :
  preview_block i entry = Some b → fresh_block b.
Proof.
  unfold preview_block. intros Hb.
  repeat (match type of Hb with
          | context [mbind _ ?o] => destruct o; simpl in Hb; [|done]
          | context [if ?c then _ else _] => destruct c; simpl in Hb
          end; try done).
  all: injection Hb as <-; split; [done|]; split; [by right|]; by split.
Qed.

Lemma race_blocks_fresh textData : Forall fresh_block (race_blocks textData).
Proof.
  apply Forall_omap_intro. intros [item|] b; simpl; [|done].
  destruct (RaceItem.text item); simpl; [|done].
  intros [= <-]. split; [done|]. split; [by left|]. by split.
Qed.

Lemma lyric_rows_fresh rows blocks :
  lyric_rows rows = Some blocks → Forall fresh_block blocks.
Proof.
  revert blocks. induction rows as [|row rows IH]; intros blocks; simpl.
  - intros [= <-]. constructor.
  - destruct row as [|time [|text more]]; [apply IH| |].
    + destruct (Py.truthy time); [done | apply IH].
    + destruct (Py.truthy time); [|apply IH].
      destruct (lyric_rows rows) as [bs|]; [|done]. simpl.
      intros [= <-]. constructor; [|by apply IH].
      split; [done|]. split; [by left|]. by split.
Qed.

Lemma text_units_fresh motion_idx motion_param :
  Forall fresh_block (text_units motion_idx motion_param).
Proof.
  apply Forall_omap_intro. intros [text_idx entry] b. simpl.
  unfold text_unit. destruct entry as [text_param|]; simpl; [|done].
  destruct (Py.truthy _); [|done]. intros [= <-].
  split; [done|]. split; [by left|]. by split.
Qed.

Lemma fresh_entered motion_map motion_index_map i st :
  Forall fresh_block (ui_text_blocks st) →
  i ≠ 0%Z → i ∉ processed_motion_ids st →
  Forall fresh_block
    (ui_text_blocks (entered motion_map motion_index_map i st)).
Proof.
  intros Hst _ _. unfold entered, units_of. simpl.
  apply Forall_app. split; [done|].
  destruct (Py.dict_get (Some i) motion_map); [|constructor].
  apply text_units_fresh.
Qed.

Variable csv_reader : list string → option (list (list string)).
Variable utf8_decode : list Z → option string.
Variable recursion_limit : nat.

(** The walkers leave every block untranslated. *)
Lemma run_parser_fresh (manager : Extractor.Manager)
    (asset_type : string) (env : Env) (fs fs' : Extractor.FS) (doc : Doc.t)
    (blocks : list Block.t) :
  Extractor.run_parser csv_reader utf8_decode recursion_limit manager asset_type
    env fs
    = (inr (Some doc), fs') →
  Doc.text_blocks doc = Some blocks →
  Forall fresh_block blocks.
Proof.
  unfold Extractor.run_parser, Extractor.ret, Extractor.raise.
  repeat (match goal with
          | |- context [if String.eqb asset_type ?t then _ else _] =>
              destruct (String.eqb asset_type t)
          end).
  - unfold parse_story_timeline.
    destruct (find_timeline env); simpl; [|done].
    intros [= <- _] [= <-]. apply story_blocks_fresh.
  - intros [= Hdoc _]. apply parse_race_story_Some in Hdoc
      as (obj & td & _ & _ & Hblocks).
    rewrite Hblocks. intros [= <-]. apply race_blocks_fresh.
  - intros [= Hdoc _] Hblocks. revert Hdoc.
    induction env as [|obj env IH]; simpl; [done|].
    destruct (is_type "TextAsset" obj); [|done].
    destruct (lyric_asset csv_reader utf8_decode obj) as [[|b bs]|]
      eqn:Hasset; try done.
    intros [= <-]. simpl in Hblocks. injection Hblocks as <-.
    unfold lyric_asset in Hasset.
    repeat (match type of Hasset with
            | context [mbind _ ?o] => destruct o; simpl in Hasset; [|done]
            end).
    by apply lyric_rows_fresh in Hasset.
  - unfold parse_home_timeline.
    destruct (find_timeline env) as [timeline|]; simpl; [|done].
    assert (Forall fresh_block
              (home_loop env (Extractor.char_names manager)
                         (Timeline.BlockList timeline))) as Hfresh.
    { unfold home_loop.
      rewrite (foldl_append_omap
                 (λ entry, home_block env (Extractor.char_names manager)
                                      entry.1 entry.2)).
      simpl. apply Forall_omap_intro. intros [i block] b.
      apply home_block_fresh. }
    destruct (home_loop _ _ _); [done|].
    by intros [= <- _] [= <-].
  - intros [= Hdoc _]. apply parse_preview_Some in Hdoc
      as (obj & arr & _ & _ & Hblocks).
    rewrite Hblocks. intros [= <-]. unfold preview_loop.
    rewrite (foldl_append_omap (λ entry, preview_block entry.1 entry.2)).
    simpl. apply Forall_omap_intro. intros [i entry] b.
    apply preview_block_fresh.
  - unfold parse_uianimation.
    destruct (find_main_mono env) as [main_mono|]; [|done].
    destruct (Py.get (MainMono._motionParameterList main_mono) [])
      as [|m l].
    + intros [= <- _] [= <-]. constructor.
    + destruct (uianimation_walk _ _ _) as [st|] eqn:Hwalk; [|done].
      simpl. intros [= <- _] [= <-].
      unfold uianimation_walk in Hwalk.
      apply (visit_roots_keeps _ _ (λ st, Forall fresh_block (ui_text_blocks st))
               (fresh_entered _ _) _ _ _ _ Hwalk).
      constructor.
  - intros [= Hdoc _]. revert Hdoc.
    induction env as [|obj env IH]; simpl; [done|].
    destruct (Py.truthy (type_name obj)); [|done].
    intros [= <-] [= <-]. constructor.
  - done.
Qed.

(** X11. Every block of every document a walker returns is untranslated:
    its translated text is empty, it has no translated speaker name, and
    the translated texts of its choices and coloured spans are empty.  This
    holds for all seven asset types of [PARSER_MAP]. *)
Theorem walkers_emit_fresh_blocks (manager : Extractor.Manager)
    (asset_type : string) (env : Env) (fs fs' : Extractor.FS) (doc : Doc.t)
    (blocks : list Block.t) :
  Extractor.run_parser csv_reader utf8_decode recursion_limit manager asset_type
    env fs
    = (inr (Some doc), fs') →
  Doc.text_blocks doc = Some blocks →
  Forall fresh_block blocks.
Proof. apply run_parser_fresh. Qed.

End FreshBlocks.

Lemma walkers_emit_fresh_blocks_witness :
  Forall fresh_block
    (Walkers.text_blocks
       (Walkers.story_loop CueExample.env ∅
          [CueExample.block_to 9; CueExample.block_to 10;
           CueExample.block_to 11; CueExample.block_to 12])).
Proof.
  exact (walkers_emit_fresh_blocks ExtractExample.no_csv
           ExtractExample.no_decode
           ExtractExample.recursion_limit ExtractExample.manager "story"
           CueExample.env ∅ ∅ _ _ eq_refl eq_refl).
Defined.

(** ** Lyrics walker: rows *)

Section LyricRows.
Import Scene Walkers.

Lemma lyric_rows_lone_time rows :
  Exists lone_time rows → lyric_rows rows = None.
Proof.
  induction 1 as [row rows (time & -> & Htime) | row rows _ IH]; simpl.
  - by rewrite Htime.
  - destruct row as [|time [|text more]]; [done| |].
    + by destruct (Py.truthy time).
    + rewrite IH. by destruct (Py.truthy time).
Qed.

Lemma lyric_rows_usable rows :
  ¬ Exists lone_time rows → lyric_rows rows = Some (omap lyric_of_row rows).
Proof.
  induction rows as [|row rows IH]; intros Hnone; [done|].
  assert (¬ Exists lone_time rows) as Hrest
    by (intros ?; apply Hnone; by right).
  specialize (IH Hrest). simpl.
  destruct row as [|time [|text more]]; [done| |].
  - destruct (Py.truthy time) eqn:Htime; [|done].
    destruct Hnone. left. by exists time.
  - cbn. rewrite IH. by destruct (Py.truthy time).
Qed.

Variable csv_reader : list string → option (list (list string)).
Variable utf8_decode : list Z → option string.

(** X12. For a [TextAsset] whose script parses into rows, the lyrics walker
    takes all or nothing: one row that has a non-empty time and no text
    field makes it pass over the whole asset, and otherwise its blocks are
    exactly the rows with a non-empty time, in order, rows with an empty
    first field being skipped. *)
Theorem lyric_asset_all_or_nothing (obj : Obj) (script : string)
    (rows : list (list string)) :
  read_typetree obj = Some (TextAssetTree (Some (ScriptStr script))) →
  Py.truthy script = true →
  csv_reader (drop 2 (Py.splitlines script)) = Some rows →
  (Exists lone_time rows → lyric_asset csv_reader utf8_decode obj = None)
  ∧ (¬ Exists lone_time rows →
     lyric_asset csv_reader utf8_decode obj
     = Some (omap lyric_of_row rows)).
Proof.
  intros Htree Hscript Hrows. unfold lyric_asset.
  rewrite Htree. simpl. rewrite Hscript. simpl. rewrite Hrows. simpl.
  split; [apply lyric_rows_lone_time | apply lyric_rows_usable].
Qed.

End LyricRows.

Lemma lyric_asset_all_or_nothing_witness :
  Walkers.lyric_asset LyricsExample.csv_unquoted LyricsExample.no_decode
                      BrokenLyrics.obj = None.
Proof.
  apply (proj1 (lyric_asset_all_or_nothing LyricsExample.csv_unquoted
                  LyricsExample.no_decode BrokenLyrics.obj
                  BrokenLyrics.script BrokenLyrics.rows
                  eq_refl eq_refl eq_refl)).
  right. left. by exists "2500"%string.
Defined.

(** ** Story walker: what a block records *)

Section StoryRecords.
Import Scene Walkers.

Lemma fmap_omap_agree {A B B' C} (g : A → option B) (g' : A → option B')
    (f : B → C) (h : B' → C) (l : list A) :
  (∀ x, f <$> g x = h <$> g' x) →
  f <$> omap g l = h <$> omap g' l.
Proof.
  intros Hagree. induction l as [|x l IH]; [done|].
  cbn. specialize (Hagree x).
  destruct (g x), (g' x); simplify_eq/=; [|done].
  f_equal; [done | exact IH].
Qed.

Lemma story_blocks_field {C} (f : Block.t → C) (h : TextClip.t → C)
    env char_names block_list :
  (∀ block_idx path_id looked_up_name jp_name d,
     f (story_block_data block_idx path_id looked_up_name jp_name d) = h d) →
  f <$> text_blocks (story_loop env char_names block_list)
  = h <$> story_clips env char_names block_list.
Proof.
  intros Hfield. unfold story_loop, story_clips.
  rewrite story_loop_text_blocks. simpl.
  rewrite <- (omap_enumerate
                (λ block,
                   (λ found : Z * TextClip.t * option string * string,
                      found.1.1.2)
                     <$> story_clip (Py.dict_of path_id id env) char_names
                                    block)
                1 (drop 1 block_list)).
  apply fmap_omap_agree. intros [block_idx block]. unfold story_block_of.
  destruct (story_clip _ _ _)
    as [[[[path_id d] looked_up_name] jp_name]|]; simpl; [|done].
  by rewrite Hfield.
Qed.

(** X13. The blocks of a story document are the text clips of the unskipped
    timeline blocks, in order, and each records the clip's text, voice sheet
    and next block as read, and as [voiceIdx] the clip's own cue id: the
    renumbered cue id the walker computes is never the recorded one. *)
Theorem story_blocks_record_clips env char_names timeline :
  find_timeline env = Some timeline →
  let clips := story_clips env char_names (Timeline.BlockList timeline) in
  ∃ blocks,
    Doc.text_blocks <$> parse_story_timeline env char_names
      = Some (Some blocks)
    ∧ Block.jpText <$> blocks
      = (λ d, Some (Py.get (TextClip.Text d) EmptyString)) <$> clips
    ∧ Block.voiceIdx <$> blocks = (λ d, Some (TextClip.CueId d)) <$> clips
    ∧ Block.cueSheet <$> blocks = TextClip.VoiceSheetId <$> clips
    ∧ Block.nextBlock <$> blocks
      = (λ d, Some (Py.get (TextClip.NextBlock d) 0%Z)) <$> clips.
Proof.
  intros Hfind clips. unfold parse_story_timeline. rewrite Hfind. simpl.
  eexists. split; [done|].
  repeat split; by apply story_blocks_field.
Qed.

End StoryRecords.

Lemma story_blocks_record_clips_witness :
  ∃ blocks,
    Doc.text_blocks
      <$> Walkers.parse_story_timeline CueExample.env ∅ = Some (Some blocks)
    ∧ Block.voiceIdx <$> blocks = [Some (Some 10%Z); Some (Some 20%Z);
                                    Some (Some 30%Z)].
Proof.
  destruct (story_blocks_record_clips CueExample.env ∅
              (Timeline.mk None
                 [CueExample.block_to 9; CueExample.block_to 10;
                  CueExample.block_to 11; CueExample.block_to 12])
              eq_refl) as (blocks & Hdoc & _ & Hcue & _).
  by exists blocks.
Defined.

(** ** Merge: what it leaves alone *)

Section MergeFrame.
Import MergeEngine.

Variable similarity : string → string → Q.

Lemma set_text_blocks_same (d : Doc.t) :
  Doc.set_text_blocks (Doc.text_blocks d) d = d.
Proof. by destruct d. Qed.

(** X14. Merging against an old document that has no blocks (no
    [text_blocks] key, or an empty list) returns the new document as it
    is. *)
Theorem merge_translations_no_old_blocks (new_data old_data : Doc.t) :
  Py.get (Doc.text_blocks old_data) [] = [] →
  merge_translations similarity new_data (Some old_data) = new_data.
Proof.
  intros Hold. unfold merge_translations. rewrite Hold.
  assert (map (merge_block similarity [] (old_text_lookup []))
            <$> Doc.text_blocks new_data
          = Doc.text_blocks new_data) as ->;
    [|apply set_text_blocks_same].
  destruct (Doc.text_blocks new_data) as [new_blocks|]; [|done].
  simpl. f_equal. rewrite <- (map_id new_blocks) at 2.
  apply map_ext. intros nb. unfold merge_block, find_best_match.
  destruct (Block.jpText nb) as [jp_text|]; [|done].
  by destruct (Py.truthy jp_text).
Qed.

Lemma imap_choices_source_kept (ocs : list Choice.t) (f : nat → nat) ncs :
  Forall2 choice_source_kept ncs
    (imap (λ i new_choice,
             match ocs !! f i with
             | Some old_choice =>
                 Choice.set_enText
                   (Py.get (Choice.enText old_choice) EmptyString) new_choice
             | None => new_choice
             end) ncs).
Proof.
  revert f. induction ncs as [|nc ncs IH]; intros f; [constructor|].
  rewrite imap_cons. constructor; [|apply (IH (f ∘ S))].
  by destruct (ocs !! f 0).
Qed.

Lemma copy_choices_source_kept ocs ncs :
  Forall2 choice_source_kept ncs (copy_choices ocs ncs).
Proof. apply (imap_choices_source_kept ocs id). Qed.

Lemma copy_translation_source_kept bm nb :
  source_kept nb (copy_translation bm nb).
Proof.
  unfold source_kept, copy_translation.
  destruct nb as [? ? ? ? ? ? ? ? [ncs|] ? ? ? ? ? ? ? ?];
    destruct (Block.enName bm); destruct (Block.choices bm) as [ocs|];
    simpl; repeat split; try done;
    eexists; (split; [done|]);
    first [apply copy_choices_source_kept
          | apply Forall2_same_length_lookup_2; [done|];
            by intros i x y -> [= ->]].
Qed.

Lemma source_kept_refl nb : source_kept nb nb.
Proof.
  unfold source_kept. repeat split.
  destruct (Block.choices nb) as [ncs|]; [|done].
  exists ncs. split; [done|].
  apply Forall2_same_length_lookup_2; [done|].
  by intros i x y -> [= ->].
Qed.

Lemma copy_translation_enText bm nb :
  Block.enText (copy_translation bm nb)
  = Some (Py.get (Block.enText bm) EmptyString).
Proof.
  unfold copy_translation.
  destruct nb as [? ? ? ? ? ? ? ? [ncs|] ? ? ? ? ? ? ? ?];
    destruct (Block.enName bm); by destruct (Block.choices bm).
Qed.

Lemma find_best_match_old old_blocks jp_text bm :
  find_best_match similarity old_blocks (old_text_lookup old_blocks) jp_text
    = Some bm →
  bm ∈ old_blocks.
Proof.
  unfold find_best_match. rewrite old_text_lookup_last.
  pose proof (max_by_spec
                (λ old_block,
                   similarity jp_text
                     (Py.get (Block.jpText old_block) EmptyString))
                old_blocks) as Hmax.
  destruct (last (exact_matches old_blocks (Py.strip jp_text)))
    as [exact|] eqn:Hexact.
  - apply exact_match_last in Hexact as (Hin & Htext & _).
    rewrite (has_text_truthy _ Htext). by intros [= <-].
  - intros Hbest. rewrite Hbest in Hmax. by destruct Hmax.
Qed.

Lemma merge_block_frame old_blocks nb :
  let r := merge_block similarity old_blocks (old_text_lookup old_blocks) nb
  in source_kept nb r
     ∧ translation_from old_blocks nb r
     ∧ (has_text nb = false → r = nb).
Proof.
  unfold merge_block, has_text.
  destruct (Block.jpText nb) as [jp_text|];
    [|split; [apply source_kept_refl | split; [by left | done]]].
  destruct (Py.truthy jp_text); simpl;
    [|split; [apply source_kept_refl | split; [by left | done]]].
  destruct (find_best_match _ _ _ _) as [bm|] eqn:Hbest;
    [|split; [apply source_kept_refl | split; [by left | done]]].
  destruct (accepted similarity jp_text bm);
    [|split; [apply source_kept_refl | split; [by left | done]]].
  split; [apply copy_translation_source_kept|]. split; [|done].
  right. exists bm. split; [by eapply find_best_match_old|].
  apply copy_translation_enText.
Qed.

(** X15. A merge changes nothing but translations: the document keeps its
    other fields, the number and order of its blocks, and every field of
    every block and choice other than the translated text, the translated
    speaker name and the choices' translated texts; a block without a
    source text is returned as it is; and a translated text that changed is
    the translated text of one of the old blocks. *)
Theorem merge_translations_frame (new_data old_data : Doc.t) :
  let old_blocks := Py.get (Doc.text_blocks old_data) [] in
  let merged := merge_translations similarity new_data (Some old_data) in
  same_header new_data merged
  ∧ match Doc.text_blocks new_data with
    | None => Doc.text_blocks merged = None
    | Some new_blocks =>
        ∃ blocks,
          Doc.text_blocks merged = Some blocks
          ∧ Forall2 (λ nb r,
                       source_kept nb r
                       ∧ translation_from old_blocks nb r
                       ∧ (has_text nb = false → r = nb))
                    new_blocks blocks
    end.
Proof.
  intros old_blocks merged. split; [done|].
  unfold merged, merge_translations. simpl.
  destruct (Doc.text_blocks new_data) as [new_blocks|]; [|done].
  eexists. split; [done|].
  apply Forall2_fmap_r, Forall_Forall2_diag, Forall_forall.
  intros nb _. apply merge_block_frame.
Qed.

End MergeFrame.

Lemma merge_translations_no_old_blocks_witness :
  MergeEngine.merge_translations Levenshtein.ratio MergeExample.new_doc
    (Some (MergeExample.doc_of []))
  = MergeExample.new_doc.
Proof.
  exact (merge_translations_no_old_blocks Levenshtein.ratio
           MergeExample.new_doc (MergeExample.doc_of []) eq_refl).
Defined.

(** ** Extraction: results and errors *)

Section ExtractResults.
Import Extractor.

Variable parse_from_path : string → string → option StoryId.t.
Variable workspace_file : string → StoryId.t → string.
Variable csv_reader : list string → option (list (list string)).
Variable utf8_decode : list Z → option string.
Variable recursion_limit : nat.
Variable similarity : string → string → Q.
Variable read_only : string → bool.

Lemma run_parser_cases manager asset_type env fs :
  snd (run_parser csv_reader utf8_decode recursion_limit manager asset_type
                  env fs) = fs
  ∧ match fst (run_parser csv_reader utf8_decode recursion_limit manager
                          asset_type env fs)
    with
    | inl KeyError => asset_type ∉ parser_types
    | inl RecursionError =>
        asset_type = "uianimation"%string
        ∧ Walkers.parse_uianimation recursion_limit env = None
    | inl _ => False
    | inr _ => asset_type ∈ parser_types
    end.
Proof using Type.
  clear parse_from_path workspace_file similarity read_only.
  unfold run_parser, ret, raise, parser_types.
  repeat (match goal with
          | |- context [if String.eqb asset_type ?t then _ else _] =>
              destruct (String.eqb_spec asset_type t) as [->|?]
          end; [simpl; split; [done | set_solver]|]).
  destruct (String.eqb_spec asset_type "uianimation") as [->|?].
  - destruct (Walkers.parse_uianimation recursion_limit env); simpl;
      (split; [done|]); [set_solver | done].
  - destruct (String.eqb_spec asset_type "generic") as [->|?]; simpl;
      (split; [done|]); set_solver.
Qed.

(** X16. A document that [extract_asset_data] returns carries the asset
    name and the asset type it was asked for; and when no workspace path is
    given, or no file is there, every block of it is untranslated. *)
Theorem extract_asset_data_first_extraction (manager : Manager)
    (asset_type asset_name : string) (workspace_path : option string)
    (fs : FS) (doc : Doc.t) :
  fst (extract_asset_data parse_from_path csv_reader utf8_decode
         recursion_limit similarity manager asset_type asset_name
         workspace_path fs) = inr doc →
  Doc.asset_name doc = Some asset_name
  ∧ Doc.type doc = Some asset_type
  ∧ ((∀ path, workspace_path = Some path → fs !! path = None) →
     ∀ blocks, Doc.text_blocks doc = Some blocks →
               Forall fresh_block blocks).
Proof using Type.
  unfold extract_asset_data, bind.
  destruct (parse_from_path asset_type asset_name) as [story_id|];
    [|done].
  destruct (load_bundle manager asset_name) as [exn|[env|]]; [done| |done].
  unfold ret at 1 2. simpl.
  destruct (run_parser csv_reader utf8_decode recursion_limit manager
                       asset_type env fs)
    as [[exn|[parsed|]] fs1] eqn:Hrun; try done.
  pose proof (run_parser_cases manager asset_type env fs) as [Hfs _].
  rewrite Hrun in Hfs. simpl in Hfs. subst fs1.
  unfold ret at 1. simpl.
  assert (∀ blocks, Doc.text_blocks parsed = Some blocks →
                    Forall fresh_block blocks) as Hfresh
    by (intros blocks Hb; eapply run_parser_fresh; [exact Hrun | exact Hb]).
  destruct (negb (asset_type =? "uianimation")%string);
    [|by intros [= <-]].
  unfold merge_translations, read_file, bind, ret, raise.
  destruct workspace_path as [path|]; [|by intros [= <-]].
  destruct (fs !! path) as [[old_data|]|] eqn:Hfile; simpl; [|done|].
  - intros [= <-]. do 2 (split; [done|]). intros Hnone.
    by rewrite (Hnone path eq_refl) in Hfile.
  - by intros [= <-].
Qed.


(** X18. When the asset name parses, [process_asset] raises nothing,
    whatever the loader or the walker raises, and returns ["skipped"] or
    ["failed"], never ["success"]: ["skipped"] exactly when the workspace
    file exists and neither [update] nor [overwrite] is set, and then the
    files are untouched.  Of the files of the workspace and the mod
    directory none but the workspace file changes in any case, so the file
    under the mod directory is never written.  (The asset store, where
    [load_bundle] may have put a downloaded bundle, is none of these
    files.) *)
Theorem process_asset_outcomes (manager : Manager)
    (asset_type asset_name workspace_dir mod_dir : string)
    (update overwrite : bool) (story_id : StoryId.t) (fs : FS) :
  parse_from_path asset_type asset_name = Some story_id →
  let workspace_full_path := workspace_file workspace_dir story_id in
  ∃ status fs',
    process_asset parse_from_path workspace_file csv_reader utf8_decode
                  recursion_limit similarity read_only manager asset_type
                  asset_name workspace_dir mod_dir update overwrite fs
      = (inr status, fs')
    ∧ (status = "skipped"%string ∨ status = "failed"%string)
    ∧ (status = "skipped"%string
       ↔ is_Some (fs !! workspace_full_path)
         ∧ update = false ∧ overwrite = false)
    ∧ (status = "skipped"%string → fs' = fs)
    ∧ ∀ path, path ≠ workspace_full_path → fs' !! path = fs !! path.
Proof.
  intros Hparse ws.
  pose proof (extract_asset_data_reads_only parse_from_path csv_reader
                utf8_decode recursion_limit similarity manager asset_type
                asset_name (if update then Some ws else None) fs) as Hfs.
  unfold process_asset, bind, try_except, exists_file, write_json,
    convert_workspace_data, ret, raise.
  rewrite Hparse. fold ws.
  case_bool_decide as Hpresent; simpl.
  - destruct update, overwrite; simpl.
    4: { exists "skipped"%string, fs. repeat split; try done. by left. }
    all: destruct (extract_asset_data _ _ _ _ _ _ _ _ _ _) as [[exn|doc] fs1];
      simpl in Hfs; subst fs1; [|destruct (read_only ws)];
      eexists "failed"%string, _; (split; [done|]);
      (split; [by right|]); (split; [split; [done | by intros (_ & ? & ?)]|]);
      (split; [done|]); intros path Hpath; try done;
      by rewrite lookup_insert_ne.
  - destruct (extract_asset_data _ _ _ _ _ _ _ _ _ _) as [[exn|doc] fs1];
      simpl in Hfs; subst fs1; [|destruct (read_only ws)];
      eexists "failed"%string, _; (split; [done|]);
      (split; [by right|]); (split; [split; [done | by intros (? & _)]|]);
      (split; [done|]); intros path Hpath; try done;
      by rewrite lookup_insert_ne.
Qed.

End ExtractResults.

Lemma extract_asset_data_first_extraction_witness :
  ∃ doc,
    fst (Extractor.extract_asset_data OutcomeExample.parse_from_path
           ExtractExample.no_csv ExtractExample.no_decode
           ExtractExample.recursion_limit Levenshtein.ratio
           OutcomeExample.story_manager "story" "story/data/04/1001/a_001"
           None ∅) = inr doc
    ∧ Doc.asset_name doc = Some "story/data/04/1001/a_001"%string
    ∧ ∀ blocks, Doc.text_blocks doc = Some blocks →
                Forall fresh_block blocks.
Proof.
  eexists. split; [reflexivity|].
  destruct (extract_asset_data_first_extraction
              OutcomeExample.parse_from_path ExtractExample.no_csv
              ExtractExample.no_decode
              ExtractExample.recursion_limit Levenshtein.ratio
              OutcomeExample.story_manager "story"
              "story/data/04/1001/a_001" None ∅ _ eq_refl)
    as (Hname & _ & Hfresh).
  split; [exact Hname|]. apply Hfresh. by intros path.
Defined.


Lemma process_asset_outcomes_witness :
  ∃ status fs',
    Extractor.process_asset OutcomeExample.parse_from_path
      OutcomeExample.workspace_file ExtractExample.no_csv
      ExtractExample.no_decode
      ExtractExample.recursion_limit Levenshtein.ratio
      ExtractExample.nothing_read_only OutcomeExample.story_manager "story"
      "a_001" "translations" "hachimi" false false ∅
      = (inr status, fs')
    ∧ (status = "skipped"%string ∨ status = "failed"%string)
    ∧ ∀ path, path ≠ "translations/a_001.json"%string →
              fs' !! path = (∅ : Extractor.FS) !! path.
Proof.
  destruct (process_asset_outcomes OutcomeExample.parse_from_path
              OutcomeExample.workspace_file ExtractExample.no_csv
              ExtractExample.no_decode
              ExtractExample.recursion_limit Levenshtein.ratio
              ExtractExample.nothing_read_only OutcomeExample.story_manager
              "story" "a_001" "translations" "hachimi" false false _ ∅
              eq_refl)
    as (status & fs' & Hrun & Hstatus & _ & _ & Hframe).
  by exists status, fs'.
Defined.

(** ** The batch loop *)

Section BatchFacts.
Import Extractor Batch.

Variable parse_from_path : string → string → option StoryId.t.
Variable workspace_file : string → StoryId.t → string.
Variable csv_reader : list string → option (list (list string)).
Variable utf8_decode : list Z → option string.
Variable recursion_limit : nat.
Variable similarity : string → string → Q.
Variable read_only : string → bool.

Local Abbreviation process :=
  (process_asset parse_from_path workspace_file csv_reader utf8_decode
      recursion_limit
                 similarity read_only).
Local Abbreviation loop :=
  (run_loop parse_from_path workspace_file csv_reader utf8_decode
      recursion_limit
            similarity read_only).
Local Abbreviation batch :=
  (run_batch parse_from_path workspace_file csv_reader utf8_decode
      recursion_limit
             similarity read_only).

Lemma process_asset_status manager asset_type asset_name workspace_dir
    mod_dir update overwrite fs :
  is_Some (parse_from_path asset_type asset_name) →
  ∃ status fs',
    process manager asset_type asset_name workspace_dir mod_dir update
            overwrite fs = (inr status, fs')
    ∧ (status = "skipped"%string ∨ status = "failed"%string).
Proof.
  intros [story_id Hparse].
  unfold process_asset, bind, try_except, exists_file, write_json,
    convert_workspace_data, ret, raise.
  rewrite Hparse. destruct (_ && _ && _); [by eexists _, _; eauto|].
  destruct (extract_asset_data _ _ _ _ _ _ _ _ _ _) as [[exn|doc] fs1];
    [by eexists _, _; eauto|].
  destruct (read_only _); by eexists _, _; eauto.
Qed.

Lemma process_asset_unparsed manager asset_type asset_name workspace_dir
    mod_dir update overwrite fs :
  parse_from_path asset_type asset_name = None →
  process manager asset_type asset_name workspace_dir mod_dir update
          overwrite fs = (inl IndexError, fs).
Proof.
  intros Hparse. unfold process_asset, bind, raise. by rewrite Hparse.
Qed.

Lemma run_loop_counts manager asset_type workspace_dir mod_dir update
    overwrite assets :
  Forall (λ name, is_Some (parse_from_path asset_type name)) assets →
  ∀ results fs,
    ∃ results' fs',
      loop manager asset_type assets workspace_dir mod_dir update overwrite
           results fs = (inr results', fs')
      ∧ success results' = success results
      ∧ failed results' + skipped results'
        = failed results + skipped results + length assets.
Proof.
  induction 1 as [|name assets Hname _ IH]; intros results fs; simpl.
  - exists results, fs. split; [done|]. split; [done | lia].
  - destruct (process_asset_status manager asset_type name workspace_dir
                mod_dir update overwrite fs Hname)
      as (status & fs1 & Hrun & Hstatus).
    unfold bind at 1. rewrite Hrun.
    destruct Hstatus as [-> | ->]; unfold bind, count, ret; simpl;
      match goal with
      | |- context [loop _ _ _ _ _ _ _ ?r fs1] =>
          destruct (IH r fs1) as (results' & fs' & -> & Hs & Hfs)
      end;
      exists results', fs'; simpl in *; (split; [done|]);
      (split; [done | lia]).
Qed.

Lemma run_loop_app manager asset_type workspace_dir mod_dir update overwrite
    assets rest :
  ∀ results fs,
    loop manager asset_type (assets ++ rest) workspace_dir mod_dir update
         overwrite results fs
    = match loop manager asset_type assets workspace_dir mod_dir update
                 overwrite results fs with
      | (inr results', fs') =>
          loop manager asset_type rest workspace_dir mod_dir update
               overwrite results' fs'
      | (inl exn, fs') => (inl exn, fs')
      end.
Proof.
  induction assets as [|name assets IH]; intros results fs; simpl; [done|].
  unfold bind at 1 3.
  destruct (process _ _ _ _ _ _ _ _) as [[exn|status] fs1]; [done|].
  unfold bind.
  destruct (count status results fs1) as [[exn|results1] fs2]; [done|].
  apply IH.
Qed.

(** X19. When every asset name of a batch parses, the batch runs to its
    summary: no asset is counted as successful, and the failed and skipped
    counts add up to the number of assets. *)
Theorem run_batch_counts (manager : Manager) (asset_type : string)
    (assets : list string) (workspace_dir mod_dir : string)
    (update overwrite : bool) (fs : FS) :
  Forall (λ name, is_Some (parse_from_path asset_type name)) assets →
  ∃ results fs',
    batch manager asset_type assets workspace_dir mod_dir update overwrite fs
      = (Some results, fs')
    ∧ success results = 0
    ∧ failed results + skipped results = length assets.
Proof.
  intros Hparse. unfold run_batch.
  destruct (run_loop_counts manager asset_type workspace_dir mod_dir update
              overwrite assets Hparse (mkResults 0 0 0) fs)
    as (results & fs' & -> & Hsuccess & Hsum).
  by exists results, fs'.
Qed.

(** X20. An asset name that cannot be parsed ends the batch: the exception
    leaves [process_asset], the summary is never reached, the assets before
    it have been processed and the assets after it are not touched. *)
Theorem run_batch_aborts (manager : Manager) (asset_type : string)
    (before after : list string) (bad workspace_dir mod_dir : string)
    (update overwrite : bool) (fs : FS) :
  Forall (λ name, is_Some (parse_from_path asset_type name)) before →
  parse_from_path asset_type bad = None →
  batch manager asset_type (before ++ bad :: after) workspace_dir mod_dir
        update overwrite fs
  = (None,
     snd (batch manager asset_type before workspace_dir mod_dir update
                overwrite fs)).
Proof.
  intros Hbefore Hbad. unfold run_batch. rewrite run_loop_app.
  destruct (run_loop_counts manager asset_type workspace_dir mod_dir update
              overwrite before Hbefore (mkResults 0 0 0) fs)
    as (results & fs' & -> & _).
  simpl. unfold bind at 1. by rewrite process_asset_unparsed.
Qed.

End BatchFacts.

Lemma run_batch_counts_witness :
  ∃ results fs',
    Batch.run_batch OutcomeExample.parse_from_path
      OutcomeExample.workspace_file ExtractExample.no_csv
      ExtractExample.no_decode
      ExtractExample.recursion_limit Levenshtein.ratio
      ExtractExample.nothing_read_only OutcomeExample.story_manager "story"
      ["a_001"; "a_002"]%string "translations" "hachimi" false false ∅
      = (Some results, fs')
    ∧ Batch.success results = 0
    ∧ Batch.failed results + Batch.skipped results = 2.
Proof.
  apply (run_batch_counts OutcomeExample.parse_from_path
           OutcomeExample.workspace_file ExtractExample.no_csv
           ExtractExample.no_decode
           ExtractExample.recursion_limit Levenshtein.ratio
           ExtractExample.nothing_read_only OutcomeExample.story_manager
           "story" ["a_001"; "a_002"]%string "translations" "hachimi" false
           false ∅).
  repeat constructor; by eexists.
Defined.

Lemma run_batch_aborts_witness :
  fst (Batch.run_batch OutcomeExample.parse_from_path
         OutcomeExample.workspace_file ExtractExample.no_csv
         ExtractExample.no_decode
         ExtractExample.recursion_limit Levenshtein.ratio
         ExtractExample.nothing_read_only OutcomeExample.story_manager
         "story" ["a_001"; "bad"; "a_002"]%string "translations" "hachimi"
         false false ∅)
  = None.
Proof.
  rewrite (run_batch_aborts OutcomeExample.parse_from_path
             OutcomeExample.workspace_file ExtractExample.no_csv
             ExtractExample.no_decode
             ExtractExample.recursion_limit Levenshtein.ratio
             ExtractExample.nothing_read_only OutcomeExample.story_manager
             "story" ["a_001"%string] ["a_002"%string] "bad" "translations"
             "hachimi" false false ∅).
  - done.
  - repeat constructor; by eexists.
  - done.
Defined.

(** ** File names *)

Section FileNames.
Import Common.

Lemma chars_lstrip c s : c ∈ chars (Py.lstrip s) → c ∈ chars s.
Proof.
  induction s as [|c' s IH]; simpl; [done|].
  destruct (Py.isspace c'); [|done].
  intros Hin. right. by apply IH.
Qed.

Lemma chars_rstrip c s : c ∈ chars (Py.rstrip s) → c ∈ chars s.
Proof.
  induction s as [|c' s IH]; simpl; [done|].
  destruct (Py.rstrip s) as [|d r].
  - destruct (Py.isspace c'); simpl; [by intros ?%elem_of_nil|].
    intros [->|?%elem_of_nil]%elem_of_cons; [by left | done].
  - simpl. intros [->|Hin]%elem_of_cons; [by left|]. right. by apply IH.
Qed.

Lemma chars_strip c s : c ∈ chars (Py.strip s) → c ∈ chars s.
Proof. intros Hin. by apply chars_lstrip, chars_rstrip. Qed.

Lemma chars_replace_char old new c s :
  c ∈ chars (replace_char old new s) →
  c = new ∨ (c ∈ chars s ∧ c ≠ old).
Proof.
  induction s as [|c' s IH]; simpl; [by intros ?%elem_of_nil|].
  intros [->|Hin]%elem_of_cons.
  - destruct (Ascii.eqb_spec c' old) as [->|Hne]; [by left|].
    right. split; [by left | done].
  - destruct (IH Hin) as [->|[Hs Hne]]; [by left|].
    right. split; [by right | done].
Qed.

Lemma chars_remove_char old c s :
  c ∈ chars (remove_char old s) → c ∈ chars s ∧ c ≠ old.
Proof.
  induction s as [|c' s IH]; simpl; [by intros ?%elem_of_nil|].
  destruct (Ascii.eqb_spec c' old) as [->|Hne].
  - intros Hin. destruct (IH Hin). split; [by right | done].
  - simpl. intros [->|Hin]%elem_of_cons; [split; [by left | done]|].
    destruct (IH Hin). split; [by right | done].
Qed.

Lemma chars_remove_all removed c s :
  c ∈ chars (foldl (λ name char, remove_char char name) s removed) →
  c ∈ chars s ∧ c ∉ removed.
Proof.
  revert s. induction removed as [|r removed IH]; intros s; simpl.
  - intros Hin. split; [done | apply not_elem_of_nil].
  - intros Hin. destruct (IH _ Hin) as [Hs Hnot].
    apply chars_remove_char in Hs as [Hs Hne].
    split; [done|]. by apply not_elem_of_cons.
Qed.

Lemma lstrip_head s c :
  head (chars (Py.lstrip s)) = Some c → Py.isspace c = false.
Proof.
  induction s as [|c' s IH]; simpl; [done|].
  destruct (Py.isspace c') eqn:Hspace; [done|].
  simpl. by intros [= <-].
Qed.

Lemma rstrip_head s c :
  head (chars (Py.rstrip s)) = Some c → head (chars s) = Some c.
Proof.
  destruct s as [|c' s]; simpl; [done|].
  destruct (Py.rstrip s); [|done].
  by destruct (Py.isspace c').
Qed.

Lemma rstrip_last s c :
  last (chars (Py.rstrip s)) = Some c → Py.isspace c = false.
Proof.
  induction s as [|c' s IH]; simpl; [done|].
  destruct (Py.rstrip s) as [|d r] eqn:Hr.
  - destruct (Py.isspace c') eqn:Hspace; simpl; [done|]. by intros [= <-].
  - simpl. simpl in IH. exact IH.
Qed.

Lemma strip_trimmed_ends s : trimmed_ends (Py.strip s).
Proof.
  split; intros c Hc.
  - apply rstrip_head in Hc. by apply lstrip_head in Hc.
  - by apply rstrip_last in Hc.
Qed.

Lemma sanitize_filename_chars name c :
  c ∈ chars (sanitize_filename name) →
  (c ∉ forbidden_chars) ∧ (c ∈ chars name ∨ c = ascii_of_nat 95).
Proof.
  unfold sanitize_filename.
  destruct (Py.truthy name); cbn [negb]; cbv zeta;
    [|by intros ?%elem_of_nil].
  intros Hc%chars_strip%chars_remove_all. destruct Hc as [Hc Hvalid].
  apply chars_replace_char in Hc as [->|[Hc Hslash]].
  { split; [|by right]. unfold forbidden_chars, invalid_chars.
    intros Hin. by repeat (apply elem_of_cons in Hin as [?|Hin];
                           [done|]); apply elem_of_nil in Hin. }
  apply chars_replace_char in Hc as [->|[Hc Hback]].
  { split; [|by right]. unfold forbidden_chars, invalid_chars.
    intros Hin. by repeat (apply elem_of_cons in Hin as [?|Hin];
                           [done|]); apply elem_of_nil in Hin. }
  split; [|by left]. unfold forbidden_chars.
  by repeat (apply not_elem_of_cons; split; [done|]).
Qed.

Lemma sanitize_filename_trimmed name : trimmed_ends (sanitize_filename name).
Proof.
  unfold sanitize_filename.
  destruct (Py.truthy name); cbn [negb]; cbv zeta;
    [apply strip_trimmed_ends | by split].
Qed.

(** X21. The name [sanitize_filename] returns holds no path separator and
    none of the characters of [invalid_chars], neither begins nor ends with
    white space, and each of its characters is a character of the given
    name or the underscore that replaces a separator. *)
Theorem sanitize_filename_clean (name : string) :
  (∀ c, c ∈ chars (sanitize_filename name) →
        (c ∉ forbidden_chars)
        ∧ (c ∈ chars name ∨ c = ascii_of_nat 95))
  ∧ trimmed_ends (sanitize_filename name).
Proof.
  split; [apply sanitize_filename_chars | apply sanitize_filename_trimmed].
Qed.

Lemma replace_char_absent old new s :
  old ∉ chars s → replace_char old new s = s.
Proof.
  induction s as [|c s IH]; simpl; [done|].
  intros [Hne Hs]%not_elem_of_cons.
  destruct (Ascii.eqb_spec c old) as [->|_]; [done|]. by rewrite IH.
Qed.

Lemma remove_char_absent old s : old ∉ chars s → remove_char old s = s.
Proof.
  induction s as [|c s IH]; simpl; [done|].
  intros [Hne Hs]%not_elem_of_cons.
  destruct (Ascii.eqb_spec c old) as [->|_]; [done|]. by rewrite IH.
Qed.

Lemma remove_all_absent removed s :
  (∀ c, c ∈ removed → c ∉ chars s) →
  foldl (λ name char, remove_char char name) s removed = s.
Proof.
  induction removed as [|r removed IH]; simpl; [done|].
  intros Habsent. rewrite remove_char_absent by (apply Habsent; by left).
  apply IH. intros c Hc. apply Habsent. by right.
Qed.

Lemma lstrip_fixed s :
  (∀ c, head (chars s) = Some c → Py.isspace c = false) → Py.lstrip s = s.
Proof.
  destruct s as [|c s]; simpl; [done|].
  intros Hhead. by rewrite (Hhead c eq_refl).
Qed.

Lemma rstrip_fixed s :
  (∀ c, last (chars s) = Some c → Py.isspace c = false) → Py.rstrip s = s.
Proof.
  induction s as [|c s IH]; simpl; [done|]. intros Hlast.
  destruct s as [|d s].
  - simpl. by rewrite (Hlast c eq_refl).
  - rewrite IH; [done|]. intros c' Hc'. apply Hlast.
    simpl in *. exact Hc'.
Qed.

Lemma strip_fixed s : trimmed_ends s → Py.strip s = s.
Proof.
  intros [Hhead Hlast]. unfold Py.strip.
  rewrite (lstrip_fixed _ Hhead). by apply rstrip_fixed.
Qed.

(** X22. [sanitize_filename] changes nothing in a name it has returned:
    applying it twice gives the same name as applying it once. *)
Theorem sanitize_filename_idempotent (name : string) :
  sanitize_filename (sanitize_filename name) = sanitize_filename name.
Proof.
  pose proof (sanitize_filename_chars name) as Hclean.
  pose proof (sanitize_filename_trimmed name) as Hends.
  generalize dependent (sanitize_filename name). intros out Hclean Hends.
  unfold sanitize_filename at 1.
  destruct (Py.truthy out) eqn:Hout; cbn [negb]; cbv zeta;
    [|by destruct out].
  assert (∀ c, c ∈ forbidden_chars → c ∉ chars out) as Habsent
    by (intros c Hc Hin; by destruct (Hclean c Hin)).
  rewrite (replace_char_absent (ascii_of_nat 92))
    by (apply Habsent; by left).
  rewrite (replace_char_absent (ascii_of_nat 47))
    by (apply Habsent; right; by left).
  rewrite remove_all_absent
    by (intros c Hc; apply Habsent; right; by right).
  by apply strip_fixed.
Qed.

End FileNames.

(** ** Story ids *)

Section StoryIds.
Import Common.

Lemma split_from_length sep part s :
  length (split_from sep part s) = S (occurrences sep s).
Proof.
  revert part. induction s as [|c s IH]; intros part; simpl; [done|].
  destruct (Ascii.eqb c sep); simpl; by rewrite IH.
Qed.

Lemma split_length sep s : length (split sep s) = S (occurrences sep s).
Proof. apply split_from_length. Qed.

Lemma lookup_split_None sep s i :
  split sep s !! i = None ↔ occurrences sep s < i.
Proof. rewrite lookup_ge_None, split_length. lia. Qed.

Variable path_name : string → string.

(** X23. [StoryId.parse_from_path] raises in two cases only: a story or
    home path with fewer than three slashes, and a race path whose file
    name (the part after the last slash) has no underscore.  For every
    other asset type, known or not, it returns a story id. *)
Theorem parse_from_path_raises (asset_type path_str : string)
    (group_name : option string) :
  parse_from_path path_name asset_type path_str group_name = None
  ↔ ((asset_type = "story"%string ∨ asset_type = "home"%string)
     ∧ occurrences (ascii_of_nat 47) path_str < 3)
    ∨ (asset_type = "race"%string
       ∧ occurrences (ascii_of_nat 95) (file_name path_str) = 0).
Proof.
  unfold parse_from_path, file_name.
  pose proof (lookup_split_None (ascii_of_nat 47) path_str 2) as H2.
  pose proof (lookup_split_None (ascii_of_nat 47) path_str 3) as H3.
  pose proof (lookup_split_None (ascii_of_nat 95)
                (last_part (split (ascii_of_nat 47) path_str)) 1) as H1.
  destruct (String.eqb_spec asset_type "story") as [->|Hstory].
  { destruct (split _ path_str !! 2) as [group|]; simpl.
    - destruct (split _ path_str !! 3) as [id|]; simpl.
      + split; [done|]. intros [[_ Hlt]|[? _]]; [|done].
        assert (¬ occurrences (ascii_of_nat 47) path_str < 3) as Hge
          by (intros Hlt'; by apply H3 in Hlt').
        lia.
      + split; [|done]. intros _. left. split; [by left|]. by apply H3.
    - split; [|done]. intros _. left. split; [by left|].
      assert (occurrences (ascii_of_nat 47) path_str < 2) by by apply H2.
      lia. }
  destruct (String.eqb_spec asset_type "home") as [->|Hhome].
  { destruct (split _ path_str !! 2) as [set|]; simpl.
    - destruct (split _ path_str !! 3) as [group|]; simpl.
      + split; [done|]. intros [[_ Hlt]|[? _]]; [|done].
        assert (¬ occurrences (ascii_of_nat 47) path_str < 3) as Hge
          by (intros Hlt'; by apply H3 in Hlt').
        lia.
      + split; [|done]. intros _. left. split; [by right|]. by apply H3.
    - split; [|done]. intros _. left. split; [by right|].
      assert (occurrences (ascii_of_nat 47) path_str < 2) by by apply H2.
      lia. }
  destruct (String.eqb_spec asset_type "race") as [->|Hrace].
  { destruct (split _ (last_part _) !! 1) as [id|]; simpl.
    - split; [done|]. intros [[[?|?] _]|[_ Hnone]]; [done | done|].
      assert (¬ occurrences (ascii_of_nat 95)
                  (last_part (split (ascii_of_nat 47) path_str)) < 1) as Hge
        by (intros Hlt'; by apply H1 in Hlt').
      lia.
    - split; [|done]. intros _. right. split; [done|].
      assert (occurrences (ascii_of_nat 95)
                (last_part (split (ascii_of_nat 47) path_str)) < 1)
        by by apply H1.
      lia. }
  split; [|intros [[[?|?] _]|[? _]]; done].
  by repeat (match goal with
             | |- context [if ?c then _ else _] => destruct c
             end).
Qed.

(** X24. A story id passes [matches_filter] exactly when its group is the
    given group filter, if one is given, and, if an id filter is given, its
    id is the filter, or it is a story whose index is the filter, or it is
    a home id that ends with the filter.  An empty filter counts as not
    given. *)
Theorem matches_filter_spec (self : StoryId.t)
    (filter_group filter_id : option string) :
  matches_filter self filter_group filter_id = true
  ↔ (∀ g, given filter_group = Some g → StoryId.group self = g)
    ∧ (∀ f, given filter_id = Some f →
         StoryId.id self = f
         ∨ (StoryId.type self = "story"%string ∧ StoryId.idx self = f)
         ∨ (StoryId.type self = "home"%string
            ∧ endswith (StoryId.id self) f = true)).
Proof.
  unfold matches_filter. rewrite andb_true_iff.
  f_equiv.
  - destruct (given filter_group) as [g|]; [|done].
    destruct (String.eqb_spec (StoryId.group self) g) as [->|Hne].
    + split; [by intros _ ? [= <-] | done].
    + split; [done|]. intros Hg. by destruct Hne; apply Hg.
  - destruct (given filter_id) as [f|]; [|done].
    destruct (String.eqb_spec (StoryId.id self) f) as [Hid|Hid]; simpl.
    { split; [intros _ ? [= <-]; by left | done]. }
    destruct (String.eqb_spec (StoryId.type self) "story") as [Hstory|Hstory];
      simpl.
    { destruct (String.eqb_spec (StoryId.idx self) f) as [Hidx|Hidx]; simpl.
      - rewrite Hstory. simpl.
        split; [intros _ ? [= <-]; right; by left | done].
      - split; [done|]. intros Hf.
        destruct (Hf f eq_refl) as [?|[[_ ?]|[Hhome _]]]; try done.
        by rewrite Hstory in Hhome. }
    destruct (String.eqb_spec (StoryId.type self) "home") as [Hhome|Hhome];
      simpl.
    { destruct (endswith (StoryId.id self) f) eqn:Hends; simpl.
      - split; [intros _ ? [= <-]; right; by right | done].
      - split; [done|]. intros Hf.
        destruct (Hf f eq_refl) as [?|[[? _]|[_ ?]]]; congruence. }
    split; [done|]. intros Hf.
    by destruct (Hf f eq_refl) as [?|[[? _]|[? _]]].
Qed.

End StoryIds.

(** ** Walkers: what the blocks hold *)

Section WalkerBlocks.
Import Scene Walkers MergeEngine.

Lemma home_block_has_text objects char_names i block b :
  home_block objects char_names i block = Some b → has_text b = true.
Proof.
  unfold home_block. intros Hb.
  repeat (match type of Hb with
          | context [mbind _ ?o] => destruct o; simpl in Hb; [|done]
          end).
  destruct (Py.truthy _) eqn:Htext; simpl in Hb; [|done].
  repeat (match type of Hb with
          | context [mbind _ ?o] => destruct o; simpl in Hb; [|done]
          | context [if ?c then _ else _] => destruct c; simpl in Hb
          end; try done).
  all: injection Hb as <-; unfold has_text; simpl; exact Htext.
Qed.

Lemma preview_block_has_text i entry b :
  preview_block i entry = Some b → has_text b = true.
Proof.
  unfold preview_block. intros Hb.
  repeat (match type of Hb with
          | context [mbind _ ?o] => destruct o; simpl in Hb; [|done]
          end).
  destruct (Py.truthy _) eqn:Htext; simpl in Hb; [|done].
  injection Hb as <-. unfold has_text. simpl. exact Htext.
Qed.

Lemma text_units_have_text motion_idx motion_param :
  Forall (λ b, has_text b = true) (text_units motion_idx motion_param).
Proof.
  apply Forall_omap_intro. intros [text_idx entry] b. simpl.
  unfold text_unit. destruct entry as [text_param|]; simpl; [|done].
  destruct (TextParam._text text_param) as [text|] eqn:Htext; simpl;
    [|done].
  destruct text as [|c text]; [done|]. simpl.
  by destruct (Py.truthy _); [intros [= <-]|].
Qed.

Lemma have_text_entered motion_map motion_index_map i st :
  Forall (λ b, has_text b = true) (ui_text_blocks st) →
  i ≠ 0%Z → i ∉ processed_motion_ids st →
  Forall (λ b, has_text b = true)
    (ui_text_blocks (entered motion_map motion_index_map i st)).
Proof.
  intros Hst _ _. unfold entered, units_of. simpl.
  apply Forall_app. split; [done|].
  destruct (Py.dict_get (Some i) motion_map); [|constructor].
  apply text_units_have_text.
Qed.

Lemma lyric_rows_timed rows blocks :
  lyric_rows rows = Some blocks → Forall timed blocks.
Proof.
  revert blocks. induction rows as [|row rows IH]; intros blocks; simpl.
  - intros [= <-]. constructor.
  - destruct row as [|time [|text more]]; [apply IH| |].
    + destruct (Py.truthy time); [done | apply IH].
    + destruct (Py.truthy time) eqn:Htime; [|apply IH].
      destruct (lyric_rows rows) as [bs|]; [|done]. simpl.
      intros [= <-]. constructor; [by exists time | by apply IH].
Qed.

Variable csv_reader : list string → option (list (list string)).
Variable utf8_decode : list Z → option string.
Variable recursion_limit : nat.

Local Ltac other_type :=
  let Hin := fresh in
  intros Hin;
  repeat (apply elem_of_cons in Hin as [?|Hin]; [done|]);
  by apply elem_of_nil in Hin.

(** X26. What the walkers promise of a document they return: the home,
    preview and lyrics walkers never return a document without blocks; every
    block of a home, preview or UI-animation document has a non-empty
    source text; every block of a lyrics document has a non-empty time
    stamp; and a generic document never has a block. *)
Theorem walkers_block_contents (manager : Extractor.Manager)
    (asset_type : string) (env : Env) (fs fs' : Extractor.FS) (doc : Doc.t)
    (blocks : list Block.t) :
  Extractor.run_parser csv_reader utf8_decode recursion_limit manager asset_type
    env fs
    = (inr (Some doc), fs') →
  Doc.text_blocks doc = Some blocks →
  (asset_type ∈ ["home"; "preview"; "lyrics"]%string → blocks ≠ [])
  ∧ (asset_type ∈ ["home"; "preview"; "uianimation"]%string →
     Forall (λ b, has_text b = true) blocks)
  ∧ (asset_type = "lyrics"%string → Forall timed blocks)
  ∧ (asset_type = "generic"%string → blocks = []).
Proof.
  unfold Extractor.run_parser, Extractor.ret, Extractor.raise.
  destruct (String.eqb_spec asset_type "story") as [->|_].
  { intros _ _. repeat split; try done; other_type. }
  destruct (String.eqb_spec asset_type "race") as [->|_].
  { intros _ _. repeat split; try done; other_type. }
  destruct (String.eqb_spec asset_type "lyrics") as [->|_].
  { intros [= Hdoc _] Hblocks.
    assert (blocks ≠ [] ∧ Forall timed blocks) as [Hne Htimed].
    { revert Hdoc. induction env as [|obj env IH]; simpl; [done|].
      destruct (is_type "TextAsset" obj); [|done].
      destruct (lyric_asset csv_reader utf8_decode obj) as [[|b bs]|]
        eqn:Hasset; try done.
      intros [= <-]. simpl in Hblocks. injection Hblocks as <-.
      split; [done|].
      unfold lyric_asset in Hasset.
      repeat (match type of Hasset with
              | context [mbind _ ?o] => destruct o; simpl in Hasset; [|done]
              end).
      by apply lyric_rows_timed in Hasset. }
    repeat split; try done; other_type. }
  destruct (String.eqb_spec asset_type "home") as [->|_].
  { unfold parse_home_timeline.
    destruct (find_timeline env) as [timeline|]; simpl; [|done].
    assert (Forall (λ b, has_text b = true)
              (home_loop env (Extractor.char_names manager)
                         (Timeline.BlockList timeline))) as Htext.
    { unfold home_loop.
      rewrite (foldl_append_omap
                 (λ entry, home_block env (Extractor.char_names manager)
                                      entry.1 entry.2)).
      simpl. apply Forall_omap_intro. intros [i block] b.
      apply home_block_has_text. }
    destruct (home_loop _ _ _); [done|].
    intros [= <- _] [= <-]. by repeat split. }
  destruct (String.eqb_spec asset_type "preview") as [->|_].
  { intros [= Hdoc _] Hblocks. revert Hdoc.
    induction env as [|obj env IH]; simpl; [done|].
    destruct (is_type "MonoBehaviour" obj); [|done].
    destruct (read_typetree obj) as [[| | | | | [DataArray|] | |]|]; try done.
    assert (Forall (λ b, has_text b = true) (preview_loop DataArray))
      as Htext.
    { unfold preview_loop.
      rewrite (foldl_append_omap (λ entry, preview_block entry.1 entry.2)).
      simpl. apply Forall_omap_intro. intros [i entry] b.
      apply preview_block_has_text. }
    destruct (preview_loop DataArray); [done|].
    intros [= <-]. simpl in Hblocks. injection Hblocks as <-.
    by repeat split. }
  destruct (String.eqb_spec asset_type "uianimation") as [->|_].
  { unfold parse_uianimation.
    destruct (find_main_mono env) as [main_mono|]; [|done].
    assert (Forall (λ b, has_text b = true) blocks →
            ("uianimation"%string ∈ ["home"; "preview"; "lyrics"]%string →
             blocks ≠ [])
            ∧ ("uianimation"%string
                 ∈ ["home"; "preview"; "uianimation"]%string →
               Forall (λ b, has_text b = true) blocks)
            ∧ ("uianimation"%string = "lyrics"%string → Forall timed blocks)
            ∧ ("uianimation"%string = "generic"%string → blocks = []))
      as Hgoal by (intros ?; repeat split; try done; other_type).
    destruct (Py.get (MainMono._motionParameterList main_mono) [])
      as [|m l].
    - intros [= <- _] Hb. apply Hgoal. injection Hb as <-. constructor.
    - destruct (uianimation_walk _ _ _) as [st|] eqn:Hwalk; [|done].
      simpl. intros [= <- _] Hb. apply Hgoal. injection Hb as <-.
      unfold uianimation_walk in Hwalk.
      apply (visit_roots_keeps _ _
               (λ st, Forall (λ b, has_text b = true) (ui_text_blocks st))
               (have_text_entered _ _) _ _ _ _ Hwalk).
      constructor. }
  destruct (String.eqb_spec asset_type "generic") as [->|_]; [|done].
  intros [= Hdoc _] Hblocks.
  assert (blocks = []) as ->.
  { revert Hdoc. induction env as [|obj env IH]; simpl; [done|].
    destruct (Py.truthy (type_name obj)); [|done].
    intros [= <-]. by injection Hblocks as <-. }
  repeat split; try done; other_type.
Qed.

End WalkerBlocks.

Lemma walkers_block_contents_witness :
  Forall timed [Walkers.lyric_block "1000" "la la la";
                Walkers.lyric_block "2500" "second line"].
Proof.
  exact (proj1 (proj2 (proj2
           (walkers_block_contents LyricsExample.csv_unquoted
              LyricsExample.no_decode ExtractExample.recursion_limit
              ExtractExample.manager "lyrics"
              LyricsExample.env ∅ ∅ LyricsExample.doc _ eq_refl eq_refl)))
           eq_refl).
Defined.

(** ** The lyrics output *)

Section LyricsOutput.
Import Hachimi.

Lemma dict_get_set {K V} `{EqDecision K} (k k' : K) (v : V) d :
  Py.dict_get k (Py.dict_set k' v d)
  = if decide (k = k') then Some v else Py.dict_get k d.
Proof.
  induction d as [|[k1 v1] d IH]; simpl.
  - by destruct (decide (k = k')).
  - destruct (decide (k' = k1)) as [->|Hne]; simpl.
    + by destruct (decide (k = k1)).
    + rewrite IH. destruct (decide (k = k1)) as [->|?]; [|done].
      by destruct (decide (k1 = k')).
Qed.

Lemma final_text_shown b : final_text b = shown_text b.
Proof.
  unfold final_text, shown_text, Py.get.
  by destruct (Py.strip (default EmptyString (Block.enText b))).
Qed.

Lemma truthy_nonempty s : Py.truthy s = true ↔ s ≠ EmptyString.
Proof. by destruct s. Qed.

Lemma lyrics_loop_lookup t blocks acc :
  Py.truthy t = true →
  Py.dict_get t (foldl lyrics_step acc blocks)
  = match last (stored_at t blocks) with
    | Some b => Some (shown_text b)
    | None => Py.dict_get t acc
    end.
Proof.
  intros Ht. revert acc. induction blocks as [|b blocks IH]; intros acc;
    [done|].
  simpl. rewrite IH. unfold stored_at. rewrite filter_cons.
  fold (stored_at t blocks).
  destruct (decide (Block.time b = Some t ∧ shown_text b ≠ EmptyString))
    as [[Htime Htext]|Hno].
  - rewrite last_cons. destruct (last (stored_at t blocks)); [done|].
    apply truthy_nonempty in Htext.
    unfold lyrics_step. rewrite Htime, Ht, final_text_shown, Htext. simpl.
    rewrite dict_get_set. by destruct (decide (t = t)).
  - destruct (last (stored_at t blocks)); [done|].
    unfold lyrics_step.
    destruct (Block.time b) as [timestamp|]; [|done].
    destruct (Py.truthy timestamp && Py.truthy (final_text b)) eqn:Hkeep;
      [|done].
    rewrite dict_get_set. destruct (decide (t = timestamp)) as [->|?];
      [|done].
    apply andb_true_iff in Hkeep as [_ Htext].
    rewrite final_text_shown in Htext. apply truthy_nonempty in Htext.
    by destruct Hno.
Qed.

(** X25. In the lyrics output of [_convert_lyrics_format], the entry of a
    non-empty time stamp is the text of the last block with that time that
    has a text to show, the text of a block being its trimmed translation
    or, when that is empty, its trimmed source text; a time stamp without
    such a block has no entry, and no entry is ever empty. *)
Theorem convert_lyrics_format_lookup (data : Doc.t) (t : string) :
  Py.truthy t = true →
  Py.dict_get t (_convert_lyrics_format data)
    = shown_text <$> last (stored_at t (default [] (Doc.text_blocks data)))
  ∧ Py.dict_get t (_convert_lyrics_format data) ≠ Some EmptyString.
Proof.
  intros Ht. unfold _convert_lyrics_format, Py.get.
  rewrite (lyrics_loop_lookup t _ [] Ht).
  destruct (last _) as [b|] eqn:Hlast; simpl; [|done].
  split; [done|]. intros [= Hempty].
  apply last_Some_elem_of in Hlast. unfold stored_at in Hlast.
  apply list_elem_of_filter in Hlast as [[_ Htext] _]. done.
Qed.

End LyricsOutput.

Lemma convert_lyrics_format_lookup_witness :
  Py.dict_get "1000"%string
    (Hachimi._convert_lyrics_format
       (MergeExample.doc_of
          [Walkers.lyric_block "1000" " ru ru ";
           Block.set_enText " la la "%string
             (Walkers.lyric_block "1000" "ra ra");
           Walkers.lyric_block "2500" "ri ri"]))
  = Some "la la"%string.
Proof.
  exact (proj1 (convert_lyrics_format_lookup
                  (MergeExample.doc_of
                     [Walkers.lyric_block "1000" " ru ru ";
                      Block.set_enText " la la "%string
                        (Walkers.lyric_block "1000" "ra ra");
                      Walkers.lyric_block "2500" "ri ri"])
                  "1000" eq_refl)).
Defined.

(** A block without a translation shows its trimmed source text. *)
Example lyrics_output_untranslated :
  Hachimi._convert_lyrics_format
    (MergeExample.doc_of
       [Walkers.lyric_block "1000" " ru ru ";
        Block.set_enText " la la "%string
          (Walkers.lyric_block "2500" "ra ra")])
  = [("1000", "ru ru"); ("2500", "la la")]%string.
Proof. reflexivity. Qed.

(** ** Download: the [False] result *)

Section DownloadFailure.
Import ContentStore.

Lemma on_request_exception_delete asset_path (fs : FS) :
  on_request_exception asset_path fs = delete asset_path fs.
Proof.
  unfold on_request_exception. case_bool_decide as Hpresent; [done|].
  symmetry. apply delete_id. by apply eq_None_not_Some.
Qed.

(** X27. When [download_asset] returns [False], either no request was made
    and the files are as before (the flag is off or the category is
    unknown), or one request was made and afterwards there is no file at
    the asset path, a file that was there before the call included, while
    every other file is as before. *)
Theorem download_asset_failure (w : World) (hash_str category : string)
    (fs fs' : FS) (urls : list string) :
  download_asset w hash_str category fs = (Returned false, fs', urls) →
  (urls = [] ∧ fs' = fs
   ∧ (AUTO_DOWNLOAD_ASSETS w = false ∨ url_of w hash_str category = None))
  ∨ (∃ url, url_of w hash_str category = Some url ∧ urls = [url]
            ∧ fs' = delete (get_asset_path w hash_str) fs).
Proof.
  unfold download_asset.
  destruct (AUTO_DOWNLOAD_ASSETS w); simpl;
    [|intros [= <- <-]; left; by eauto].
  destruct (url_of w hash_str category) as [url|];
    [|intros [= <- <-]; left; by eauto].
  destruct (makedirs_ok w); simpl; [|done].
  destruct (respond w url) as [| |chunks complete].
  - intros [= <- <-]. right. exists url.
    by rewrite on_request_exception_delete.
  - intros [= <- <-]. right. exists url.
    by rewrite on_request_exception_delete.
  - destruct (content_length_ok w); simpl; [|done].
    destruct (open_ok w); simpl; [|done].
    destruct (write_chunks chunks (writes_ok w) []) as [content written].
    destruct written; simpl; [|done].
    destruct complete; [done|].
    intros [= <- <-]. right. exists url.
    by rewrite on_request_exception_delete, delete_insert_eq.
Qed.

End DownloadFailure.

Lemma download_asset_failure_witness :
  ∃ url,
    ContentStore.url_of UnreachableExample.world "ab12cd" "bundle" = Some url
    ∧ [DownloadExample.url] = [url]
    ∧ ({[ "dat/cd/cd34ef"%string := [1]%Z ]} : ContentStore.FS)
      = delete (ContentStore.get_asset_path UnreachableExample.world
                  "ab12cd")
               UnreachableExample.fs.
Proof.
  destruct (download_asset_failure UnreachableExample.world "ab12cd"
              "bundle" UnreachableExample.fs
              {[ "dat/cd/cd34ef"%string := [1]%Z ]} [DownloadExample.url])
    as [[Hnone _]|Hrequested].
  - vm_compute. reflexivity.
  - discriminate Hnone.
  - exact Hrequested.
Defined.

(** ** Merge: a second pass *)

Section MergeAgain.
Import MergeEngine.

Variable similarity : string → string → Q.

Lemma copy_choices_again (ocs ncs : list Choice.t) :
  copy_choices ocs (copy_choices ocs ncs) = copy_choices ocs ncs.
Proof.
  unfold copy_choices. apply list_eq. intros i.
  rewrite !list_lookup_imap.
  destruct (ncs !! i) as [nc|]; simpl; [|done].
  by destruct (ocs !! i).
Qed.

Lemma copy_translation_again bm nb :
  copy_translation bm (copy_translation bm nb) = copy_translation bm nb.
Proof.
  unfold copy_translation.
  destruct nb as [? ? ? ? ? ? ? ? [ncs|] ? ? ? ? ? ? ? ?];
    destruct (Block.enName bm); destruct (Block.choices bm) as [ocs|];
    simpl; try done;
    unfold Block.set_choices; simpl; by rewrite copy_choices_again.
Qed.

Lemma copy_translation_jpText bm nb :
  Block.jpText (copy_translation bm nb) = Block.jpText nb.
Proof.
  unfold copy_translation.
  destruct nb as [? ? ? ? ? ? ? ? [ncs|] ? ? ? ? ? ? ? ?];
    destruct (Block.enName bm); by destruct (Block.choices bm).
Qed.

Lemma merge_block_again old_blocks lookup nb :
  merge_block similarity old_blocks lookup
    (merge_block similarity old_blocks lookup nb)
  = merge_block similarity old_blocks lookup nb.
Proof.
  unfold merge_block at 2.
  destruct (Block.jpText nb) as [jp_text|] eqn:Hjp;
    [|unfold merge_block; by rewrite Hjp].
  destruct (Py.truthy jp_text) eqn:Htruthy; simpl;
    [|unfold merge_block; by rewrite Hjp, Htruthy].
  destruct (find_best_match similarity old_blocks lookup jp_text)
    as [bm|] eqn:Hbest;
    [|unfold merge_block; by rewrite Hjp, Htruthy, Hbest].
  destruct (accepted similarity jp_text bm) eqn:Haccepted;
    [|unfold merge_block; by rewrite Hjp, Htruthy, Hbest, Haccepted].
  unfold merge_block.
  rewrite copy_translation_jpText, Hjp, Htruthy. simpl.
  rewrite Hbest, Haccepted. apply copy_translation_again.
Qed.

(** X28. Merging the result of a merge against the same old document again
    changes nothing. *)
Theorem merge_translations_again (new_data : Doc.t)
    (existing : option Doc.t) :
  merge_translations similarity
    (merge_translations similarity new_data existing) existing
  = merge_translations similarity new_data existing.
Proof.
  destruct existing as [old_data|]; [|done].
  unfold merge_translations. destruct new_data as [? ? ? ? ? [blocks|]];
    simpl; [|done].
  unfold Doc.set_text_blocks. simpl. do 2 f_equal.
  rewrite map_map. apply map_ext. intros nb. apply merge_block_again.
Qed.

End MergeAgain.
